(** * Markup-to-document compiler of sub-api

    A shallow embedding of [parse_markup_to_json] and
    [parse_inline_formatting], as they are written in
    [src/d/drafts.py] and again in [examples/python/draft_create.py],
    together with the part of the Python runtime the two functions use
    ([str] methods, the [re] module on the patterns of the program,
    [int]), and the properties of the compiler stated over it. *)

From Stdlib Require Import List Bool Arith NArith ZArith Lia.
From Stdlib Require Import Ascii String DecimalString.
Import ListNotations.

(** ** Python values *)

(** A Python [str] is a sequence of Unicode code points. *)
Definition char := N.
Definition pystr := list char.

Definition ch (a : ascii) : char := N_of_ascii a.

(** An ASCII literal of the source as a [str]. *)
Definition py (s : string) : pystr := map ch (list_ascii_of_string s).

(** The exceptions the two functions could meet. *)
Inductive exn := ValueError | IndexError.

Inductive result (A : Type) : Type :=
| Ok (a : A)
| Raise (e : exn).

Arguments Ok {A} a.
Arguments Raise {A} e.

Definition bind {A B} (r : result A) (k : A -> result B) : result B :=
  match r with
  | Ok a => k a
  | Raise e => Raise e
  end.

Notation "x <- r ;; k" := (bind r (fun x => k))
  (at level 61, r at next level, right associativity).
Notation "' p <- r ;; k" := (bind r (fun x => let p := x in k))
  (at level 61, p pattern, r at next level, right associativity).

(** ** [str] methods *)

Module Str.

Fixpoint eqb (s t : pystr) : bool :=
  match s, t with
  | [], [] => true
  | c :: s', d :: t' => N.eqb c d && eqb s' t'
  | _, _ => false
  end.

Definition is_empty (s : pystr) : bool :=
  match s with [] => true | _ :: _ => false end.

(** [s[a:b]] for non-negative [a] and [b]. *)
Definition slice (s : pystr) (a b : nat) : pystr := firstn (b - a) (skipn a s).

(** [s[a:]]. *)
Definition slice_from (s : pystr) (a : nat) : pystr := skipn a s.

(** [s[i]] for a non-negative [i]. *)
Definition index (s : pystr) (i : nat) : result char :=
  match nth_error s i with
  | Some c => Ok c
  | None => Raise IndexError
  end.

(** [str.isspace] on one code point: the characters [str.strip] removes
    and the class [\s] of [re] on [str] patterns. *)
Definition isspace (c : char) : bool :=
  ((9 <=? c) && (c <=? 13) || (28 <=? c) && (c <=? 32)
   || (c =? 133) || (c =? 160) || (c =? 5760)
   || (8192 <=? c) && (c <=? 8202)
   || (c =? 8232) || (c =? 8233) || (c =? 8239) || (c =? 8287)
   || (c =? 12288))%N.

Fixpoint lstrip (s : pystr) : pystr :=
  match s with
  | c :: s' => if isspace c then lstrip s' else s
  | [] => []
  end.

Fixpoint rstrip (s : pystr) : pystr :=
  match s with
  | c :: s' =>
      match rstrip s' with
      | [] => if isspace c then [] else [c]
      | r => c :: r
      end
  | [] => []
  end.

Definition strip (s : pystr) : pystr := rstrip (lstrip s).

(** [str.lower] on one code point.  The letters A-Z, the Kelvin sign
    (to [k]) and the dotted capital I (to [i] and a combining dot) are
    the only code points whose lower case has an ASCII character in it;
    the program compares the lowered tag with ASCII literals only, so
    the other code points, whose lower case is never ASCII, are left
    as they are. *)
Definition lower_char (c : char) : pystr :=
  if ((65 <=? c) && (c <=? 90))%N then [(c + 32)%N]
  else if (c =? 8490)%N then [107%N]
  else if (c =? 304)%N then [105%N; 775%N]
  else [c].

Definition lower (s : pystr) : pystr := flat_map lower_char s.

(** [s.replace(old, new)] for one-character [old] and [new]. *)
Definition replace (old new : char) (s : pystr) : pystr :=
  map (fun c => if N.eqb c old then new else c) s.

Fixpoint startswith (p s : pystr) : bool :=
  match p, s with
  | [], _ => true
  | c :: p', d :: s' => N.eqb c d && startswith p' s'
  | _ :: _, [] => false
  end.

(** [sep in s]. *)
Fixpoint contains (sep s : pystr) : bool :=
  startswith sep s
  || match s with
     | [] => false
     | _ :: s' => contains sep s'
     end.

(** The text before and after the first occurrence of [sep]. *)
Fixpoint partition (sep s : pystr) : option (pystr * pystr) :=
  if startswith sep s then Some ([], skipn (List.length sep) s)
  else match s with
       | [] => None
       | c :: s' =>
           match partition sep s' with
           | Some (a, b) => Some (c :: a, b)
           | None => None
           end
       end.

(** [s.split(sep, 1)]. *)
Definition split1 (sep s : pystr) : list pystr :=
  match partition sep s with
  | Some (a, b) => [a; b]
  | None => [s]
  end.

(** [s.split(sep)] for a one-character [sep]. *)
Fixpoint split (sep : char) (s : pystr) : list pystr :=
  match s with
  | [] => [[]]
  | c :: s' =>
      if N.eqb c sep then [] :: split sep s'
      else match split sep s' with
           | p :: ps => (c :: p) :: ps
           | [] => [[c]]
           end
  end.

(** [a, b = parts]. *)
Definition unpack2 (parts : list pystr) : result (pystr * pystr) :=
  match parts with
  | [a; b] => Ok (a, b)
  | _ => Raise ValueError
  end.

(** The zeros of the runs of decimal digits (category Nd, Unicode 14.0
    of CPython 3.11): the characters of [str.isdecimal] and of the class
    [\d] of [re] are the ten code points from each. *)
Definition decimal_zeros : list N :=
  [48; 1632; 1776; 1984; 2406; 2534; 2662; 2790; 2918; 3046; 3174; 3302;
   3430; 3558; 3664; 3792; 3872; 4160; 4240; 6112; 6160; 6470; 6608; 6784;
   6800; 6992; 7088; 7232; 7248; 42528; 43216; 43264; 43472; 43504; 43600;
   44016; 65296; 66720; 68912; 69734; 69872; 69942; 70096; 70384; 70736;
   70864; 71248; 71360; 71472; 71904; 72016; 72784; 73040; 73120; 92768;
   92864; 93008; 120782; 120792; 120802; 120812; 120822; 123200; 123632;
   125264; 130032]%N.

Definition in_run (c z : N) : bool := ((z <=? c) && (c <? z + 10))%N.

Definition isdecimal (c : char) : bool := existsb (in_run c) decimal_zeros.

Definition digit_value (c : char) : Z :=
  match find (in_run c) decimal_zeros with
  | Some z => Z.of_N (c - z)
  | None => 0
  end.

(** [sys.int_info.default_max_str_digits]: [int] refuses a decimal
    string of more digits. *)
Definition int_max_str_digits : nat := 4300.

(** [int(s)] on the strings the program gives it, which are runs of
    decimal digits: their value, [ValueError] beyond the digit limit.
    Python accepts a sign, underscores and blanks around the digits too;
    no string of the program has them and the model refuses them. *)
Definition int (s : pystr) : result Z :=
  if is_empty s || negb (forallb isdecimal s) then Raise ValueError
  else if int_max_str_digits <? List.length s then Raise ValueError
  else Ok (fold_left (fun acc c => (10 * acc + digit_value c)%Z) s 0%Z).

(** [str(n)] of an [int], as an f-string renders it.  (The counter it is
    applied to is bounded by the number of blocks, far below the digit
    limit.) *)
Definition of_int (n : Z) : pystr := py (NilZero.string_of_int (Z.to_int n)).

End Str.

(** ** The [re] module on the patterns of the program

    Every pattern of the program is a sequence of literals, character
    classes, starred classes and groups without nesting or alternation;
    the matcher below backtracks over such a sequence as [re] does. *)

Module Re.

Inductive item :=
| Chr (c : char)                  (* a literal character *)
| Cls (p : char -> bool)          (* one character of a class *)
| Star (p : char -> bool)         (* [p*], greedy *)
| Plus (p : char -> bool)         (* [p+], greedy *)
| LazyStar (p : char -> bool)     (* [p*?] *)
| GroupOpen                       (* [(] *)
| GroupClose.                     (* [)] *)

Definition regex := list item.

(** A literal ASCII character of a pattern. *)
Definition Lit (a : ascii) : item := Chr (ch a).

(** [.] without DOTALL: anything but a newline. *)
Definition dot (c : char) : bool := negb (c =? 10)%N.

(** [[^x]]. *)
Definition no (x : ascii) (c : char) : bool := negb (c =? ch x)%N.

(** [\d] and [\s] on [str] patterns. *)
Definition digit : char -> bool := Str.isdecimal.
Definition space : char -> bool := Str.isspace.

(** End position and the positions of the group boundaries, in the
    order they were crossed. *)
Definition outcome := option (nat * list nat).

Section Quantifiers.

Variable p : char -> bool.
Variable k : pystr -> nat -> outcome.

(** As many as possible first, one fewer on failure. *)
Fixpoint greedy (t : pystr) (pos : nat) : outcome :=
  match t with
  | c :: t' =>
      if p c then
        match greedy t' (S pos) with
        | Some m => Some m
        | None => k t pos
        end
      else k t pos
  | [] => k t pos
  end.

(** As few as possible first, one more on failure. *)
Fixpoint lazy (t : pystr) (pos : nat) : outcome :=
  match k t pos with
  | Some m => Some m
  | None =>
      match t with
      | c :: t' => if p c then lazy t' (S pos) else None
      | [] => None
      end
  end.

End Quantifiers.

(** Match [r] against the text [t] that starts at offset [pos]. *)
Fixpoint run (r : regex) (caps : list nat) (t : pystr) (pos : nat) : outcome :=
  match r with
  | [] => Some (pos, caps)
  | Chr c :: r' =>
      match t with
      | x :: t' => if (x =? c)%N then run r' caps t' (S pos) else None
      | [] => None
      end
  | Cls p :: r' =>
      match t with
      | x :: t' => if p x then run r' caps t' (S pos) else None
      | [] => None
      end
  | Star p :: r' => greedy p (run r' caps) t pos
  | Plus p :: r' =>
      match t with
      | x :: t' => if p x then greedy p (run r' caps) t' (S pos) else None
      | [] => None
      end
  | LazyStar p :: r' => lazy p (run r' caps) t pos
  | GroupOpen :: r' => run r' (caps ++ [pos]) t pos
  | GroupClose :: r' => run r' (caps ++ [pos]) t pos
  end.

(** A match object: [m.start()], [m.end()] and the group boundaries;
    [m.string] is passed to [group]. *)
Record rmatch := { m_start : nat; m_end : nat; m_caps : list nat }.

(** [m.group(n)], for [n >= 1]. *)
Definition group (text : pystr) (m : rmatch) (n : nat) : pystr :=
  Str.slice text (nth (2 * n - 2) (m_caps m) 0) (nth (2 * n - 1) (m_caps m) 0).

(** [re.match(r, text)]. *)
Definition rmatch_at_start (r : regex) (text : pystr) : option rmatch :=
  match run r [] text 0 with
  | Some (e, caps) => Some {| m_start := 0; m_end := e; m_caps := caps |}
  | None => None
  end.

(** The matches from offset [pos] on, leftmost first, none overlapping
    the one before: [skip] counts the characters of the last match that
    are still to be passed.  (No pattern of the program matches the
    empty string, so what [re] does after an empty match plays no
    part.) *)
Fixpoint scan (r : regex) (t : pystr) (pos skip : nat) : list rmatch :=
  match t with
  | [] => []
  | _ :: t' =>
      match skip with
      | S n => scan r t' (S pos) n
      | O =>
          match run r [] t pos with
          | Some (e, caps) =>
              {| m_start := pos; m_end := e; m_caps := caps |}
                :: scan r t' (S pos) (e - pos - 1)
          | None => scan r t' (S pos) 0
          end
      end
  end.

(** [re.finditer(r, text)]. *)
Definition finditer (r : regex) (text : pystr) : list rmatch := scan r text 0 0.

(** The pieces of [text] between the matches [ms], from offset [pos]. *)
Fixpoint pieces (text : pystr) (pos : nat) (ms : list rmatch) : list pystr :=
  match ms with
  | [] => [Str.slice_from text pos]
  | m :: ms' => Str.slice text pos (m_start m) :: pieces text (m_end m) ms'
  end.

(** [re.split(r, text)] for a pattern without groups. *)
Definition split (r : regex) (text : pystr) : list pystr :=
  pieces text 0 (finditer r text).

End Re.

(** ** The document tree

    The dictionaries the compiler builds have the keys ["type"],
    ["attrs"], ["text"], ["marks"] and ["content"], each present or
    absent; attribute dictionaries map a key to [None], an [int] or a
    [str]. *)

Open Scope string_scope.
Open Scope list_scope.

Inductive value :=
| VNone
| VInt (n : Z)
| VStr (s : pystr).

Definition dict := list (string * value).

Fixpoint lookup (key : string) (d : dict) : option value :=
  match d with
  | [] => None
  | (k, v) :: d' => if String.eqb k key then Some v else lookup key d'
  end.

Record mark := { mark_type : string; mark_attrs : option dict }.

#[warnings="-register-all"]
Inductive node := {
  type : string;
  attrs : option dict;
  text : option pystr;
  marks : option (list mark);
  content : option (list node)
}.

(** [{"type": "text", "text": t}] *)
Definition text_node (t : pystr) : node :=
  {| type := "text"; attrs := None; text := Some t; marks := None; content := None |}.

(** [{"type": "text", "text": t, "marks": ms}] *)
Definition marked_text (t : pystr) (ms : list mark) : node :=
  {| type := "text"; attrs := None; text := Some t; marks := Some ms; content := None |}.

(** [{"type": ty, "content": c}] *)
Definition container (ty : string) (c : list node) : node :=
  {| type := ty; attrs := None; text := None; marks := None; content := Some c |}.

(** [{"type": ty, "attrs": a, "content": c}] *)
Definition container_with (ty : string) (a : dict) (c : list node) : node :=
  {| type := ty; attrs := Some a; text := None; marks := None; content := Some c |}.

(** [{"type": ty, "attrs": a}] *)
Definition leaf_with (ty : string) (a : dict) : node :=
  {| type := ty; attrs := Some a; text := None; marks := None; content := None |}.

(** [{"type": ty}] *)
Definition leaf (ty : string) : node :=
  {| type := ty; attrs := None; text := None; marks := None; content := None |}.

(** [elem.get('text', '')] *)
Definition get_text (elem : node) : pystr :=
  match text elem with
  | Some t => t
  | None => []
  end.

(** ** src/d/drafts.py *)

Module Drafts.

Import Re.

(** The five [patterns] of [parse_inline_formatting]. *)
Definition patterns : list (regex * string) :=
  [ ([Lit "*"; Lit "*"; GroupOpen; LazyStar dot; GroupClose; Lit "*"; Lit "*"],
     "strong");
    ([Lit "*"; GroupOpen; LazyStar dot; GroupClose; Lit "*"], "em");
    ([Lit "~"; Lit "~"; GroupOpen; LazyStar dot; GroupClose; Lit "~"; Lit "~"],
     "strikethrough");
    ([Lit "`"; GroupOpen; LazyStar dot; GroupClose; Lit "`"], "code");
    ([Lit "["; GroupOpen; Plus (no "]"); GroupClose; Lit "]";
      Lit "("; GroupOpen; Plus (no ")"); GroupClose; Lit ")"], "link") ].

(** One entry of [matches]: start, end, format type, match object. *)
Definition entry : Type := nat * nat * string * rmatch.

Definition entry_start (x : entry) : nat := fst (fst (fst x)).

(** [matches] before sorting. *)
Definition find_matches (text : pystr) : list entry :=
  flat_map
    (fun '(pattern, format_type) =>
       map (fun m => (m_start m, m_end m, format_type, m)) (finditer pattern text))
    patterns.

(** [matches.sort(key=lambda x: x[0])]: the sort is stable. *)
Fixpoint insert_sorted (x : entry) (l : list entry) : list entry :=
  match l with
  | [] => [x]
  | y :: l' =>
      if Nat.ltb (entry_start x) (entry_start y) then x :: l
      else y :: insert_sorted x l'
  end.

Definition sort_matches (l : list entry) : list entry :=
  fold_left (fun acc x => insert_sorted x acc) l [].

(** The mark dictionary of a link. *)
Definition link_mark (link_url : pystr) : mark :=
  {| mark_type := "link";
     mark_attrs := Some [ ("href", VStr link_url);
                          ("target", VStr (py "_blank"));
                          ("rel", VStr (py "noopener noreferrer nofollow"));
                          ("class", VNone) ] |}.

(** The body of the loop over the sorted matches, on the state
    [(elements, current_pos)]. *)
Definition match_step (text : pystr) (st : list node * nat) (x : entry)
  : list node * nat :=
  let '(elements, current_pos) := st in
  let '(start, end_, format_type, m) := x in
  let elements :=
    if Nat.ltb current_pos start then
      let plain_text := Str.slice text current_pos start in
      if negb (Str.is_empty plain_text) then elements ++ [text_node plain_text]
      else elements
    else elements in
  let elements :=
    if String.eqb format_type "link" then
      let link_text := group text m 1 in
      let link_url := group text m 2 in
      elements ++ [marked_text link_text [link_mark link_url]]
    else
      let formatted_text := group text m 1 in
      elements ++ [marked_text formatted_text
                     [{| mark_type := format_type; mark_attrs := None |}]] in
  (elements, end_).

(** [elem.get('text', '').strip() != ''] *)
Definition has_text (elem : node) : bool :=
  negb (Str.is_empty (Str.strip (get_text elem))).

Definition parse_inline_formatting (text : pystr) : list node :=
  let matches := sort_matches (find_matches text) in
  let '(elements, current_pos) := fold_left (match_step text) matches ([], 0) in
  let elements :=
    if Nat.ltb current_pos (List.length text) then
      let remaining_text := Str.slice_from text current_pos in
      if negb (Str.is_empty remaining_text) then elements ++ [text_node remaining_text]
      else elements
    else elements in
  let elements :=
    match elements with
    | [] => [text_node text]
    | _ => elements
    end in
  let elements := filter has_text elements in
  match elements with
  | [] => [text_node text]
  | _ => elements
  end.

(** [{"type": "paragraph", "content": [{"type": "text", "text": t}]}] *)
Definition plain_paragraph (t : pystr) : node :=
  container "paragraph" [text_node t].

(** [{"type": "heading", "attrs": {"level": level}, "content": [...]}] *)
Definition heading (level : Z) (block_content : pystr) : node :=
  container_with "heading" [("level", VInt level)] [text_node block_content].

(** The list items built from [items] in the list branches. *)
Definition list_items (items : list pystr) : list node :=
  map (fun item =>
         container "list_item"
           [container "paragraph" (parse_inline_formatting item)])
      items.

(** [{"type": "button", "attrs": {"url": ..., "text": ..., "action": None,
    "class": None}}] *)
Definition button (url text : pystr) : node :=
  leaf_with "button"
    [("url", VStr url); ("text", VStr text); ("action", VNone); ("class", VNone)].

(** [[x.strip() for x in parts if x.strip()]] *)
Definition stripped_nonempty (parts : list pystr) : list pystr :=
  map Str.strip (filter (fun x => negb (Str.is_empty (Str.strip x))) parts).

(** The bullet character U+2022 of the list branch. *)
Definition bullet : char := 8226%N.

(** The pattern of the numbered list: one or more digits and a dot. *)
Definition number_marker : regex := [Plus digit; Lit "."].

(** The pattern of the footnote branch: a bracketed group of one or
    more digits, then blanks, then a group with the rest of the line. *)
Definition footnote_pattern : regex :=
  [Lit "["; GroupOpen; Plus digit; GroupClose; Lit "]"; Star space;
   GroupOpen; Star dot; GroupClose].

Definition is_tag (block_type : pystr) (tag : string) : bool :=
  Str.eqb block_type (py tag).

(** The body of the loop over [blocks], on the state
    [(content, footnote_counter)]; a [continue] and the fall through of
    an unknown tag leave the state as it is. *)
Definition block_step (st : list node * Z) (block : pystr)
  : result (list node * Z) :=
  let '(content, footnote_counter) := st in
  if negb (Str.contains (py "::") block) then
    Ok (content ++ [container "paragraph" (parse_inline_formatting block)],
        footnote_counter)
  else
    '(block_type, block_content) <- Str.unpack2 (Str.split1 (py "::") block) ;;
    let block_type := Str.lower (Str.strip block_type) in
    let block_content := Str.strip block_content in
    if Str.is_empty block_content then Ok st
    else if is_tag block_type "title" then
      Ok (content ++ [heading 1 block_content], footnote_counter)
    else if is_tag block_type "subtitle" then
      Ok (content ++ [heading 2 block_content], footnote_counter)
    else if existsb (is_tag block_type) ["h1"; "h2"; "h3"; "h4"; "h5"; "h6"] then
      c <- Str.index block_type 1 ;;
      level <- Str.int [c] ;;
      Ok (content ++ [heading level block_content], footnote_counter)
    else if is_tag block_type "text" then
      Ok (content ++ [container "paragraph" (parse_inline_formatting block_content)],
          footnote_counter)
    else if is_tag block_type "quote" then
      Ok (content ++ [container "blockquote" [plain_paragraph block_content]],
          footnote_counter)
    else if is_tag block_type "pullquote" then
      Ok (content ++ [container_with "pullquote"
                        [("align", VNone); ("color", VNone)]
                        [plain_paragraph block_content]],
          footnote_counter)
    else if is_tag block_type "list" then
      let items := stripped_nonempty (Str.split bullet block_content) in
      Ok (content ++ [container "bullet_list" (list_items items)], footnote_counter)
    else if is_tag block_type "numberlist" then
      let items := tl (Re.split number_marker block_content) in
      let items := stripped_nonempty items in
      Ok (content ++ [container_with "ordered_list"
                        [("start", VInt 1); ("order", VInt 1)]
                        (list_items items)],
          footnote_counter)
    else if is_tag block_type "code" then
      let parts := Str.split1 (py "|") block_content in
      let '(language, code) :=
        match parts with
        | [p0; p1] =>
            ((if Str.is_empty (Str.strip p0) then VNone else VStr (Str.strip p0)),
             Str.strip p1)
        | _ => (VNone, block_content)
        end in
      Ok (content ++ [container_with "code_block" [("language", language)]
                        [text_node code]],
          footnote_counter)
    else if is_tag block_type "rule" then
      Ok (content ++ [leaf "horizontal_rule"], footnote_counter)
    else if is_tag block_type "button" then
      '(text, url) <-
        (if Str.contains (py "->") block_content then
           '(text, url) <- Str.unpack2 (Str.split1 (py "->") block_content) ;;
           Ok (Str.strip text, Str.strip url)
         else Ok (block_content, py "#")) ;;
      Ok (content ++ [button url text], footnote_counter)
    else if is_tag block_type "subscribe" then
      Ok (content ++ [button (py "%%checkout_url%%") block_content], footnote_counter)
    else if is_tag block_type "share" then
      Ok (content ++ [button (py "%%share_url%%") block_content], footnote_counter)
    else if is_tag block_type "comment" then
      Ok (content ++ [button (py "%%half_magic_comments_url%%") block_content],
          footnote_counter)
    else if is_tag block_type "subscribewidget" then
      '(button_text, description) <-
        (if Str.contains (py ">>") block_content then
           '(button_text, description) <-
             Str.unpack2 (Str.split1 (py ">>") block_content) ;;
           Ok (Str.strip button_text, Str.strip description)
         else Ok (block_content, py "Subscribe for more content!")) ;;
      Ok (content ++ [container_with "subscribeWidget"
                        [("url", VStr (py "%%checkout_url%%"));
                         ("text", VStr button_text);
                         ("language", VStr (py "en"))]
                        [container "ctaCaption" [text_node description]]],
          footnote_counter)
    else if is_tag block_type "sharewidget" then
      '(button_text, description) <-
        (if Str.contains (py ">>") block_content then
           '(button_text, description) <-
             Str.unpack2 (Str.split1 (py ">>") block_content) ;;
           Ok (Str.strip button_text, Str.strip description)
         else Ok (block_content, py "Share this post!")) ;;
      Ok (content ++ [container_with "captionedShareButton"
                        [("url", VStr (py "%%share_url%%"));
                         ("text", VStr button_text)]
                        [container "ctaCaption" [text_node description]]],
          footnote_counter)
    else if is_tag block_type "latex" then
      Ok (content ++ [leaf_with "latex_block"
                        [("persistentExpression", VStr block_content);
                         ("id", VStr (py "EQUATION_" ++ Str.of_int footnote_counter))]],
          (footnote_counter + 1)%Z)
    else if is_tag block_type "footnote" then
      match rmatch_at_start footnote_pattern block_content with
      | Some m =>
          num <- Str.int (group block_content m 1) ;;
          let text := group block_content m 2 in
          Ok (content ++ [container_with "footnote" [("number", VInt num)]
                            [plain_paragraph text]],
              footnote_counter)
      | None => Ok st
      end
    else if is_tag block_type "break" then
      Ok (content ++ [leaf "paragraph"], footnote_counter)
    else Ok st.

(** The [for] loop over [blocks]; an exception ends it. *)
Fixpoint run_blocks (blocks : list pystr) (st : list node * Z)
  : result (list node * Z) :=
  match blocks with
  | [] => Ok st
  | block :: blocks' => st' <- block_step st block ;; run_blocks blocks' st'
  end.

(** [blocks], after the replacement of the semicolons. *)
Definition split_blocks (markup_text : pystr) : list pystr :=
  let markup_text := Str.replace (ch ";") (ch ",") markup_text in
  stripped_nonempty (Str.split (ch "|") markup_text).

Definition parse_markup_to_json (markup_text : pystr) : result node :=
  let blocks := split_blocks markup_text in
  '(content, _) <- run_blocks blocks ([], 1%Z) ;;
  Ok (container "doc" content).

End Drafts.

(** ** examples/python/draft_create.py

    The second copy of the two functions, translated from its own text. *)

Module DraftCreate.

Import Re.

(** The five [patterns] of [parse_inline_formatting]. *)
Definition patterns : list (regex * string) :=
  [ ([Lit "*"; Lit "*"; GroupOpen; LazyStar dot; GroupClose; Lit "*"; Lit "*"],
     "strong");
    ([Lit "*"; GroupOpen; LazyStar dot; GroupClose; Lit "*"], "em");
    ([Lit "~"; Lit "~"; GroupOpen; LazyStar dot; GroupClose; Lit "~"; Lit "~"],
     "strikethrough");
    ([Lit "`"; GroupOpen; LazyStar dot; GroupClose; Lit "`"], "code");
    ([Lit "["; GroupOpen; Plus (no "]"); GroupClose; Lit "]";
      Lit "("; GroupOpen; Plus (no ")"); GroupClose; Lit ")"], "link") ].

(** One entry of [matches]: start, end, format type, match object. *)
Definition entry : Type := nat * nat * string * rmatch.

Definition entry_start (x : entry) : nat := fst (fst (fst x)).

(** [matches] before sorting. *)
Definition find_matches (text : pystr) : list entry :=
  flat_map
    (fun '(pattern, format_type) =>
       map (fun m => (m_start m, m_end m, format_type, m)) (finditer pattern text))
    patterns.

(** [matches.sort(key=lambda x: x[0])]: the sort is stable. *)
Fixpoint insert_sorted (x : entry) (l : list entry) : list entry :=
  match l with
  | [] => [x]
  | y :: l' =>
      if Nat.ltb (entry_start x) (entry_start y) then x :: l
      else y :: insert_sorted x l'
  end.

Definition sort_matches (l : list entry) : list entry :=
  fold_left (fun acc x => insert_sorted x acc) l [].

(** The mark dictionary of a link. *)
Definition link_mark (link_url : pystr) : mark :=
  {| mark_type := "link";
     mark_attrs := Some [ ("href", VStr link_url);
                          ("target", VStr (py "_blank"));
                          ("rel", VStr (py "noopener noreferrer nofollow"));
                          ("class", VNone) ] |}.

(** The body of the loop over the sorted matches, on the state
    [(elements, current_pos)]. *)
Definition match_step (text : pystr) (st : list node * nat) (x : entry)
  : list node * nat :=
  let '(elements, current_pos) := st in
  let '(start, end_, format_type, m) := x in
  let elements :=
    if Nat.ltb current_pos start then
      let plain_text := Str.slice text current_pos start in
      if negb (Str.is_empty plain_text) then elements ++ [text_node plain_text]
      else elements
    else elements in
  let elements :=
    if String.eqb format_type "link" then
      let link_text := group text m 1 in
      let link_url := group text m 2 in
      elements ++ [marked_text link_text [link_mark link_url]]
    else
      let formatted_text := group text m 1 in
      elements ++ [marked_text formatted_text
                     [{| mark_type := format_type; mark_attrs := None |}]] in
  (elements, end_).

(** [elem.get('text', '').strip() != ''] *)
Definition has_text (elem : node) : bool :=
  negb (Str.is_empty (Str.strip (get_text elem))).

Definition parse_inline_formatting (text : pystr) : list node :=
  let matches := sort_matches (find_matches text) in
  let '(elements, current_pos) := fold_left (match_step text) matches ([], 0) in
  let elements :=
    if Nat.ltb current_pos (List.length text) then
      let remaining_text := Str.slice_from text current_pos in
      if negb (Str.is_empty remaining_text) then elements ++ [text_node remaining_text]
      else elements
    else elements in
  let elements :=
    match elements with
    | [] => [text_node text]
    | _ => elements
    end in
  let elements := filter has_text elements in
  match elements with
  | [] => [text_node text]
  | _ => elements
  end.

(** [{"type": "paragraph", "content": [{"type": "text", "text": t}]}] *)
Definition plain_paragraph (t : pystr) : node :=
  container "paragraph" [text_node t].

(** [{"type": "heading", "attrs": {"level": level}, "content": [...]}] *)
Definition heading (level : Z) (block_content : pystr) : node :=
  container_with "heading" [("level", VInt level)] [text_node block_content].

(** The list items built from [items] in the list branches. *)
Definition list_items (items : list pystr) : list node :=
  map (fun item =>
         container "list_item"
           [container "paragraph" (parse_inline_formatting item)])
      items.

(** [{"type": "button", "attrs": {"url": ..., "text": ..., "action": None,
    "class": None}}] *)
Definition button (url text : pystr) : node :=
  leaf_with "button"
    [("url", VStr url); ("text", VStr text); ("action", VNone); ("class", VNone)].

(** [[x.strip() for x in parts if x.strip()]] *)
Definition stripped_nonempty (parts : list pystr) : list pystr :=
  map Str.strip (filter (fun x => negb (Str.is_empty (Str.strip x))) parts).

(** The bullet character U+2022 of the list branch. *)
Definition bullet : char := 8226%N.

(** The pattern of the numbered list: one or more digits and a dot. *)
Definition number_marker : regex := [Plus digit; Lit "."].

(** The pattern of the footnote branch: a bracketed group of one or
    more digits, then blanks, then a group with the rest of the line. *)
Definition footnote_pattern : regex :=
  [Lit "["; GroupOpen; Plus digit; GroupClose; Lit "]"; Star space;
   GroupOpen; Star dot; GroupClose].

Definition is_tag (block_type : pystr) (tag : string) : bool :=
  Str.eqb block_type (py tag).

(** The body of the loop over [blocks], on the state
    [(content, footnote_counter)]; a [continue] and the fall through of
    an unknown tag leave the state as it is. *)
Definition block_step (st : list node * Z) (block : pystr)
  : result (list node * Z) :=
  let '(content, footnote_counter) := st in
  if negb (Str.contains (py "::") block) then
    Ok (content ++ [container "paragraph" (parse_inline_formatting block)],
        footnote_counter)
  else
    '(block_type, block_content) <- Str.unpack2 (Str.split1 (py "::") block) ;;
    let block_type := Str.lower (Str.strip block_type) in
    let block_content := Str.strip block_content in
    if Str.is_empty block_content then Ok st
    else if is_tag block_type "title" then
      Ok (content ++ [heading 1 block_content], footnote_counter)
    else if is_tag block_type "subtitle" then
      Ok (content ++ [heading 2 block_content], footnote_counter)
    else if existsb (is_tag block_type) ["h1"; "h2"; "h3"; "h4"; "h5"; "h6"] then
      c <- Str.index block_type 1 ;;
      level <- Str.int [c] ;;
      Ok (content ++ [heading level block_content], footnote_counter)
    else if is_tag block_type "text" then
      Ok (content ++ [container "paragraph" (parse_inline_formatting block_content)],
          footnote_counter)
    else if is_tag block_type "quote" then
      Ok (content ++ [container "blockquote" [plain_paragraph block_content]],
          footnote_counter)
    else if is_tag block_type "pullquote" then
      Ok (content ++ [container_with "pullquote"
                        [("align", VNone); ("color", VNone)]
                        [plain_paragraph block_content]],
          footnote_counter)
    else if is_tag block_type "list" then
      let items := stripped_nonempty (Str.split bullet block_content) in
      Ok (content ++ [container "bullet_list" (list_items items)], footnote_counter)
    else if is_tag block_type "numberlist" then
      let items := tl (Re.split number_marker block_content) in
      let items := stripped_nonempty items in
      Ok (content ++ [container_with "ordered_list"
                        [("start", VInt 1); ("order", VInt 1)]
                        (list_items items)],
          footnote_counter)
    else if is_tag block_type "code" then
      let parts := Str.split1 (py "|") block_content in
      let '(language, code) :=
        match parts with
        | [p0; p1] =>
            ((if Str.is_empty (Str.strip p0) then VNone else VStr (Str.strip p0)),
             Str.strip p1)
        | _ => (VNone, block_content)
        end in
      Ok (content ++ [container_with "code_block" [("language", language)]
                        [text_node code]],
          footnote_counter)
    else if is_tag block_type "rule" then
      Ok (content ++ [leaf "horizontal_rule"], footnote_counter)
    else if is_tag block_type "button" then
      '(text, url) <-
        (if Str.contains (py "->") block_content then
           '(text, url) <- Str.unpack2 (Str.split1 (py "->") block_content) ;;
           Ok (Str.strip text, Str.strip url)
         else Ok (block_content, py "#")) ;;
      Ok (content ++ [button url text], footnote_counter)
    else if is_tag block_type "subscribe" then
      Ok (content ++ [button (py "%%checkout_url%%") block_content], footnote_counter)
    else if is_tag block_type "share" then
      Ok (content ++ [button (py "%%share_url%%") block_content], footnote_counter)
    else if is_tag block_type "comment" then
      Ok (content ++ [button (py "%%half_magic_comments_url%%") block_content],
          footnote_counter)
    else if is_tag block_type "subscribewidget" then
      '(button_text, description) <-
        (if Str.contains (py ">>") block_content then
           '(button_text, description) <-
             Str.unpack2 (Str.split1 (py ">>") block_content) ;;
           Ok (Str.strip button_text, Str.strip description)
         else Ok (block_content, py "Subscribe for more content!")) ;;
      Ok (content ++ [container_with "subscribeWidget"
                        [("url", VStr (py "%%checkout_url%%"));
                         ("text", VStr button_text);
                         ("language", VStr (py "en"))]
                        [container "ctaCaption" [text_node description]]],
          footnote_counter)
    else if is_tag block_type "sharewidget" then
      '(button_text, description) <-
        (if Str.contains (py ">>") block_content then
           '(button_text, description) <-
             Str.unpack2 (Str.split1 (py ">>") block_content) ;;
           Ok (Str.strip button_text, Str.strip description)
         else Ok (block_content, py "Share this post!")) ;;
      Ok (content ++ [container_with "captionedShareButton"
                        [("url", VStr (py "%%share_url%%"));
                         ("text", VStr button_text)]
                        [container "ctaCaption" [text_node description]]],
          footnote_counter)
    else if is_tag block_type "latex" then
      Ok (content ++ [leaf_with "latex_block"
                        [("persistentExpression", VStr block_content);
                         ("id", VStr (py "EQUATION_" ++ Str.of_int footnote_counter))]],
          (footnote_counter + 1)%Z)
    else if is_tag block_type "footnote" then
      match rmatch_at_start footnote_pattern block_content with
      | Some m =>
          num <- Str.int (group block_content m 1) ;;
          let text := group block_content m 2 in
          Ok (content ++ [container_with "footnote" [("number", VInt num)]
                            [plain_paragraph text]],
              footnote_counter)
      | None => Ok st
      end
    else if is_tag block_type "break" then
      Ok (content ++ [leaf "paragraph"], footnote_counter)
    else Ok st.

(** The [for] loop over [blocks]; an exception ends it. *)
Fixpoint run_blocks (blocks : list pystr) (st : list node * Z)
  : result (list node * Z) :=
  match blocks with
  | [] => Ok st
  | block :: blocks' => st' <- block_step st block ;; run_blocks blocks' st'
  end.

(** [blocks], after the replacement of the semicolons. *)
Definition split_blocks (markup_text : pystr) : list pystr :=
  let markup_text := Str.replace (ch ";") (ch ",") markup_text in
  stripped_nonempty (Str.split (ch "|") markup_text).

Definition parse_markup_to_json (markup_text : pystr) : result node :=
  let blocks := split_blocks markup_text in
  '(content, _) <- run_blocks blocks ([], 1%Z) ;;
  Ok (container "doc" content).

End DraftCreate.

(** ** Notions the properties are stated with *)

(** The node types a block can produce at the top level of the document. *)
Definition block_types : list string :=
  ["paragraph"; "heading"; "blockquote"; "pullquote"; "bullet_list";
   "ordered_list"; "code_block"; "horizontal_rule"; "button";
   "subscribeWidget"; "captionedShareButton"; "latex_block"; "footnote"].

(** A root node: type ["doc"], nothing but a content list, every child of
    a block type. *)
Definition well_formed_document (n : node) : Prop :=
  type n = "doc" /\ attrs n = None /\ text n = None /\ marks n = None /\
  exists children,
    content n = Some children /\
    Forall (fun c => In (type c) block_types) children.

(** [u] occurs in [s] as a contiguous piece. *)
Definition substring (u s : pystr) : Prop :=
  exists pre post, s = pre ++ u ++ post.

(** [u] is [s] with some characters removed: same order, nothing twice. *)
Inductive Subseq : pystr -> pystr -> Prop :=
| Subseq_nil : Subseq [] []
| Subseq_skip u s c : Subseq u s -> Subseq u (c :: s)
| Subseq_keep u s c : Subseq u s -> Subseq (c :: u) (c :: s).

(** Length of the run of [p]-characters [s] starts with, and of the
    longest such run anywhere in [s]. *)
Fixpoint prefix_run (p : char -> bool) (s : pystr) : nat :=
  match s with
  | c :: s' => if p c then S (prefix_run p s') else 0
  | [] => 0
  end.

Fixpoint longest_run (p : char -> bool) (s : pystr) : nat :=
  match s with
  | [] => 0
  | _ :: s' => Nat.max (prefix_run p s) (longest_run p s')
  end.

(** A bracketed number at the start of a footnote body: an opening
    bracket, one or more decimal digits, a closing bracket. *)
Definition bracketed_number (body : pystr) : Prop :=
  exists ds rest,
    body = ch "[" :: ds ++ ch "]" :: rest /\
    ds <> [] /\ forallb Str.isdecimal ds = true.

(** The same, decided. *)
Definition bracketed_numberb (body : pystr) : bool :=
  match body with
  | c :: t =>
      (c =? ch "[")%N
      && Nat.ltb 0 (prefix_run Str.isdecimal t)
      && Str.startswith [ch "]"] (skipn (prefix_run Str.isdecimal t) t)
  | [] => false
  end.

(** A block with a type tag: the tag, lowered and trimmed, and the body,
    trimmed, as the compiler reads them. *)
Definition tagged (block : pystr) : option (pystr * pystr) :=
  match Str.partition (py "::") block with
  | Some (t, c) => Some (Str.lower (Str.strip t), Str.strip c)
  | None => None
  end.

(** A footnote block whose bracketed number has more digits than [int]
    takes. *)
Definition oversized_footnote (block : pystr) : bool :=
  match tagged block with
  | Some (tag, body) =>
      Str.eqb tag (py "footnote") && bracketed_numberb body
      && Nat.ltb Str.int_max_str_digits (prefix_run Str.isdecimal (tl body))
  | None => false
  end.

(** Some block of the markup is such a footnote. *)
Definition has_oversized_footnote (markup_text : pystr) : bool :=
  existsb oversized_footnote (Drafts.split_blocks markup_text).

(** A block the LaTeX branch processes: tag [latex] and a body. *)
Definition is_latex (block : pystr) : bool :=
  match tagged block with
  | Some (tag, body) => Str.eqb tag (py "latex") && negb (Str.is_empty body)
  | None => false
  end.

(** The number of LaTeX blocks of a markup. *)
Definition latex_block_count (markup_text : pystr) : nat :=
  List.length (filter is_latex (Drafts.split_blocks markup_text)).

(** The ["id"] attributes of the [latex_block] nodes of a content list, in
    order. *)
Definition latex_ids (content : list node) : list (option value) :=
  flat_map
    (fun n =>
       if String.eqb (type n) "latex_block" then
         [match attrs n with Some a => lookup "id" a | None => None end]
       else [])
    content.

(** The identifier the [k]-th LaTeX block is to get. *)
Definition equation_id (k : nat) : option value :=
  Some (VStr (py "EQUATION_" ++ Str.of_int (Z.of_nat k))).

(** The sorted matches of the formatter follow one another without
    overlap from offset [pos] on. *)
Fixpoint no_overlap (pos : nat) (ms : list Drafts.entry) : bool :=
  match ms with
  | [] => true
  | (start, end_, _, _) :: ms' => Nat.leb pos start && no_overlap end_ ms'
  end.

(** The gaps between the matches and the captured inner texts, in order,
    from offset [pos] on. *)
Fixpoint gaps_and_captures (text : pystr) (pos : nat) (ms : list Drafts.entry)
  : list pystr :=
  match ms with
  | [] => [Str.slice_from text pos]
  | (start, end_, _, m) :: ms' =>
      Str.slice text pos start :: Re.group text m 1
        :: gaps_and_captures text end_ ms'
  end.

(** The gaps between the matches and the matched spans, in order, from
    offset [pos] on. *)
Fixpoint gaps_and_spans (text : pystr) (pos : nat) (ms : list Drafts.entry)
  : list pystr :=
  match ms with
  | [] => [Str.slice_from text pos]
  | (start, end_, _, _) :: ms' =>
      Str.slice text pos start :: Str.slice text start end_
        :: gaps_and_spans text end_ ms'
  end.

(** A captured text between the delimiters of its marker; a link has its
    target after the text. *)
Definition delimited (format_type : string) (inner target : pystr) : pystr :=
  if String.eqb format_type "strong" then py "**" ++ inner ++ py "**"
  else if String.eqb format_type "em" then py "*" ++ inner ++ py "*"
  else if String.eqb format_type "strikethrough" then py "~~" ++ inner ++ py "~~"
  else if String.eqb format_type "code" then py "`" ++ inner ++ py "`"
  else py "[" ++ inner ++ py "](" ++ target ++ py ")".

(** The span of an entry of [matches] is its first group between the
    delimiters of its format type. *)
Definition span_delimited (text : pystr) (x : Drafts.entry) : Prop :=
  let '(start, end_, format_type, m) := x in
  Str.slice text start end_
  = delimited format_type (Re.group text m 1) (Re.group text m 2).

(** A run text that is neither empty nor blank. *)
Definition nonblank (t : pystr) : bool := negb (Str.is_empty (Str.strip t)).

(** The run texts the loop and the filter leave, on the matches as the
    code sorts them. *)
Definition expected_run_texts (text : pystr) : list pystr :=
  let ms := Drafts.sort_matches (Drafts.find_matches text) in
  match filter nonblank (gaps_and_captures text 0 ms) with
  | [] => [text]
  | l => l
  end.

(** ** Notions used in the proofs *)

Module Aux.
Import Re Drafts.

(** Group boundaries are crossed from left to right between the start
    and the end of a match. *)
Fixpoint chain (lo : nat) (l : list nat) (hi : nat) : Prop :=
  match l with
  | [] => lo <= hi
  | c :: l' => lo <= c /\ chain c l' hi
  end.

(** What a continuation promises: it extends the groups it was given by
    an ordered run of positions between where it starts and where the
    match ends. *)
Definition extends (caps : list nat) (k : pystr -> nat -> outcome) : Prop :=
  forall t pos e caps',
    k t pos = Some (e, caps') ->
    exists ext, caps' = caps ++ ext /\ chain pos ext e.

(** The part of the footnote pattern after the digits cannot start on a
    digit, and what follows the closing bracket always matches. *)
Definition after_digits : regex :=
  [GroupClose; Lit "]"; Star space; GroupOpen; Star dot; GroupClose].

Definition after_bracket : regex := [Star space; GroupOpen; Star dot; GroupClose].

(** What one block adds to an empty content list. *)
Definition block_nodes (counter : Z) (block : pystr) : result (list node * Z) :=
  block_step ([], counter) block.

Definition append_to (content : list node) (r : result (list node * Z))
  : result (list node * Z) :=
  match r with
  | Ok (nodes, counter) => Ok (content ++ nodes, counter)
  | Raise e => Raise e
  end.

(** The block is processed without an exception and what it adds
    satisfies [Q]. *)
Definition yields (Q : list node -> Z -> Prop) (r : result (list node * Z)) : Prop :=
  match r with
  | Ok (nodes, counter) => Q nodes counter
  | Raise _ => False
  end.

(** If the block is processed without an exception, what it adds
    satisfies [Q]. *)
Definition when_ok (Q : list node -> Z -> Prop) (r : result (list node * Z)) : Prop :=
  match r with
  | Ok (nodes, counter) => Q nodes counter
  | Raise _ => True
  end.

(** The identifier made from the counter. *)
Definition equation_of (counter : Z) : option value :=
  Some (VStr (py "EQUATION_" ++ Str.of_int counter)).

Definition latex_effect (counter : Z) (block : pystr) (nodes : list node)
           (counter' : Z) : Prop :=
  if is_latex block
  then latex_ids nodes = [equation_of counter] /\ counter' = (counter + 1)%Z
  else latex_ids nodes = [] /\ counter' = counter.

(** A code block without a language. *)
Definition language_none (n : node) : Prop :=
  type n = "code_block" -> attrs n = Some [("language", VNone)].

(** The texts of the runs that pass the filter of the formatter. *)
Definition kept_texts (elements : list node) : list pystr :=
  filter nonblank (map get_text elements).

(** An entry of [matches] carries the offsets of its match object. *)
Definition entry_ok (x : entry) : Prop :=
  let '(start, end_, _, m) := x in chain start (m_caps m) end_.

(** The text [w] a pattern matches from offset [pos], item by item, and
    the group boundaries [ext] crossed on the way. *)
Fixpoint matches_at (r : regex) (w : pystr) (pos : nat) (ext : list nat) : Prop :=
  match r with
  | [] => w = [] /\ ext = []
  | Chr c :: r' => exists w', w = c :: w' /\ matches_at r' w' (S pos) ext
  | Cls p :: r' =>
      exists x w', w = x :: w' /\ p x = true /\ matches_at r' w' (S pos) ext
  | Star p :: r' | LazyStar p :: r' =>
      exists u w',
        w = u ++ w' /\ forallb p u = true /\
        matches_at r' w' (pos + List.length u) ext
  | Plus p :: r' =>
      exists u w',
        w = u ++ w' /\ u <> [] /\ forallb p u = true /\
        matches_at r' w' (pos + List.length u) ext
  | GroupOpen :: r' | GroupClose :: r' =>
      exists ext', ext = pos :: ext' /\ matches_at r' w pos ext'
  end.

(** A continuation that succeeds has consumed a text of shape [M]. *)
Definition sound (caps : list nat) (M : pystr -> nat -> list nat -> Prop)
           (k : pystr -> nat -> outcome) : Prop :=
  forall t pos e caps',
    k t pos = Some (e, caps') ->
    exists w rest ext,
      t = w ++ rest /\ e = pos + List.length w /\ caps' = caps ++ ext /\
      M w pos ext.

(** A run of [p]-characters, then a text of shape [M]. *)
Definition after_run (p : char -> bool) (M : pystr -> nat -> list nat -> Prop)
           (w : pystr) (pos : nat) (ext : list nat) : Prop :=
  exists u w',
    w = u ++ w' /\ forallb p u = true /\ M w' (pos + List.length u) ext.

(** A match of [finditer] on [text]: the text from its start on begins
    with a text of the shape of the pattern. *)
Definition match_shape (r : regex) (text : pystr) (m : rmatch) : Prop :=
  exists w rest,
    skipn (m_start m) text = w ++ rest /\
    m_end m = m_start m + List.length w /\
    matches_at r w (m_start m) (m_caps m).

End Aux.

Import Aux.

From Stdlib Require DecimalPos DecimalZ FinFun.

(** ** Further notions *)

(** The characters a marker of the formatter can begin with. *)
Definition marker_free (text : pystr) : bool :=
  forallb (fun c => negb (existsb (N.eqb c) [ch "*"; ch "~"; ch "`"; ch "["])) text.

(** A bare mark of one of the four styles, or a link mark with its four
    attributes. *)
Definition style_mark (m : mark) : Prop :=
  (In (mark_type m) ["strong"; "em"; "strikethrough"; "code"] /\ mark_attrs m = None) \/
  (mark_type m = "link" /\
   exists href,
     mark_attrs m = Some [ ("href", VStr href);
                           ("target", VStr (py "_blank"));
                           ("rel", VStr (py "noopener noreferrer nofollow"));
                           ("class", VNone) ]).

(** A run: a text node with its text and no mark or one mark. *)
Definition text_run (n : node) : Prop :=
  type n = "text" /\ attrs n = None /\ content n = None /\
  (exists t, text n = Some t) /\
  (marks n = None \/ exists m, marks n = Some [m] /\ style_mark m).

(** The attribute keys of a node, in the order of its dictionary. *)
Definition attr_keys (n : node) : option (list string) :=
  option_map (map fst) (attrs n).

(** The node types of the blocks with the attribute keys each is built
    with ([None]: no attribute dictionary). *)
Definition block_schema : list (string * option (list string)) :=
  [ ("paragraph", None);
    ("heading", Some ["level"]);
    ("blockquote", None);
    ("pullquote", Some ["align"; "color"]);
    ("bullet_list", None);
    ("ordered_list", Some ["start"; "order"]);
    ("code_block", Some ["language"]);
    ("horizontal_rule", None);
    ("button", Some ["url"; "text"; "action"; "class"]);
    ("subscribeWidget", Some ["url"; "text"; "language"]);
    ("captionedShareButton", Some ["url"; "text"]);
    ("latex_block", Some ["persistentExpression"; "id"]);
    ("footnote", Some ["number"]) ].

(** A node of the schema; a heading has a level from 1 to 6. *)
Definition follows_schema (n : node) : Prop :=
  In (type n, attr_keys n) block_schema /\
  (type n = "heading" ->
   exists level, attrs n = Some [("level", VInt level)] /\ (1 <= level <= 6)%Z).

(** The type tags the dispatch knows. *)
Definition known_tags : list string :=
  [ "title"; "subtitle"; "h1"; "h2"; "h3"; "h4"; "h5"; "h6"; "text"; "quote";
    "pullquote"; "list"; "numberlist"; "code"; "rule"; "button"; "subscribe";
    "share"; "comment"; "subscribewidget"; "sharewidget"; "latex"; "footnote";
    "break" ].

(** A markup of blanks and pipes only. *)
Definition blank_markup (markup_text : pystr) : bool :=
  forallb (fun c => Str.isspace c || (c =? ch "|")%N) markup_text.

(** Two markups, one after the other with a pipe between. *)
Definition joined (a b : pystr) : pystr := a ++ ch "|" :: b.

(** The text up to the first line feed. *)
Definition first_line (s : pystr) : pystr := firstn (prefix_run Re.dot s) s.

(** One step of the loop of [int] over the digits. *)
Definition int_step (acc : Z) (c : char) : Z := (10 * acc + Str.digit_value c)%Z.


(** ** The callers of the compiler

    The functions that hand a compiled markup to the network code.  The
    network code is not modelled: it is a function on the state of the
    world (the output and the remote service) that returns or raises an
    exception of the class [Exception]. *)

(** What a call gives: a value, or an exception. *)
Inductive call (E A : Type) : Type :=
| Returns (a : A)
| Throws (e : E).

Arguments Returns {E A} a.
Arguments Throws {E A} e.

(** The dictionary [create_markup_draft_enhanced] returns. *)
Record report (draft_object : Type) := {
  draft : option draft_object;
  success : bool;
  message : pystr;
  content_blocks : nat
}.

Arguments draft {draft_object} r.
Arguments success {draft_object} r.
Arguments message {draft_object} r.
Arguments content_blocks {draft_object} r.

(** The callers of [src/d/drafts.py]. *)
Module DraftsApi.

Section Host.

Variables world draft_object error : Type.

(** [print]. *)
Variable print : pystr -> world -> world.

(** [str(e)] of the exception the compiler raises on a markup, and of an
    exception of the network code. *)
Variable exception_text : pystr -> exn -> pystr.
Variable error_text : error -> pystr.

(** [create_draft_with_retry_logic(title=..., subtitle=...,
    content_json=..., publication_url=..., user_credentials=...)], which
    returns a triple [(draft, success, message)]. *)
Variable create_draft_with_retry_logic :
  pystr -> pystr -> node -> option pystr -> option dict -> world ->
  call error (option draft_object * bool * pystr) * world.

(** The dictionary of the [except] branch. *)
Definition failure (e : pystr) : report draft_object :=
  {| draft := None;
     success := false;
     message := py "Error parsing markup or creating draft: " ++ e;
     content_blocks := 0 |}.

Definition create_markup_draft_enhanced
           (title markup_content subtitle : pystr)
           (publication_url : option pystr) (user_credentials : option dict)
           (w : world) : report draft_object * world :=
  match Drafts.parse_markup_to_json markup_content with
  | Raise e => (failure (exception_text markup_content e), w)
  | Ok content_json =>
      match content content_json with
      | None => (failure (py "'content'"), w)
      | Some blocks =>
          let w :=
            print (py "Parsed " ++ Str.of_int (Z.of_nat (List.length blocks))
                     ++ py " content blocks from markup") w in
          match create_draft_with_retry_logic
                  title subtitle content_json publication_url user_credentials w with
          | (Returns (d, s, m), w) =>
              ({| draft := d; success := s; message := m;
                  content_blocks := List.length blocks |}, w)
          | (Throws e, w) => (failure (error_text e), w)
          end
      end
  end.

(** [return result['draft']]. *)
Definition create_markup_draft
           (title markup_content subtitle : pystr)
           (publication_url : option pystr) (user_credentials : option dict)
           (w : world) : option draft_object * world :=
  let '(result, w) :=
    create_markup_draft_enhanced title markup_content subtitle
                                 publication_url user_credentials w in
  (draft result, w).

End Host.

End DraftsApi.

(** The caller of [examples/python/draft_create.py]. *)
Module DraftCreateApi.

Section Host.

Variables world draft_object error : Type.

(** [create_draft(title, subtitle, content_json=content_json)]. *)
Variable create_draft :
  pystr -> pystr -> node -> world -> call error (option draft_object) * world.

Definition create_markup_draft (title markup_content subtitle : pystr) (w : world)
  : call (exn + error) (option draft_object) * world :=
  match DraftCreate.parse_markup_to_json markup_content with
  | Raise e => (Throws (inl e), w)
  | Ok content_json =>
      match create_draft title subtitle content_json w with
      | (Returns d, w) => (Returns d, w)
      | (Throws e, w) => (Throws (inr e), w)
      end
  end.

End Host.

End DraftCreateApi.

(** The number of pipes of a markup. *)
Definition pipes (markup_text : pystr) : nat :=
  List.length (filter (N.eqb (ch "|")) markup_text).

From Stdlib Require Permutation Sorted.

(** ** Texts composed of plain text and formatted spans *)

(** A formatted span as a writer puts it down: an inner text in
    italics, struck through or as code, or a link with its label and its
    target. *)
Inductive span :=
| Italic (inner : pystr)
| Strike (inner : pystr)
| Code (inner : pystr)
| Link (label target : pystr).

(** A composed text: plain text first, then spans, each followed by
    plain text. *)
Definition composed : Type := pystr * list (span * pystr).

(** The characters of a span, delimiters included. *)
Definition written (s : span) : pystr :=
  match s with
  | Italic inner => py "*" ++ inner ++ py "*"
  | Strike inner => py "~~" ++ inner ++ py "~~"
  | Code inner => py "`" ++ inner ++ py "`"
  | Link label target => py "[" ++ label ++ py "](" ++ target ++ py ")"
  end.

(** The characters of the spans and of the plain texts after them. *)
Definition written_spans (rest : list (span * pystr)) : pystr :=
  flat_map (fun '(s, plain) => written s ++ plain) rest.

(** The characters of a composed text. *)
Definition written_text (c : composed) : pystr :=
  fst c ++ written_spans (snd c).

(** The text of a span that is to be shown. *)
Definition shown (s : span) : pystr :=
  match s with
  | Italic inner | Strike inner | Code inner => inner
  | Link label _ => label
  end.

(** The mark a span is to get. *)
Definition span_mark (s : span) : mark :=
  match s with
  | Italic _ => {| mark_type := "em"; mark_attrs := None |}
  | Strike _ => {| mark_type := "strikethrough"; mark_attrs := None |}
  | Code _ => {| mark_type := "code"; mark_attrs := None |}
  | Link _ target =>
      {| mark_type := "link";
         mark_attrs := Some [ ("href", VStr target);
                              ("target", VStr (py "_blank"));
                              ("rel", VStr (py "noopener noreferrer nofollow"));
                              ("class", VNone) ] |}
  end.

(** A text without the character [x]. *)
Definition without (x : char) (t : pystr) : bool :=
  forallb (fun c => negb (c =? x)%N) t.

(** A span whose delimiters are the only markers in it: its texts are
    not empty and hold no marker character; an inner text holds no line
    feed, a label no closing bracket and a target no closing
    parenthesis. *)
Definition span_ok (s : span) : bool :=
  match s with
  | Italic inner | Strike inner | Code inner =>
      negb (Str.is_empty inner) && marker_free inner && without 10%N inner
  | Link label target =>
      negb (Str.is_empty label) && marker_free label && without (ch "]") label
      && negb (Str.is_empty target) && marker_free target
      && without (ch ")") target
  end.

Definition is_italic (s : span) : bool :=
  match s with
  | Italic _ => true
  | _ => false
  end.

(** No span in italics follows another one at once: two asterisks side
    by side would be the delimiter of a bold span. *)
Fixpoint italics_apart (rest : list (span * pystr)) : bool :=
  match rest with
  | (s, plain) :: rest' =>
      match rest' with
      | (s', _) :: _ => negb (is_italic s && is_italic s' && Str.is_empty plain)
      | [] => true
      end && italics_apart rest'
  | [] => true
  end.

(** A composed text whose markers are the delimiters of its spans, and
    where no two delimiters make up a third. *)
Definition well_composed (c : composed) : bool :=
  marker_free (fst c)
  && forallb (fun '(s, plain) => span_ok s && marker_free plain) (snd c)
  && italics_apart (snd c).

(** The run of a plain text: none when it is empty. *)
Definition plain_run (plain : pystr) : list node :=
  if Str.is_empty plain then [] else [text_node plain].

(** The run of a span: its shown text under its mark. *)
Definition span_run (s : span) : node := marked_text (shown s) [span_mark s].

(** The parts of a composed text, in order. *)
Definition parts (c : composed) : list node :=
  plain_run (fst c)
    ++ flat_map (fun '(s, plain) => span_run s :: plain_run plain) (snd c).

(** The runs a composed text is to give: its parts without those whose
    text is blank, or the whole text as one plain run when none is
    left. *)
Definition expected_runs (c : composed) : list node :=
  match filter (fun part => nonblank (get_text part)) (parts c) with
  | [] => [text_node (written_text c)]
  | kept => kept
  end.

(** What the claim takes the run texts to concatenate to: the text
    without the delimiters of its spans. *)
Definition without_delimiters (c : composed) : pystr :=
  fst c ++ flat_map (fun '(s, plain) => shown s ++ plain) (snd c).

(** ** The matches of a composed text *)

(** The format type of the pattern that finds a span. *)
Definition kind (s : span) : string :=
  match s with
  | Italic _ => "em"
  | Strike _ => "strikethrough"
  | Code _ => "code"
  | Link _ _ => "link"
  end.

(** The group boundaries of the match of a span written at offset
    [pos]. *)
Definition span_caps (s : span) (pos : nat) : list nat :=
  match s with
  | Italic inner | Code inner => [1 + pos; 1 + pos + List.length inner]
  | Strike inner => [2 + pos; 2 + pos + List.length inner]
  | Link label target =>
      [1 + pos; 1 + pos + List.length label;
       3 + pos + List.length label;
       3 + pos + List.length label + List.length target]
  end.

(** The entry of [matches] of a span written at offset [pos]. *)
Definition entry_of (s : span) (pos : nat) : Drafts.entry :=
  (pos, pos + List.length (written s), kind s,
   {| Re.m_start := pos;
      Re.m_end := pos + List.length (written s);
      Re.m_caps := span_caps s pos |}).

(** The entries of the spans of a composed text, from left to right;
    the first span is written at offset [pos]. *)
Fixpoint all_entries (pos : nat) (rest : list (span * pystr)) : list Drafts.entry :=
  match rest with
  | (s, plain) :: rest' =>
      entry_of s pos
        :: all_entries (pos + List.length (written s) + List.length plain) rest'
  | [] => []
  end.

(** The entries of one format type. *)
Definition of_kind (ty : string) (x : Drafts.entry) : bool :=
  String.eqb (snd (fst x)) ty.

Arguments Str.isdecimal : simpl never.
Arguments Str.isspace : simpl never.

(** * Facts on the [str] methods *)

Module StrFacts.
Import Str.

Lemma eqb_eq (s t : pystr) : eqb s t = true <-> s = t.
Proof.
  revert t; induction s as [|c s IH]; intros [|d t]; simpl;
    try (split; [discriminate | congruence]); try tauto.
  rewrite andb_true_iff, N.eqb_eq, IH.
  split; [intros [-> ->]; reflexivity | intros H; inversion H; auto].
Qed.

Lemma is_empty_true (s : pystr) : is_empty s = true <-> s = [].
Proof. destruct s; simpl; split; congruence. Qed.

Lemma startswith_app (p s : pystr) :
  startswith p s = true -> s = p ++ skipn (List.length p) s.
Proof.
  revert s; induction p as [|c p IH]; intros s H; simpl in *.
  - reflexivity.
  - destruct s as [|d s]; [discriminate|].
    apply andb_true_iff in H as [Hc Hp].
    apply N.eqb_eq in Hc; subst d.
    simpl; f_equal; auto.
Qed.

Lemma partition_app (sep s a b : pystr) :
  partition sep s = Some (a, b) -> s = a ++ sep ++ b.
Proof.
  revert a b; induction s as [|c s IH]; intros a b; simpl.
  - destruct (startswith sep []) eqn:E; [|discriminate].
    intros [= <- <-]. now apply startswith_app in E.
  - destruct (startswith sep (c :: s)) eqn:E.
    + intros [= <- <-]. now apply startswith_app in E.
    + destruct (partition sep s) as [[a' b']|]; [|discriminate].
      intros [= <- <-]. simpl. f_equal. now apply IH.
Qed.

Lemma contains_partition (sep s : pystr) :
  contains sep s = true -> exists a b, partition sep s = Some (a, b).
Proof.
  induction s as [|c s IH]; simpl; intros H.
  - rewrite orb_false_r in H. rewrite H. eauto.
  - destruct (startswith sep (c :: s)); [eauto|].
    simpl in H. destruct (IH H) as (a & b & ->). eauto.
Qed.

Lemma partition_contains (sep s : pystr) :
  contains sep s = false -> partition sep s = None.
Proof.
  induction s as [|c s IH]; simpl; intros H;
    apply orb_false_iff in H as [-> H]; [reflexivity|].
  now rewrite IH.
Qed.

(** After [sep in s], unpacking [s.split(sep, 1)] into two names works. *)
Lemma unpack2_split1 (sep s : pystr) :
  contains sep s = true ->
  exists a b, partition sep s = Some (a, b) /\ unpack2 (split1 sep s) = Ok (a, b).
Proof.
  intros H. destruct (contains_partition _ _ H) as (a & b & E).
  exists a, b. unfold split1. now rewrite E.
Qed.

Lemma lstrip_suffix (s : pystr) : exists pre, s = pre ++ lstrip s.
Proof.
  induction s as [|c s [pre IH]]; simpl.
  - now exists [].
  - destruct (isspace c); [exists (c :: pre); simpl; congruence | now exists []].
Qed.

Lemma rstrip_prefix (s : pystr) : exists post, s = rstrip s ++ post.
Proof.
  induction s as [|c s [post IH]]; cbn [rstrip].
  - now exists [].
  - destruct (rstrip s) as [|d r].
    + destruct (isspace c); [now exists (c :: s)|].
      exists post. cbn. now f_equal.
    + exists post. cbn. now f_equal.
Qed.

Lemma strip_substring (s : pystr) : substring (strip s) s.
Proof.
  unfold strip. destruct (lstrip_suffix s) as [pre E].
  destruct (rstrip_prefix (lstrip s)) as [post E'].
  exists pre, post. now rewrite <- E'.
Qed.

Lemma split_nonempty (sep : char) (s : pystr) : split sep s <> [].
Proof. destruct s as [|c s]; simpl; [|destruct (N.eqb c sep), (split sep s)]; discriminate. Qed.

Lemma split_head (sep : char) (s : pystr) :
  exists p ps post, split sep s = p :: ps /\ s = p ++ post.
Proof.
  induction s as [|c s (p & ps & post & E & Es)]; simpl.
  - now exists [], [], [].
  - destruct (N.eqb c sep).
    + now exists [], (split sep s), (c :: s).
    + rewrite E. exists (c :: p), ps, post. simpl. split; [reflexivity | now f_equal].
Qed.

(** The pieces of [s.split(sep)] are pieces of [s] without [sep] in them. *)
Lemma split_pieces (sep : char) (s p : pystr) :
  In p (split sep s) -> ~ In sep p /\ substring p s.
Proof.
  revert p; induction s as [|c s IH]; intros p; simpl.
  - intros [<-|[]]. split; [tauto | now exists [], []].
  - destruct (N.eqb_spec c sep) as [->|Hc].
    + intros [<-|H].
      * split; [tauto | now exists [], (sep :: s)].
      * destruct (IH _ H) as [Hn (pre & post & E)].
        split; [assumption|]. exists (sep :: pre), post. simpl; congruence.
    + destruct (split_head sep s) as (q & qs & post & E & Es).
      rewrite E in *. intros [<-|H].
      * destruct (IH q (or_introl eq_refl)) as [Hn _].
        split; [simpl; intros [?|?]; [congruence | tauto]|].
        exists [], post. simpl. congruence.
      * destruct (IH p (or_intror H)) as [Hn (pre & post' & E')].
        split; [assumption|]. exists (c :: pre), post'. simpl; congruence.
Qed.

Lemma substring_refl (s : pystr) : substring s s.
Proof. exists [], []. now rewrite app_nil_r. Qed.

Lemma substring_trans (u v s : pystr) :
  substring u v -> substring v s -> substring u s.
Proof.
  intros (p1 & q1 & ->) (p2 & q2 & ->).
  exists (p2 ++ p1), (q1 ++ q2). now rewrite <- !app_assoc.
Qed.

Lemma substring_In (u s : pystr) (c : char) :
  substring u s -> In c u -> In c s.
Proof. intros (pre & post & ->) H. rewrite !in_app_iff. tauto. Qed.

Lemma partition_substrings (sep s a b : pystr) :
  partition sep s = Some (a, b) -> substring a s /\ substring b s.
Proof.
  intros H. apply partition_app in H. subst s. split.
  - now exists [], (sep ++ b).
  - exists (a ++ sep), []. now rewrite app_nil_r, <- app_assoc.
Qed.

Lemma isdecimal_in_run (c : char) :
  isdecimal c = true -> exists z, In z decimal_zeros /\ (z <= c < z + 10)%N.
Proof.
  unfold isdecimal. rewrite existsb_exists. intros (z & Hz & Hr).
  exists z. split; [assumption|]. unfold in_run in Hr.
  apply andb_true_iff in Hr as [H1 H2].
  apply N.leb_le in H1. apply N.ltb_lt in H2. lia.
Qed.

(** No ASCII punctuation is a decimal digit. *)
Lemma isdecimal_not (c : char) :
  (c < 48)%N \/ (58 <= c < 1632)%N -> isdecimal c = false.
Proof.
  intros H. destruct (isdecimal c) eqn:E; [|reflexivity].
  apply isdecimal_in_run in E as (z & Hz & Hr). exfalso.
  unfold decimal_zeros in Hz. simpl in Hz.
  destruct Hz as [<-|Hz]; [lia|].
  repeat (destruct Hz as [<-|Hz]; [lia|]). contradiction.
Qed.
End StrFacts.

Module ReFacts.
Import Re.

Lemma prefix_run_firstn (p : char -> bool) (t : pystr) :
  forallb p (firstn (prefix_run p t) t) = true.
Proof.
  induction t as [|c t IH]; simpl; [reflexivity|].
  destruct (p c) eqn:E; simpl; [now rewrite E|reflexivity].
Qed.

Lemma prefix_run_app (p : char -> bool) (ds rest : pystr) (c : char) :
  forallb p ds = true -> p c = false ->
  prefix_run p (ds ++ c :: rest) = List.length ds.
Proof.
  intros Hds Hc. induction ds as [|x ds IH]; simpl in *.
  - now rewrite Hc.
  - apply andb_true_iff in Hds as [-> Hds]. now rewrite IH.
Qed.

Lemma prefix_run_le_app (p : char -> bool) (ds rest : pystr) :
  forallb p ds = true -> List.length ds <= prefix_run p (ds ++ rest).
Proof.
  intros Hds. induction ds as [|x ds IH]; simpl in *; [lia|].
  apply andb_true_iff in Hds as [-> Hds]. specialize (IH Hds). lia.
Qed.


Lemma chain_weaken (lo lo' : nat) (l : list nat) (hi : nat) :
  lo' <= lo -> chain lo l hi -> chain lo' l hi.
Proof. destruct l; simpl; intros; [lia | intuition lia]. Qed.

Lemma chain_cons_self (pos : nat) (l : list nat) (hi : nat) :
  chain pos l hi -> chain pos (pos :: l) hi.
Proof. simpl; auto. Qed.


Section Quantifiers.
Variable p : char -> bool.
Variable k : pystr -> nat -> outcome.

Lemma greedy_total :
  (forall t pos, k t pos <> None) -> forall t pos, greedy p k t pos <> None.
Proof.
  intros Hk t. induction t as [|c t IH]; intros pos; simpl; [apply Hk|].
  destruct (p c); [|apply Hk].
  destruct (greedy p k t (S pos)); [discriminate | apply Hk].
Qed.

(** When the continuation cannot start on a [p]-character, only the
    longest run is left to it. *)
Lemma greedy_longest :
  (forall c t pos, p c = true -> k (c :: t) pos = None) ->
  forall t pos,
    greedy p k t pos = k (skipn (prefix_run p t) t) (pos + prefix_run p t).
Proof.
  intros Hk t. induction t as [|c t IH]; intros pos; simpl.
  - now rewrite Nat.add_0_r.
  - destruct (p c) eqn:E.
    + rewrite IH, (Hk _ _ _ E).
      replace (S pos + prefix_run p t) with (pos + S (prefix_run p t)) by lia.
      now destruct (k _ _).
    + simpl. now rewrite Nat.add_0_r.
Qed.

Lemma greedy_extends (caps : list nat) :
  extends caps k -> extends caps (greedy p k).
Proof.
  intros Hk t. induction t as [|c t IH]; intros pos e caps'; simpl.
  - apply Hk.
  - destruct (p c); [|apply Hk].
    destruct (greedy p k t (S pos)) as [m|] eqn:E; [|apply Hk].
    intros [= ->]. destruct (IH _ _ _ E) as (ext & -> & Hc).
    exists ext. split; [reflexivity|]. eapply chain_weaken; [|eassumption]. lia.
Qed.

Lemma lazy_extends (caps : list nat) :
  extends caps k -> extends caps (lazy p k).
Proof.
  intros Hk t. induction t as [|c t IH]; intros pos e caps'; simpl.
  - destruct (k [] pos) eqn:E; [|discriminate]. intros [= ->]. eauto.
  - destruct (k (c :: t) pos) eqn:E; [intros [= ->]; eauto|].
    destruct (p c); [|discriminate].
    intros H. destruct (IH _ _ _ H) as (ext & -> & Hc).
    exists ext. split; [reflexivity|]. eapply chain_weaken; [|eassumption]. lia.
Qed.
End Quantifiers.

Lemma extends_step (caps : list nat) (k : pystr -> nat -> outcome) :
  extends caps k ->
  forall t pos e caps',
    k t (S pos) = Some (e, caps') ->
    exists ext, caps' = caps ++ ext /\ chain pos ext e.
Proof.
  intros Hk t pos e caps' H. destruct (Hk _ _ _ _ H) as (ext & -> & Hc).
  exists ext. split; [reflexivity|]. eapply chain_weaken; [|eassumption]. lia.
Qed.

Lemma run_extends (r : regex) : forall caps, extends caps (run r caps).
Proof.
  induction r as [|i r IH]; intros caps t pos e caps'; simpl.
  - intros [= <- <-]. exists []. rewrite app_nil_r. simpl. auto.
  - destruct i.
    + destruct t as [|x t]; [discriminate|].
      destruct (x =? c)%N; [|discriminate]. now apply extends_step.
    + destruct t as [|x t]; [discriminate|].
      destruct (p x); [|discriminate]. now apply extends_step.
    + apply greedy_extends, IH.
    + destruct t as [|x t]; [discriminate|].
      destruct (p x); [|discriminate].
      apply extends_step. apply greedy_extends, IH.
    + apply lazy_extends, IH.
    + intros H. destruct (IH _ _ _ _ _ H) as (ext & -> & Hc).
      exists (pos :: ext). rewrite <- app_assoc. simpl. auto.
    + intros H. destruct (IH _ _ _ _ _ H) as (ext & -> & Hc).
      exists (pos :: ext). rewrite <- app_assoc. simpl. auto.
Qed.

(** Every match found by the scan lies at its offset, with its groups
    inside it. *)
Lemma scan_chain (r : regex) (t : pystr) :
  forall pos skip,
    Forall (fun m => chain (m_start m) (m_caps m) (m_end m)) (scan r t pos skip).
Proof.
  induction t as [|c t IH]; intros pos skip; simpl; [constructor|].
  destruct skip; [|apply IH].
  destruct (run r [] (c :: t) pos) as [[e caps]|] eqn:E; [|apply IH].
  constructor; [|apply IH]. simpl.
  destruct (run_extends r [] _ _ _ _ E) as (ext & -> & Hc). exact Hc.
Qed.

End ReFacts.

Module FootnoteFacts.
Import Re StrFacts ReFacts Drafts.

Lemma skipn_length_app (A : Type) (l r : list A) : skipn (List.length l) (l ++ r) = r.
Proof. induction l; simpl; auto. Qed.

Lemma firstn_length_app (A : Type) (l r : list A) : firstn (List.length l) (l ++ r) = l.
Proof. induction l; simpl; congruence. Qed.

Lemma close_bracket_no_digit : Str.isdecimal (ch "]") = false.
Proof. reflexivity. Qed.

Lemma bracketed_numberb_spec (body : pystr) :
  bracketed_numberb body = true <-> bracketed_number body.
Proof.
  split.
  - destruct body as [|c t]; [discriminate|]. unfold bracketed_numberb.
    rewrite !andb_true_iff. intros [[Hc Hn] Hs].
    apply N.eqb_eq in Hc. apply Nat.ltb_lt in Hn.
    apply startswith_app in Hs. cbn [List.length app] in Hs.
    exists (firstn (prefix_run Str.isdecimal t) t),
           (skipn 1 (skipn (prefix_run Str.isdecimal t) t)).
    split; [|split].
    + rewrite Hc. f_equal. rewrite <- Hs. symmetry. apply firstn_skipn.
    + destruct t as [|y t]; simpl in *; [lia|].
      destruct (Str.isdecimal y); [discriminate | lia].
    + apply prefix_run_firstn.
  - intros (ds & rest & -> & Hne & Hd). unfold bracketed_numberb.
    rewrite (prefix_run_app _ _ rest _ Hd close_bracket_no_digit).
    rewrite skipn_length_app. cbn [Str.startswith]. rewrite !N.eqb_refl.
    destruct ds; [congruence | reflexivity].
Qed.


Lemma after_bracket_total (caps : list nat) (t : pystr) (pos : nat) :
  run after_bracket caps t pos <> None.
Proof.
  unfold after_bracket. cbn [run].
  apply greedy_total. intros t' pos'. cbn [run].
  apply greedy_total. intros t'' pos''. discriminate.
Qed.

Lemma after_digits_cons (caps : list nat) (c : char) (t : pystr) (pos : nat) :
  run after_digits caps (c :: t) pos =
    if (c =? ch "]")%N then run after_bracket (caps ++ [pos]) t (S pos) else None.
Proof. reflexivity. Qed.

Lemma after_digits_digit (caps : list nat) (c : char) (t : pystr) (pos : nat) :
  digit c = true -> run after_digits caps (c :: t) pos = None.
Proof.
  intros Hc. rewrite after_digits_cons.
  destruct (N.eqb_spec c (ch "]")) as [->|]; [|reflexivity].
  unfold digit in Hc. rewrite close_bracket_no_digit in Hc. discriminate.
Qed.

Lemma footnote_run (body : pystr) :
  run footnote_pattern [] body 0 =
    match body with
    | c :: y :: t =>
        if (c =? ch "[")%N && digit y then
          run after_digits [1] (skipn (prefix_run digit t) t) (2 + prefix_run digit t)
        else None
    | _ => None
    end.
Proof.
  destruct body as [|c [|y t]]; cbn [footnote_pattern run Lit].
  - reflexivity.
  - now destruct (c =? ch "[")%N.
  - destruct (c =? ch "[")%N; [|reflexivity]. cbn [app andb].
    destruct (digit y); [|reflexivity].
    change (greedy digit (run after_digits [1]) t 2
            = run after_digits [1] (skipn (prefix_run digit t) t) (2 + prefix_run digit t)).
    apply greedy_longest. intros. now apply after_digits_digit.
Qed.

Lemma footnote_no_match (body : pystr) :
  bracketed_numberb body = false ->
  rmatch_at_start footnote_pattern body = None.
Proof.
  unfold rmatch_at_start. rewrite footnote_run.
  destruct body as [|c [|y t]]; try reflexivity.
  unfold bracketed_numberb. cbn [prefix_run]. fold digit.
  destruct (c =? ch "[")%N; [|reflexivity].
  destruct (digit y); [|reflexivity]. cbn [andb Nat.ltb Nat.leb skipn].
  destruct (skipn (prefix_run digit t) t) as [|z u]; [reflexivity|].
  rewrite after_digits_cons. cbn [Str.startswith].
  destruct (z =? ch "]")%N eqn:E.
  - rewrite N.eqb_sym in E. rewrite E. discriminate.
  - reflexivity.
Qed.

Lemma footnote_match (body : pystr) :
  bracketed_numberb body = true ->
  exists m,
    rmatch_at_start footnote_pattern body = Some m /\
    group body m 1 = firstn (prefix_run digit (tl body)) (tl body).
Proof.
  unfold rmatch_at_start. rewrite footnote_run.
  destruct body as [|c [|y t]]; try discriminate.
  - unfold bracketed_numberb. simpl. rewrite andb_false_r. discriminate.
  - unfold bracketed_numberb. cbn [prefix_run tl]. fold digit.
    destruct (c =? ch "[")%N; [|discriminate].
    destruct (digit y); [|discriminate]. cbn [andb Nat.ltb Nat.leb skipn].
    destruct (skipn (prefix_run digit t) t) as [|z u] eqn:Eu; [discriminate|].
    rewrite after_digits_cons. cbn [Str.startswith].
    rewrite (N.eqb_sym (ch "]") z).
    destruct (z =? ch "]")%N; [|discriminate]. intros _.
    destruct (run after_bracket _ u _) as [[e caps]|] eqn:E;
      [|now destruct (after_bracket_total _ _ _ E)].
    eexists. split; [reflexivity|].
    destruct (run_extends _ _ _ _ _ _ E) as (ext & -> & _).
    unfold group, Str.slice. simpl. reflexivity.
Qed.

Lemma prefix_run_length (p : char -> bool) (t : pystr) :
  prefix_run p t <= List.length t.
Proof. induction t as [|c t IH]; simpl; [lia|]. destruct (p c); lia. Qed.

(** The number a footnote is matched with is the run of digits after
    the opening bracket of the body. *)
Lemma footnote_number (body : pystr) (m : rmatch) :
  rmatch_at_start footnote_pattern body = Some m ->
  bracketed_numberb body = true /\
  group body m 1 = firstn (prefix_run Str.isdecimal (tl body)) (tl body) /\
  List.length (group body m 1) = prefix_run Str.isdecimal (tl body) /\
  group body m 1 <> [] /\
  forallb Str.isdecimal (group body m 1) = true.
Proof.
  intros Hm. destruct (bracketed_numberb body) eqn:Hb;
    [|rewrite (footnote_no_match _ Hb) in Hm; discriminate].
  destruct (footnote_match _ Hb) as (m' & Hm' & Hg).
  rewrite Hm in Hm'. injection Hm' as <-.
  split; [reflexivity|]. split; [exact Hg|].
  rewrite Hg. destruct body as [|c t]; [discriminate|].
  unfold bracketed_numberb in Hb. cbn [tl].
  apply andb_true_iff in Hb as [Hb _]. apply andb_true_iff in Hb as [_ Hb].
  apply Nat.ltb_lt in Hb. fold digit in *. repeat split.
  - apply firstn_length_le, prefix_run_length.
  - destruct t as [|y t]; simpl in *; [lia|].
    destruct (digit y); [discriminate | lia].
  - apply prefix_run_firstn.
Qed.

(** The digits of a bracketed number are a piece of the body. *)
Lemma number_substring (body : pystr) :
  substring (firstn (prefix_run Str.isdecimal (tl body)) (tl body)) body.
Proof.
  destruct body as [|c t]; [now exists [], []|]. cbn [tl].
  exists [c], (skipn (prefix_run Str.isdecimal t) t). simpl. f_equal.
  symmetry. apply firstn_skipn.
Qed.

End FootnoteFacts.

Module BlockFacts.
Import Re StrFacts ReFacts FootnoteFacts Drafts.


Ltac head_case :=
  match goal with
  | |- (if ?c then _ else _) = _ => destruct c
  | |- bind ?r _ = _ => destruct r as [[? ?]|?]; cbn [bind]
  | |- bind ?r _ = _ => destruct r; cbn [bind]
  | |- match ?x with Some _ => _ | None => _ end = _ => destruct x
  | |- (let '(_, _) := ?x in _) = _ => destruct x
  end.

(** The loop body only appends to [content]. *)
Lemma block_step_append (content : list node) (counter : Z) (block : pystr) :
  block_step (content, counter) block = append_to content (block_nodes counter block).
Proof.
  unfold block_nodes, block_step.
  repeat (head_case;
          try (cbn [append_to app]; rewrite ?app_nil_r; reflexivity)).
Qed.


Lemma longest_run_prefix (p : char -> bool) (s : pystr) :
  prefix_run p s <= longest_run p s.
Proof. destruct s; simpl; lia. Qed.

Lemma longest_run_substring (p : char -> bool) (u s : pystr) :
  substring u s -> forallb p u = true -> List.length u <= longest_run p s.
Proof.
  intros (pre & post & ->) Hu. induction pre as [|c pre IH]; simpl.
  - pose proof (prefix_run_le_app p u post Hu).
    pose proof (longest_run_prefix p (u ++ post)). lia.
  - lia.
Qed.

Lemma int_digits (ds : pystr) :
  ds <> [] -> forallb Str.isdecimal ds = true ->
  List.length ds <= Str.int_max_str_digits ->
  exists n, Str.int ds = Ok n.
Proof.
  intros Hne Hd Hl. unfold Str.int. rewrite Hd.
  destruct ds; [congruence|]. cbn [Str.is_empty orb negb].
  destruct (Nat.ltb_spec Str.int_max_str_digits (List.length (c :: ds))); [lia|].
  eauto.
Qed.

Lemma heading_level (block_type : pystr) :
  existsb (is_tag block_type) ["h1"; "h2"; "h3"; "h4"; "h5"; "h6"] = true ->
  exists c level, Str.index block_type 1 = Ok c /\ Str.int [c] = Ok level.
Proof.
  cbn [existsb]. rewrite !orb_true_iff. unfold is_tag. rewrite !eqb_eq.
  intros [->|[->|[->|[->|[->|[->|H]]]]]]; try discriminate H;
    eexists _, _; split; reflexivity.
Qed.

Lemma in_block_types (ty : string) :
  existsb (String.eqb ty) block_types = true -> In ty block_types.
Proof.
  rewrite existsb_exists. intros (x & Hx & E). apply String.eqb_eq in E. now subst.
Qed.

Ltac typed := repeat constructor; apply in_block_types; reflexivity.

Ltac next_tag :=
  lazymatch goal with
  | |- yields _ (if ?c then _ else _) => destruct c eqn:?; [try (cbn; typed)|]
  end.

Ltac split_on H :=
  destruct (unpack2_split1 _ _ H) as (? & ? & ? & ->); cbn [bind].

Lemma tagged_partition (block a b : pystr) :
  Str.partition (py "::") block = Some (a, b) ->
  tagged block = Some (Str.lower (Str.strip a), Str.strip b).
Proof. intros H. unfold tagged. now rewrite H. Qed.

(** A block that is no oversized footnote is processed without an
    exception and adds nodes of block types only. *)
Lemma block_nodes_ok (counter : Z) (block : pystr) :
  oversized_footnote block = false ->
  yields (fun nodes _ => Forall (fun n => In (type n) block_types) nodes)
         (block_nodes counter block).
Proof.
  intros Hover. unfold block_nodes, block_step.
  destruct (Str.contains (py "::") block) eqn:Hc; cbn [negb]; [|cbn; typed].
  destruct (unpack2_split1 _ _ Hc) as (a & b & Hp & ->). cbn [bind].
  unfold oversized_footnote in Hover. rewrite (tagged_partition _ _ _ Hp) in Hover.
  change (Str.eqb (Str.lower (Str.strip a)) (py "footnote"))
    with (is_tag (Str.lower (Str.strip a)) "footnote") in Hover.
  next_tag.
  repeat next_tag.
  - (* h1 to h6 *)
    match goal with H : existsb _ _ = true |- _ =>
      destruct (heading_level _ H) as (c & level & Hi & Hl) end.
    rewrite Hi. cbn [bind]. rewrite Hl.
    cbn. typed.
  - (* code *)
    match goal with |- yields _ (let '(_, _) := ?x in _) => destruct x end.
    cbn. typed.
  - (* button *)
    destruct (Str.contains (py "->") (Str.strip b)) eqn:Hb; [split_on Hb|]; cbn; typed.
  - (* subscribewidget *)
    destruct (Str.contains (py ">>") (Str.strip b)) eqn:Hb; [split_on Hb|]; cbn; typed.
  - (* sharewidget *)
    destruct (Str.contains (py ">>") (Str.strip b)) eqn:Hb; [split_on Hb|]; cbn; typed.
  - (* footnote *)
    destruct (rmatch_at_start footnote_pattern (Str.strip b)) as [m|] eqn:Hm;
      [|cbn; constructor].
    destruct (footnote_number _ _ Hm) as (Hbr & _ & Hlen & Hne & Hd).
    rewrite Hbr in Hover. cbn [andb] in Hover. apply Nat.ltb_ge in Hover.
    destruct (int_digits _ Hne Hd) as [n ->]; [lia|].
    cbn. typed.
  - (* unknown tag *)
    cbn. constructor.
Qed.

(** An oversized footnote makes [int] raise. *)
Lemma block_step_raises (st : list node * Z) (block : pystr) :
  oversized_footnote block = true ->
  block_step st block = Raise ValueError.
Proof.
  destruct st as [content counter]. unfold oversized_footnote, tagged.
  destruct (Str.partition (py "::") block) as [[a b]|] eqn:Hp; [|discriminate].
  rewrite !andb_true_iff. intros [[Htag Hbr] Hlong].
  apply eqb_eq in Htag. apply Nat.ltb_lt in Hlong.
  unfold block_step.
  destruct (Str.contains (py "::") block) eqn:Hc;
    [|rewrite (partition_contains _ _ Hc) in Hp; discriminate].
  unfold Str.split1. rewrite Hp. cbn [negb Str.unpack2 bind]. rewrite Htag.
  destruct (Str.is_empty (Str.strip b)) eqn:He;
    [apply is_empty_true in He; rewrite He in Hbr; discriminate|].
  destruct (footnote_match _ Hbr) as (m & Hm & Hg).
  replace (if is_tag (py "footnote") "title" then _ else _)
    with (match rmatch_at_start footnote_pattern (Str.strip b) with
          | Some m =>
              num <- Str.int (group (Str.strip b) m 1) ;;
              Ok (content ++ [container_with "footnote" [("number", VInt num)]
                                [plain_paragraph (group (Str.strip b) m 2)]],
                  counter)
          | None => Ok (content, counter)
          end) by reflexivity.
  rewrite Hm.
  destruct (footnote_number _ _ Hm) as (_ & _ & Hlen & Hne & Hd).
  unfold Str.int. rewrite Hd.
  destruct (group (Str.strip b) m 1) eqn:Eg; [congruence|].
  cbn [Str.is_empty orb negb]. rewrite <- Hlen in Hlong.
  apply Nat.ltb_lt in Hlong. rewrite Hlong. reflexivity.
Qed.

End BlockFacts.

Module CompilerFacts.
Import Re StrFacts ReFacts FootnoteFacts Drafts BlockFacts.

Lemma stripped_nonempty_In (parts : list pystr) (b : pystr) :
  In b (stripped_nonempty parts) -> exists p, In p parts /\ b = Str.strip p.
Proof.
  unfold stripped_nonempty. rewrite in_map_iff.
  intros (p & <- & Hp). apply filter_In in Hp as [Hp _]. eauto.
Qed.

Lemma prefix_run_map (p : char -> bool) (f : char -> char) (s : pystr) :
  (forall c, p (f c) = p c) -> prefix_run p (map f s) = prefix_run p s.
Proof.
  intros Hf. induction s as [|c s IH]; simpl; [reflexivity|].
  rewrite Hf, IH. reflexivity.
Qed.

Lemma longest_run_map (p : char -> bool) (f : char -> char) (s : pystr) :
  (forall c, p (f c) = p c) -> longest_run p (map f s) = longest_run p s.
Proof.
  intros Hf. induction s as [|c s IH]; simpl; [reflexivity|].
  rewrite Hf, IH, (prefix_run_map p f s Hf). reflexivity.
Qed.

Lemma longest_run_attained (p : char -> bool) (s : pystr) :
  exists w, substring w s /\ forallb p w = true /\ List.length w = longest_run p s.
Proof.
  induction s as [|c s (w & Hw & Hp & Hl)].
  - exists []. repeat split. now exists [], [].
  - cbn [longest_run].
    destruct (Nat.max_spec (prefix_run p (c :: s)) (longest_run p s)) as [[_ ->]|[Hm ->]].
    + exists w. repeat split; try assumption.
      destruct Hw as (pre & post & ->). now exists (c :: pre), post.
    + exists (firstn (prefix_run p (c :: s)) (c :: s)). repeat split.
      * exists [], (skipn (prefix_run p (c :: s)) (c :: s)).
        symmetry. apply firstn_skipn.
      * apply prefix_run_firstn.
      * apply firstn_length_le. clear. generalize (c :: s) as l.
        induction l as [|x l IH]; simpl; [lia|]. destruct (p x); lia.
Qed.

Lemma longest_run_mono (p : char -> bool) (u s : pystr) :
  substring u s -> longest_run p u <= longest_run p s.
Proof.
  intros Hu. destruct (longest_run_attained p u) as (w & Hw & Hp & <-).
  apply longest_run_substring; [|assumption].
  eapply substring_trans; eassumption.
Qed.

Lemma semicolon_comma_digit (c : char) :
  Str.isdecimal (if N.eqb c (ch ";") then ch "," else c) = Str.isdecimal c.
Proof.
  destruct (N.eqb_spec c (ch ";")) as [->|]; reflexivity.
Qed.

(** A block is a piece of the markup after the replacement of the
    semicolons, and has no pipe in it. *)
Lemma split_blocks_In (markup_text block : pystr) :
  In block (split_blocks markup_text) ->
  substring block (Str.replace (ch ";") (ch ",") markup_text) /\
  ~ In (ch "|") block.
Proof.
  unfold split_blocks. intros H.
  apply stripped_nonempty_In in H as (p & Hp & ->).
  apply split_pieces in Hp as [Hn Hs]. split.
  - eapply substring_trans; [apply strip_substring | exact Hs].
  - intros Hi. apply Hn. eapply substring_In; [apply strip_substring | exact Hi].
Qed.

Lemma split_blocks_run (markup_text block : pystr) :
  In block (split_blocks markup_text) ->
  longest_run Str.isdecimal block <= longest_run Str.isdecimal markup_text.
Proof.
  intros H. apply split_blocks_In in H as [H _].
  apply (longest_run_mono Str.isdecimal) in H.
  unfold Str.replace in H.
  now rewrite (longest_run_map _ _ _ semicolon_comma_digit) in H.
Qed.

Lemma run_blocks_ok (blocks : list pystr) :
  existsb oversized_footnote blocks = false ->
  forall content counter,
    Forall (fun n => In (type n) block_types) content ->
    exists content' counter',
      run_blocks blocks (content, counter) = Ok (content', counter') /\
      Forall (fun n => In (type n) block_types) content'.
Proof.
  induction blocks as [|b blocks IH]; intros Hb content counter Hc;
    cbn [run_blocks existsb] in *.
  - eauto.
  - apply orb_false_iff in Hb as [Hb Hbs].
    rewrite block_step_append.
    pose proof (block_nodes_ok counter b Hb) as Hy.
    destruct (block_nodes counter b) as [[nodes counter1]|]; [|contradiction].
    cbn [append_to bind yields] in *.
    apply IH; [assumption|].
    apply Forall_app. now split.
Qed.

Lemma run_blocks_raises (blocks : list pystr) :
  existsb oversized_footnote blocks = true ->
  forall st, run_blocks blocks st = Raise ValueError.
Proof.
  induction blocks as [|b blocks IH]; intros Hb st; cbn [run_blocks existsb] in *;
    [discriminate|].
  destruct (oversized_footnote b) eqn:Eb.
  - now rewrite block_step_raises.
  - cbn [orb] in Hb. destruct st as [content counter].
    rewrite block_step_append.
    pose proof (block_nodes_ok counter b Eb) as Hy.
    destruct (block_nodes counter b) as [[nodes counter1]|]; [|contradiction].
    cbn [append_to bind]. now apply IH.
Qed.

(** A markup whose runs of digits are all within the limit of [int] has
    no oversized footnote. *)
Lemma short_digit_runs (markup_text : pystr) :
  longest_run Str.isdecimal markup_text <= Str.int_max_str_digits ->
  has_oversized_footnote markup_text = false.
Proof.
  intros Hrun. unfold has_oversized_footnote.
  destruct (existsb _ _) eqn:E; [|reflexivity]. exfalso.
  apply existsb_exists in E as (block & Hin & Hover).
  apply split_blocks_run in Hin. unfold oversized_footnote, tagged in Hover.
  destruct (Str.partition (py "::") block) as [[a b]|] eqn:Hp; [|discriminate].
  apply andb_true_iff in Hover as [_ Hlong]. apply Nat.ltb_lt in Hlong.
  pose proof (number_substring (Str.strip b)) as Hs.
  apply (longest_run_substring Str.isdecimal) in Hs; [|apply prefix_run_firstn].
  rewrite firstn_length_le in Hs by apply prefix_run_length.
  assert (Hb : substring (Str.strip b) block).
  { eapply substring_trans; [apply strip_substring|].
    now apply (partition_substrings _ _ _ _ Hp). }
  apply (longest_run_mono Str.isdecimal) in Hb. lia.
Qed.

(** The compiler is total on every markup without a run of more than
    4300 digits. *)
Lemma compile_total_on_short_digit_runs (markup_text : pystr) :
  longest_run Str.isdecimal markup_text <= Str.int_max_str_digits ->
  exists doc,
    parse_markup_to_json markup_text = Ok doc /\ well_formed_document doc.
Proof.
  intros H. apply short_digit_runs in H. unfold parse_markup_to_json.
  destruct (run_blocks_ok (split_blocks markup_text) H [] 1%Z)
    as (content & counter & -> & Hc); [constructor|].
  cbn [bind]. eexists. split; [reflexivity|].
  unfold well_formed_document, container; cbn. eauto 10.
Qed.

End CompilerFacts.

Module CounterFacts.
Import Re StrFacts ReFacts FootnoteFacts Drafts BlockFacts CompilerFacts.


Lemma when_ok_bind (A : Type) (Q : list node -> Z -> Prop) (r : result A)
      (k : A -> result (list node * Z)) :
  (forall a, r = Ok a -> when_ok Q (k a)) -> when_ok Q (bind r k).
Proof. destruct r; cbn; auto. Qed.


Lemma heading_not_latex (block_type : pystr) :
  existsb (is_tag block_type) ["h1"; "h2"; "h3"; "h4"; "h5"; "h6"] = true ->
  is_tag block_type "latex" = false.
Proof.
  cbn [existsb]. rewrite !orb_true_iff. unfold is_tag at 1 2 3 4 5 6. rewrite !eqb_eq.
  intros [->|[->|[->|[->|[->|[->|H]]]]]]; try discriminate H; reflexivity.
Qed.

Ltac this_tag :=
  lazymatch goal with
  | H : is_tag _ _ = true |- _ => apply eqb_eq in H; rewrite H
  end.

Ltac other_tag :=
  lazymatch goal with
  | H : is_tag _ _ = true |- _ =>
      apply eqb_eq in H; rewrite H; cbn; split; reflexivity
  end.

Ltac next_tag :=
  lazymatch goal with
  | |- when_ok _ (if ?c then _ else _) =>
      let H := fresh "Htag" in destruct c eqn:H; [try other_tag|]
  end.

(** Only a LaTeX block adds a [latex_block] node and moves the counter;
    its node carries the counter it found. *)
Lemma block_nodes_latex (counter : Z) (block : pystr) :
  when_ok (latex_effect counter block) (block_nodes counter block).
Proof.
  unfold block_nodes, block_step, latex_effect, is_latex, tagged.
  destruct (Str.contains (py "::") block) eqn:Hc; cbn [negb].
  - destruct (unpack2_split1 _ _ Hc) as (a & b & Hp & ->). rewrite Hp. cbn [bind].
    destruct (Str.is_empty (Str.strip b)) eqn:He;
      [rewrite andb_false_r; cbn; auto|].
    remember (Str.lower (Str.strip a)) as bt. rewrite andb_true_r.
    change (Str.eqb bt (py "latex")) with (is_tag bt "latex").
    repeat next_tag.
    + (* h1 to h6 *)
      match goal with H : existsb _ _ = true |- _ => rewrite (heading_not_latex _ H) end.
      destruct (Str.index bt 1) as [c|]; [|exact I]. cbn [bind].
      destruct (Str.int [c]) as [level|]; [|exact I]. cbn. auto.
    + (* code *)
      this_tag.
      destruct (Str.split1 (py "|") (Str.strip b)) as [|p0 [|p1 [|]]]; cbn; auto.
    + (* button *)
      this_tag.
      destruct (Str.contains (py "->") (Str.strip b));
        [destruct (Str.unpack2 _) as [[? ?]|]|]; cbn; auto.
    + (* subscribewidget *)
      this_tag.
      destruct (Str.contains (py ">>") (Str.strip b));
        [destruct (Str.unpack2 _) as [[? ?]|]|]; cbn; auto.
    + (* sharewidget *)
      this_tag.
      destruct (Str.contains (py ">>") (Str.strip b));
        [destruct (Str.unpack2 _) as [[? ?]|]|]; cbn; auto.
    + (* latex *)
      cbn. auto.
    + (* footnote *)
      destruct (rmatch_at_start footnote_pattern (Str.strip b)) as [m|]; [|cbn; auto].
      destruct (Str.int _) as [num|]; cbn; auto.
    + (* break *)
      cbn. auto.
    + (* unknown tag *)
      cbn. auto.
  - rewrite (partition_contains _ _ Hc). cbn. auto.
Qed.
Lemma latex_ids_app (a b : list node) :
  latex_ids (a ++ b) = latex_ids a ++ latex_ids b.
Proof. apply flat_map_app. Qed.

(** The loop moves the counter once per LaTeX block and hands each of
    them the next value. *)
Lemma run_blocks_latex (blocks : list pystr) :
  forall content counter content' counter',
    run_blocks blocks (content, counter) = Ok (content', counter') ->
    counter' = (counter + Z.of_nat (List.length (filter is_latex blocks)))%Z /\
    latex_ids content' =
      latex_ids content
        ++ map (fun i => equation_of (counter + Z.of_nat i))
               (seq 0 (List.length (filter is_latex blocks))).
Proof.
  induction blocks as [|b blocks IH]; intros content counter content' counter';
    cbn [run_blocks filter].
  - intros [= <- <-]. cbn. rewrite app_nil_r. split; [lia | reflexivity].
  - rewrite block_step_append.
    pose proof (block_nodes_latex counter b) as Hb.
    destruct (block_nodes counter b) as [[nodes counter1]|]; [|discriminate].
    cbn [append_to bind when_ok] in *. intros Hrun.
    apply IH in Hrun as [-> ->]. unfold latex_effect in Hb.
    rewrite latex_ids_app.
    destruct (is_latex b); destruct Hb as [-> ->].
    + cbn [List.length seq map]. split; [lia|].
      rewrite <- app_assoc. cbn [app]. rewrite Z.add_0_r.
      do 2 f_equal. rewrite <- seq_shift, map_map.
      apply map_ext. intros i. f_equal. lia.
    + rewrite app_nil_r. split; reflexivity.
Qed.

End CounterFacts.

Module CodeBlockFacts.
Import Re StrFacts ReFacts FootnoteFacts Drafts BlockFacts CompilerFacts CounterFacts.


Lemma partition_absent (c : char) (s : pystr) :
  ~ In c s -> Str.partition [c] s = None.
Proof.
  intros Hn. destruct (Str.partition [c] s) as [[a b]|] eqn:E; [|reflexivity].
  apply partition_app in E. subst s. exfalso. apply Hn.
  rewrite in_app_iff. right. now left.
Qed.

Ltac not_code := cbn; repeat constructor; intros H; discriminate H.

Ltac next_tag :=
  lazymatch goal with
  | |- when_ok _ (if ?c then _ else _) => destruct c; [try not_code|]
  end.

(** A block without a pipe adds no code block with a language. *)
Lemma block_nodes_language (counter : Z) (block : pystr) :
  ~ In (ch "|") block ->
  when_ok (fun nodes _ => Forall language_none nodes) (block_nodes counter block).
Proof.
  intros Hn. unfold block_nodes, block_step.
  destruct (Str.contains (py "::") block) eqn:Hc; cbn [negb]; [|not_code].
  destruct (unpack2_split1 _ _ Hc) as (a & b & Hp & ->). cbn [bind].
  repeat next_tag.
  - (* h1 to h6 *)
    destruct (Str.index _ 1) as [c|]; [|exact I]. cbn [bind].
    destruct (Str.int [c]) as [level|]; [|exact I]. not_code.
  - (* code *)
    unfold Str.split1. change (py "|") with [ch "|"].
    rewrite partition_absent.
    + cbn. repeat constructor.
    + intros Hi. apply Hn.
      eapply substring_In; [|exact Hi].
      eapply substring_trans; [apply strip_substring|].
      now apply (partition_substrings _ _ _ _ Hp).
  - (* button *)
    destruct (Str.contains (py "->") _); [destruct (Str.unpack2 _) as [[? ?]|]|];
      try exact I; not_code.
  - (* subscribewidget *)
    destruct (Str.contains (py ">>") _); [destruct (Str.unpack2 _) as [[? ?]|]|];
      try exact I; not_code.
  - (* sharewidget *)
    destruct (Str.contains (py ">>") _); [destruct (Str.unpack2 _) as [[? ?]|]|];
      try exact I; not_code.
  - (* footnote *)
    destruct (rmatch_at_start _ _) as [m|]; [|cbn; constructor].
    destruct (Str.int _) as [num|]; [|exact I]. not_code.
  - (* unknown tag *)
    cbn. constructor.
Qed.

Lemma run_blocks_language (blocks : list pystr) :
  (forall b, In b blocks -> ~ In (ch "|") b) ->
  forall content counter content' counter',
    Forall language_none content ->
    run_blocks blocks (content, counter) = Ok (content', counter') ->
    Forall language_none content'.
Proof.
  induction blocks as [|b blocks IH]; intros Hb content counter content' counter' Hc;
    cbn [run_blocks].
  - now intros [= <- <-].
  - rewrite block_step_append.
    pose proof (block_nodes_language counter b (Hb b (or_introl eq_refl))) as Hn.
    destruct (block_nodes counter b) as [[nodes counter1]|]; [|discriminate].
    cbn [append_to bind when_ok] in *.
    apply IH; [intros; apply Hb; now right|].
    apply Forall_app. now split.
Qed.

End CodeBlockFacts.

Module FormatFacts.
Import Re StrFacts ReFacts Drafts.


Lemma kept_texts_filter (elements : list node) :
  map get_text (filter has_text elements) = kept_texts elements.
Proof.
  unfold kept_texts. induction elements as [|e l IH]; cbn [filter map]; [reflexivity|].
  change (nonblank (get_text e)) with (has_text e).
  destruct (has_text e); cbn [map]; now rewrite IH.
Qed.

Lemma kept_texts_app (a b : list node) :
  kept_texts (a ++ b) = kept_texts a ++ kept_texts b.
Proof. unfold kept_texts. now rewrite map_app, filter_app. Qed.

Lemma nonblank_nonempty (t : pystr) : nonblank t = true -> t <> [].
Proof. intros H ->. discriminate H. Qed.

(** An empty text never passes the filter, so the guards on empty plain
    text change nothing of what is kept. *)
Lemma kept_plain (elements : list node) (t : pystr) (guard : bool) :
  (guard = false -> t = []) ->
  kept_texts (if guard then
                if negb (Str.is_empty t) then elements ++ [text_node t] else elements
              else elements)
  = kept_texts elements ++ filter nonblank [t].
Proof.
  intros Hg.
  assert (Hnil : kept_texts elements = kept_texts elements ++ filter nonblank [[]])
    by (cbn; now rewrite app_nil_r).
  destruct guard.
  - destruct t; cbn [Str.is_empty negb]; [exact Hnil|].
    now rewrite kept_texts_app.
  - rewrite (Hg eq_refl). exact Hnil.
Qed.

Lemma slice_backwards (text : pystr) (a b : nat) :
  Nat.ltb a b = false -> Str.slice text a b = [].
Proof.
  intros H. apply Nat.ltb_ge in H. unfold Str.slice.
  replace (b - a) with 0 by lia. reflexivity.
Qed.

Lemma slice_from_beyond (text : pystr) (a : nat) :
  Nat.ltb a (List.length text) = false -> Str.slice_from text a = [].
Proof.
  intros H. apply Nat.ltb_ge in H. now apply skipn_all2.
Qed.

Lemma match_step_kept (text : pystr) (elements : list node) (pos : nat)
      (start end_ : nat) (format_type : string) (m : rmatch) :
  exists elements',
    match_step text (elements, pos) (start, end_, format_type, m) = (elements', end_) /\
    kept_texts elements' =
      kept_texts elements
        ++ filter nonblank [Str.slice text pos start; group text m 1].
Proof.
  unfold match_step. eexists. split; [reflexivity|].
  assert (Hplain := kept_plain elements (Str.slice text pos start) (Nat.ltb pos start)
                      (slice_backwards text pos start)).
  cbv zeta in *.
  change [Str.slice text pos start; group text m 1]
    with ([Str.slice text pos start] ++ [group text m 1]).
  rewrite filter_app, app_assoc, <- Hplain.
  destruct (String.eqb format_type "link"); now rewrite kept_texts_app.
Qed.

(** The loop over the matches keeps the non-blank gaps and captures. *)
Lemma walk_kept (text : pystr) (ms : list entry) :
  forall elements pos,
    let '(elements', pos') := fold_left (match_step text) ms (elements, pos) in
    kept_texts elements' ++ filter nonblank [Str.slice_from text pos']
    = kept_texts elements ++ filter nonblank (gaps_and_captures text pos ms).
Proof.
  induction ms as [|[[[start end_] format_type] m] ms IH]; intros elements pos.
  - reflexivity.
  - cbn [fold_left gaps_and_captures].
    destruct (match_step_kept text elements pos start end_ format_type m)
      as (elements1 & -> & Hk).
    specialize (IH elements1 end_).
    destruct (fold_left (match_step text) ms (elements1, end_)) as [elements' pos'].
    rewrite IH, Hk, <- app_assoc.
    change (Str.slice text pos start :: group text m 1
              :: gaps_and_captures text end_ ms)
      with ([Str.slice text pos start; group text m 1]
              ++ gaps_and_captures text end_ ms).
    now rewrite filter_app.
Qed.

(** The run texts of the formatter, for every text. *)
Lemma formatter_texts (text : pystr) :
  map get_text (parse_inline_formatting text) = expected_run_texts text.
Proof.
  unfold parse_inline_formatting, expected_run_texts.
  pose proof (walk_kept text (sort_matches (find_matches text)) [] 0) as Hw.
  cbv zeta.
  destruct (fold_left (match_step text) (sort_matches (find_matches text)) ([], 0))
    as [elements pos].
  change (kept_texts []) with (@nil pystr) in Hw. rewrite app_nil_l in Hw.
  rewrite <- Hw.
  rewrite <- (kept_plain elements (Str.slice_from text pos)
                (Nat.ltb pos (List.length text)) (slice_from_beyond text pos)).
  set (els := if Nat.ltb pos (List.length text) then _ else _).
  destruct els as [|e l].
  - cbn. destruct (has_text (text_node text)); reflexivity.
  - rewrite <- kept_texts_filter.
    destruct (filter has_text (e :: l)); reflexivity.
Qed.

(** ** Order and multiplicity of the characters *)

Lemma Subseq_nil_l (s : pystr) : Subseq [] s.
Proof. induction s; constructor; assumption. Qed.

Lemma Subseq_refl (s : pystr) : Subseq s s.
Proof. induction s; constructor; assumption. Qed.

Lemma Subseq_skip_app (x u s : pystr) : Subseq u s -> Subseq u (x ++ s).
Proof. intros H. induction x; cbn [app]; [assumption | now constructor]. Qed.

Lemma Subseq_app (u1 s1 u2 s2 : pystr) :
  Subseq u1 s1 -> Subseq u2 s2 -> Subseq (u1 ++ u2) (s1 ++ s2).
Proof.
  intros H1 H2. induction H1; cbn [app]; [assumption | |]; now constructor.
Qed.

Lemma Subseq_count (u s : pystr) (c : char) :
  Subseq u s -> count_occ N.eq_dec u c <= count_occ N.eq_dec s c.
Proof.
  intros H. induction H as [|u s d H IH|u s d H IH]; cbn [count_occ].
  - lia.
  - destruct (N.eq_dec d c); lia.
  - destruct (N.eq_dec d c); lia.
Qed.

Lemma Subseq_kept (keep : bool) (x : pystr) : Subseq (if keep then x else []) x.
Proof. destruct keep; [apply Subseq_refl | apply Subseq_nil_l]. Qed.

Lemma concat_filter_cons (f : pystr -> bool) (x : pystr) (l : list pystr) :
  List.concat (filter f (x :: l)) = (if f x then x else []) ++ List.concat (filter f l).
Proof. cbn [filter]. now destruct (f x). Qed.

Lemma firstn_add (A : Type) (n m : nat) (l : list A) :
  firstn (n + m) l = firstn n l ++ firstn m (skipn n l).
Proof.
  revert l. induction n as [|n IH]; intros [|x l]; cbn; try reflexivity.
  - now rewrite firstn_nil.
  - now rewrite IH.
Qed.

Lemma skipn_slice (text : pystr) (a b : nat) :
  a <= b -> skipn a text = Str.slice text a b ++ skipn b text.
Proof.
  intros H. unfold Str.slice.
  replace b with ((b - a) + a) at 2 by lia.
  rewrite <- skipn_skipn. symmetry. apply firstn_skipn.
Qed.

Lemma slice_slice (text : pystr) (a b c : nat) :
  a <= b -> b <= c ->
  Str.slice text a c = Str.slice text a b ++ Str.slice text b c.
Proof.
  intros Hab Hbc. unfold Str.slice.
  replace (c - a) with ((b - a) + (c - b)) by lia.
  rewrite firstn_add, skipn_skipn. do 3 f_equal. lia.
Qed.

Lemma chain_le (lo : nat) (l : list nat) (hi : nat) : chain lo l hi -> lo <= hi.
Proof.
  revert lo. induction l as [|c l IH]; cbn; intros lo H; [assumption|].
  destruct H as [H1 H2]. apply IH in H2. lia.
Qed.

(** The first group of a match lies inside the match. *)
Lemma group_in_span (text : pystr) (m : rmatch) (s e : nat) :
  chain s (m_caps m) e ->
  exists l r, Str.slice text s e = l ++ group text m 1 ++ r.
Proof.
  unfold group. cbn [Nat.mul Nat.add Nat.sub].
  destruct (m_caps m) as [|c0 [|c1 caps]]; cbn [chain nth].
  - intros _. exists (Str.slice text s e), []. unfold Str.slice at 2.
    cbn. now rewrite app_nil_r.
  - intros _. exists (Str.slice text s e), []. unfold Str.slice at 2.
    cbn. now rewrite app_nil_r.
  - intros (H0 & H1 & H2). apply chain_le in H2.
    exists (Str.slice text s c0), (Str.slice text c1 e).
    rewrite (slice_slice text s c0 e) by lia.
    now rewrite (slice_slice text c0 c1 e) by lia.
Qed.


Lemma find_matches_ok (text : pystr) : Forall entry_ok (find_matches text).
Proof.
  apply Forall_forall. intros x Hx. unfold find_matches in Hx.
  apply in_flat_map in Hx as ([pattern format_type] & _ & Hx).
  apply in_map_iff in Hx as (m & <- & Hm).
  pose proof (scan_chain pattern text 0 0) as Hs.
  rewrite Forall_forall in Hs. exact (Hs m Hm).
Qed.

Lemma insert_sorted_In (x y : entry) (l : list entry) :
  In x (insert_sorted y l) -> x = y \/ In x l.
Proof.
  induction l as [|z l IH]; cbn [insert_sorted].
  - intros [<-|[]]. now left.
  - destruct (Nat.ltb (entry_start y) (entry_start z)); cbn [In].
    + intros [<-|H]; [now left | now right].
    + intros [<-|H]; [right; now left|].
      apply IH in H as [->|H]; [now left | right; now right].
Qed.

Lemma sort_matches_In (x : entry) (l : list entry) :
  In x (sort_matches l) -> In x l.
Proof.
  unfold sort_matches.
  assert (H : forall acc, In x (fold_left (fun acc y => insert_sorted y acc) l acc)
                          -> In x l \/ In x acc).
  { induction l as [|y l IH]; intros acc; cbn [fold_left]; [tauto|].
    intros Hx. apply IH in Hx as [Hx|Hx]; [left; now right|].
    apply insert_sorted_In in Hx as [->|Hx]; [left; now left | now right]. }
  intros Hx. apply H in Hx as [Hx|[]]. exact Hx.
Qed.

Lemma sorted_matches_ok (text : pystr) :
  Forall entry_ok (sort_matches (find_matches text)).
Proof.
  apply Forall_forall. intros x Hx. apply sort_matches_In in Hx.
  pose proof (find_matches_ok text) as H. rewrite Forall_forall in H. auto.
Qed.

(** Without overlap, the kept gaps and captures are characters of the
    text in their order, none taken twice. *)
Lemma kept_pieces_Subseq (text : pystr) (ms : list entry) :
  Forall entry_ok ms ->
  forall pos,
    no_overlap pos ms = true ->
    Subseq (List.concat (filter nonblank (gaps_and_captures text pos ms)))
           (skipn pos text).
Proof.
  induction 1 as [|[[[start end_] format_type] m] ms Hx _ IH]; intros pos Hno.
  - cbn [gaps_and_captures]. rewrite concat_filter_cons. cbn [filter List.concat].
    rewrite app_nil_r. apply Subseq_kept.
  - cbn [no_overlap] in Hno. apply andb_true_iff in Hno as [Hle Hno].
    apply Nat.leb_le in Hle. cbn [entry_ok] in Hx.
    pose proof (chain_le _ _ _ Hx) as Hse.
    destruct (group_in_span text m start end_ Hx) as (l & r & Hg).
    cbn [gaps_and_captures]. rewrite !concat_filter_cons.
    rewrite (skipn_slice text pos start Hle), (skipn_slice text start end_ Hse), Hg.
    apply Subseq_app; [apply Subseq_kept|].
    rewrite <- !app_assoc. apply Subseq_skip_app.
    apply Subseq_app; [apply Subseq_kept|].
    apply Subseq_skip_app. now apply IH.
Qed.

End FormatFacts.

Module ShapeFacts.
Import Re StrFacts ReFacts Drafts FormatFacts.




Lemma after_run_nil (p : char -> bool) M (w : pystr) (pos : nat) (ext : list nat) :
  M w pos ext -> after_run p M w pos ext.
Proof.
  intros H. exists [], w. cbn. rewrite Nat.add_0_r. auto.
Qed.

Lemma after_run_cons (p : char -> bool) M (c : char) (w : pystr) (pos : nat)
      (ext : list nat) :
  p c = true -> after_run p M w (S pos) ext -> after_run p M (c :: w) pos ext.
Proof.
  intros Hc (u & w' & -> & Hu & HM). exists (c :: u), w'. cbn.
  rewrite Hc, Hu. repeat split.
  now replace (pos + S (List.length u)) with (S pos + List.length u) by lia.
Qed.

Lemma sound_nil {caps M} p {k} :
  sound caps M k -> forall t pos e caps',
    k t pos = Some (e, caps') ->
    exists w rest ext,
      t = w ++ rest /\ e = pos + List.length w /\ caps' = caps ++ ext /\
      after_run p M w pos ext.
Proof.
  intros Hk t pos e caps' H. destruct (Hk _ _ _ _ H) as (w & rest & ext & ? & ? & ? & ?).
  exists w, rest, ext. repeat split; try assumption. now apply after_run_nil.
Qed.

Lemma sound_cons caps M p c t pos e caps' :
  p c = true ->
  (exists w rest ext,
      t = w ++ rest /\ e = S pos + List.length w /\ caps' = caps ++ ext /\
      after_run p M w (S pos) ext) ->
  exists w rest ext,
    c :: t = w ++ rest /\ e = pos + List.length w /\ caps' = caps ++ ext /\
    after_run p M w pos ext.
Proof.
  intros Hc (w & rest & ext & -> & -> & -> & HM).
  exists (c :: w), rest, ext. cbn. repeat split; [lia|].
  now apply after_run_cons.
Qed.

Lemma greedy_sound {caps M} p {k} :
  sound caps M k -> sound caps (after_run p M) (greedy p k).
Proof.
  intros Hk t. induction t as [|c t IH]; intros pos e caps'; cbn [greedy].
  - now apply (sound_nil p).
  - destruct (p c) eqn:Hc; [|now apply (sound_nil p)].
    destruct (greedy p k t (S pos)) as [m|] eqn:E; [|now apply (sound_nil p)].
    intros [= ->]. apply sound_cons; [assumption|]. now apply IH.
Qed.

Lemma lazy_sound {caps M} p {k} :
  sound caps M k -> sound caps (after_run p M) (lazy p k).
Proof.
  intros Hk t. induction t as [|c t IH]; intros pos e caps'; cbn [lazy].
  - destruct (k [] pos) eqn:E; [|discriminate].
    intros [= ->]. now apply (sound_nil p Hk) in E.
  - destruct (k (c :: t) pos) eqn:E.
    + intros [= ->]. now apply (sound_nil p Hk) in E.
    + destruct (p c) eqn:Hc; [|discriminate].
      intros H. apply sound_cons; [assumption|]. now apply IH.
Qed.

Lemma run_sound (r : regex) : forall caps, sound caps (matches_at r) (run r caps).
Proof.
  induction r as [|i r IH]; intros caps t pos e caps'; cbn [run].
  - intros [= <- <-]. exists [], t, []. cbn. rewrite app_nil_r.
    repeat split. lia.
  - destruct i; cbn [matches_at].
    + destruct t as [|x t]; [discriminate|].
      destruct (N.eqb_spec x c) as [->|]; [|discriminate]. intros H.
      destruct (IH _ _ _ _ _ H) as (w & rest & ext & -> & -> & -> & HM).
      exists (c :: w), rest, ext. cbn. repeat split; [lia|]. eauto.
    + destruct t as [|x t]; [discriminate|].
      destruct (p x) eqn:Hx; [|discriminate]. intros H.
      destruct (IH _ _ _ _ _ H) as (w & rest & ext & -> & -> & -> & HM).
      exists (x :: w), rest, ext. cbn. repeat split; [lia|]. eauto.
    + apply (greedy_sound p (IH caps)).
    + destruct t as [|x t]; [discriminate|].
      destruct (p x) eqn:Hx; [|discriminate]. intros H.
      apply (greedy_sound p (IH caps)) in H
        as (w & rest & ext & -> & -> & -> & u & w' & -> & Hu & HM).
      exists (x :: u ++ w'), rest, ext. cbn. repeat split; [lia|].
      exists (x :: u), w'. cbn. rewrite Hx, Hu. repeat split; [discriminate|].
      now replace (pos + S (List.length u)) with (S pos + List.length u) by lia.
    + apply (lazy_sound p (IH caps)).
    + intros H.
      destruct (IH _ _ _ _ _ H) as (w & rest & ext & -> & -> & -> & HM).
      exists w, rest, (pos :: ext). rewrite <- app_assoc. cbn. eauto 10.
    + intros H.
      destruct (IH _ _ _ _ _ H) as (w & rest & ext & -> & -> & -> & HM).
      exists w, rest, (pos :: ext). rewrite <- app_assoc. cbn. eauto 10.
Qed.


Lemma skipn_S (text : pystr) (pos : nat) (c : char) (t : pystr) :
  skipn pos text = c :: t -> skipn (S pos) text = t.
Proof.
  intros H. replace (S pos) with (1 + pos) by lia.
  now rewrite <- skipn_skipn, H.
Qed.

Lemma scan_shape (r : regex) (text : pystr) (t : pystr) :
  forall pos skip,
    skipn pos text = t ->
    Forall (match_shape r text) (scan r t pos skip).
Proof.
  induction t as [|c t IH]; intros pos skip Ht; cbn [scan]; [constructor|].
  pose proof (skipn_S _ _ _ _ Ht) as Ht'.
  destruct skip; [|now apply IH].
  destruct (run r [] (c :: t) pos) as [[e caps]|] eqn:E; [|now apply IH].
  constructor; [|now apply IH].
  destruct (run_sound _ _ _ _ _ _ E) as (w & rest & ext & Hw & -> & -> & HM).
  exists w, rest. cbn. rewrite Ht. auto.
Qed.

Lemma finditer_shape (r : regex) (text : pystr) :
  Forall (match_shape r text) (finditer r text).
Proof. now apply scan_shape. Qed.

Lemma slice_of_parts (text : pystr) (s c0 c1 : nat) (a u b : pystr) :
  skipn s text = a ++ u ++ b ->
  c0 = s + List.length a -> c1 = c0 + List.length u ->
  Str.slice text c0 c1 = u.
Proof.
  intros H -> ->. unfold Str.slice.
  replace (s + List.length a + List.length u - (s + List.length a))
    with (List.length u) by lia.
  replace (s + List.length a) with (List.length a + s) by lia.
  rewrite <- skipn_skipn, H, skipn_app, skipn_all, Nat.sub_diag.
  cbn [app skipn].
  rewrite firstn_app, firstn_all, Nat.sub_diag. cbn [firstn]. apply app_nil_r.
Qed.

Lemma slice_of_match (text : pystr) (s e : nat) (w rest : pystr) :
  skipn s text = w ++ rest -> e = s + List.length w -> Str.slice text s e = w.
Proof.
  intros H ->. apply (slice_of_parts text s s (s + List.length w) [] w rest); cbn; [assumption | lia | lia].
Qed.

Ltac open_shape H :=
  cbn [matches_at Lit] in H;
  repeat match type of H with
    | exists _, _ => let x := fresh "x" in destruct H as [x H]
    | _ /\ _ => let H1 := fresh "H" in destruct H as [H1 H]
    end;
  subst.

Ltac captured Hw a u b :=
  rewrite (slice_of_parts _ _ _ _ a u b Hw)
    by (cbn [List.length]; rewrite ?length_app; cbn [List.length]; lia).

(** Every match of the formatter spans its captured text between the
    delimiters of its pattern. *)
Lemma find_matches_delimited (text : pystr) :
  Forall (span_delimited text) (find_matches text).
Proof.
  apply Forall_forall. intros x Hx. unfold find_matches in Hx.
  apply in_flat_map in Hx as ([pattern format_type] & Hp & Hx).
  apply in_map_iff in Hx as (m & <- & Hm).
  pose proof (finditer_shape pattern text) as Hs.
  rewrite Forall_forall in Hs. apply Hs in Hm as (w & rest & Hw & He & HM).
  clear Hs. destruct m as [s e caps]. cbn [m_start m_end m_caps] in *.
  unfold span_delimited, group. cbn [m_caps Nat.mul Nat.add Nat.sub].
  rewrite (slice_of_match text s e w rest Hw He).
  unfold patterns in Hp. cbn [In] in Hp.
  destruct Hp as [E|[E|[E|[E|[E|[]]]]]]; injection E as <- <-;
    open_shape HM; unfold delimited; cbn [String.eqb Ascii.eqb Bool.eqb nth].
  all: repeat (cbn [app] in Hw; rewrite <- app_assoc in Hw); cbn [app] in Hw.
  - captured Hw [ch "*"; ch "*"] x2 ([ch "*"; ch "*"] ++ rest). reflexivity.
  - captured Hw [ch "*"] x1 ([ch "*"] ++ rest). reflexivity.
  - captured Hw [ch "~"; ch "~"] x2 ([ch "~"; ch "~"] ++ rest). reflexivity.
  - captured Hw [ch "`"] x1 ([ch "`"] ++ rest). reflexivity.
  - captured Hw [ch "["] x1 (ch "]" :: ch "(" :: x7 ++ [ch ")"] ++ rest).
    assert (Hw2 : skipn s text
                  = (ch "[" :: x1 ++ [ch "]"; ch "("]) ++ x7 ++ [ch ")"] ++ rest)
      by (rewrite Hw; cbn [app]; now rewrite <- app_assoc).
    captured Hw2 (ch "[" :: x1 ++ [ch "]"; ch "("]) x7 ([ch ")"] ++ rest).
    reflexivity.
Qed.

Lemma sorted_matches_delimited (text : pystr) :
  Forall (span_delimited text) (sort_matches (find_matches text)).
Proof.
  apply Forall_forall. intros x Hx. apply sort_matches_In in Hx.
  pose proof (find_matches_delimited text) as H. rewrite Forall_forall in H. auto.
Qed.

(** Without overlap, the gaps and the spans of the matches make up the
    text. *)
Lemma gaps_and_spans_text (text : pystr) (ms : list entry) :
  Forall entry_ok ms ->
  forall pos,
    no_overlap pos ms = true ->
    List.concat (gaps_and_spans text pos ms) = skipn pos text.
Proof.
  induction 1 as [|[[[start end_] format_type] m] ms Hx _ IH]; intros pos Hno.
  - cbn. apply app_nil_r.
  - cbn [no_overlap] in Hno. apply andb_true_iff in Hno as [Hle Hno].
    apply Nat.leb_le in Hle. cbn [entry_ok] in Hx.
    pose proof (chain_le _ _ _ Hx) as Hse.
    cbn [gaps_and_spans List.concat]. rewrite (IH _ Hno).
    now rewrite (skipn_slice text pos start Hle), (skipn_slice text start end_ Hse).
Qed.


End ShapeFacts.

Import Re StrFacts ReFacts FootnoteFacts Drafts BlockFacts CompilerFacts CounterFacts.
Import CodeBlockFacts FormatFacts ShapeFacts.

(** * The properties of the compiler *)

(** C1, as amended: [parse_markup_to_json] raises no exception and
    returns a well-formed root node of type [doc] on every markup string,
    the empty one and those without pipe or double colon among them,
    unless a block of the markup is a footnote whose bracketed number has
    more than 4300 digits, the limit of [int]; on such a markup it raises
    [ValueError]. *)
Theorem compile_total_unless_oversized_footnote (markup_text : pystr) :
  (has_oversized_footnote markup_text = false ->
   exists doc,
     parse_markup_to_json markup_text = Ok doc /\ well_formed_document doc) /\
  (has_oversized_footnote markup_text = true ->
   parse_markup_to_json markup_text = Raise ValueError).
Proof.
  unfold has_oversized_footnote, parse_markup_to_json. split; intros Hover.
  - destruct (run_blocks_ok (split_blocks markup_text) Hover [] 1%Z)
      as (content & counter & -> & Hc); [constructor|].
    cbn [bind]. eexists. split; [reflexivity|].
    unfold well_formed_document, container; cbn. eauto 10.
  - now rewrite (run_blocks_raises _ Hover).
Qed.

Lemma compile_total_unless_oversized_footnote_witness :
  (exists doc,
      parse_markup_to_json (py "") = Ok doc /\ well_formed_document doc) /\
  (exists doc,
      parse_markup_to_json (py "no pipe, no tag: 12345") = Ok doc /\
      well_formed_document doc) /\
  (exists doc,
      parse_markup_to_json (py "Title:: Hi | Footnote:: [12] note | H7:: x") = Ok doc /\
      well_formed_document doc) /\
  parse_markup_to_json (py "Footnote:: [" ++ repeat (ch "7") 4301 ++ py "]")
  = Raise ValueError.
Proof.
  split; [|split; [|split]].
  - apply (proj1 (compile_total_unless_oversized_footnote (py ""))).
    vm_compute. reflexivity.
  - apply (proj1 (compile_total_unless_oversized_footnote (py "no pipe, no tag: 12345"))).
    vm_compute. reflexivity.
  - apply (proj1 (compile_total_unless_oversized_footnote
                    (py "Title:: Hi | Footnote:: [12] note | H7:: x"))).
    vm_compute. reflexivity.
  - apply (proj2 (compile_total_unless_oversized_footnote
                    (py "Footnote:: [" ++ repeat (ch "7") 4301 ++ py "]"))).
    vm_compute. reflexivity.
Defined.

(** C1, as stated, fails: a footnote whose bracketed number has 4301
    digits makes [int] raise [ValueError], which nothing catches. *)
Lemma compile_raises_on_long_footnote_number :
  parse_markup_to_json (py "Footnote:: [" ++ repeat (ch "1") 4301 ++ py "] x")
  = Raise ValueError.
Proof. vm_compute. reflexivity. Qed.

(** C6: a footnote block whose body does not begin with a bracketed
    number leaves the content and the counter as they were and raises
    nothing; [Footnote:: not-bracketed] compiles to a document without
    children. *)
Theorem footnote_without_number_dropped :
  (forall st block body,
      tagged block = Some (py "footnote", body) ->
      ~ bracketed_number body ->
      block_step st block = Ok st) /\
  parse_markup_to_json (py "Footnote:: not-bracketed") = Ok (container "doc" []).
Proof.
  split; [|vm_compute; reflexivity].
  intros [content counter] block body Ht Hn. unfold tagged in Ht.
  destruct (Str.partition (py "::") block) as [[a b]|] eqn:Hp; [|discriminate].
  injection Ht as Ha Hb.
  unfold block_step.
  destruct (Str.contains (py "::") block) eqn:Hc;
    [|rewrite (partition_contains _ _ Hc) in Hp; discriminate].
  unfold Str.split1. rewrite Hp. cbn [negb Str.unpack2 bind].
  rewrite Ha, Hb.
  destruct (Str.is_empty body); [reflexivity|].
  assert (Hm : rmatch_at_start footnote_pattern body = None).
  { apply footnote_no_match. destruct (bracketed_numberb body) eqn:E; [|reflexivity].
    now apply bracketed_numberb_spec in E. }
  rewrite Hm. reflexivity.
Qed.

Lemma footnote_without_number_dropped_witness :
  block_step ([leaf "horizontal_rule"], 3%Z) (py "FootNote :: (1) not-bracketed")
  = Ok ([leaf "horizontal_rule"], 3%Z).
Proof.
  apply (proj1 footnote_without_number_dropped) with (body := py "(1) not-bracketed").
  - vm_compute. reflexivity.
  - intros (ds & rest & E & _). discriminate E.
Defined.

(** C7: the counter starts at 1 and moves once per LaTeX block that is
    processed, and by nothing else; the [k]-th LaTeX block of a markup
    gets the identifier [EQUATION_k], whatever was compiled before. *)
Theorem latex_blocks_numbered_from_one (markup_text : pystr) (doc : node) :
  parse_markup_to_json markup_text = Ok doc ->
  exists children counter,
    run_blocks (split_blocks markup_text) ([], 1%Z) = Ok (children, counter) /\
    content doc = Some children /\
    counter = (1 + Z.of_nat (latex_block_count markup_text))%Z /\
    latex_ids children = map equation_id (seq 1 (latex_block_count markup_text)).
Proof.
  unfold parse_markup_to_json, latex_block_count. intros H.
  destruct (run_blocks (split_blocks markup_text) ([], 1%Z)) as [[children counter]|] eqn:E;
    [|discriminate].
  cbn [bind] in H. injection H as <-.
  apply run_blocks_latex in E as [Hc Hi].
  exists children, counter. repeat split; try assumption.
  rewrite Hi. cbn [latex_ids flat_map app].
  rewrite <- seq_shift, map_map. apply map_ext. intros i.
  unfold equation_of, equation_id. do 4 f_equal. lia.
Qed.

Lemma latex_blocks_numbered_from_one_witness :
  exists children counter,
    run_blocks (split_blocks (py "LaTeX:: a | Footnote:: [1] f | latex:: b | LaTeX:: "))
               ([], 1%Z) = Ok (children, counter) /\
    content (container "doc"
               [leaf_with "latex_block"
                  [("persistentExpression", VStr (py "a"));
                   ("id", VStr (py "EQUATION_1"))];
                container_with "footnote" [("number", VInt 1)]
                  [plain_paragraph (py "f")];
                leaf_with "latex_block"
                  [("persistentExpression", VStr (py "b"));
                   ("id", VStr (py "EQUATION_2"))]]) = Some children /\
    counter = 3%Z /\
    latex_ids children = [equation_id 1; equation_id 2].
Proof.
  apply (latex_blocks_numbered_from_one
           (py "LaTeX:: a | Footnote:: [1] f | latex:: b | LaTeX:: ")).
  vm_compute. reflexivity.
Defined.

(** C9: no block of a markup has a pipe in it, since the markup is split
    at the pipes first, so the branch of the code block that reads a
    language is never taken: every [code_block] node of the document has
    the language [None]. *)
Theorem code_block_language_none (markup_text : pystr) (doc : node) :
  parse_markup_to_json markup_text = Ok doc ->
  (forall b, In b (split_blocks markup_text) -> ~ In (ch "|") b) /\
  forall children n,
    content doc = Some children -> In n children -> type n = "code_block" ->
    exists a, attrs n = Some a /\ lookup "language" a = Some VNone.
Proof.
  intros H.
  assert (Hb : forall b, In b (split_blocks markup_text) -> ~ In (ch "|") b)
    by (intros b Hin; apply (split_blocks_In _ _ Hin)).
  split; [exact Hb|].
  unfold parse_markup_to_json in H.
  destruct (run_blocks (split_blocks markup_text) ([], 1%Z)) as [[content counter]|] eqn:E;
    [|discriminate].
  cbn [bind] in H. injection H as <-.
  intros children n [= <-] Hin Hty.
  apply run_blocks_language in E; [|exact Hb|constructor].
  rewrite Forall_forall in E. rewrite (E n Hin Hty). eauto.
Qed.

Lemma code_block_language_none_witness :
  (forall b, In b (split_blocks (py "Code:: python | print(1)")) -> ~ In (ch "|") b) /\
  forall children n,
    content (container "doc"
               [container_with "code_block" [("language", VNone)] [text_node (py "python")];
                container "paragraph" [text_node (py "print(1)")]]) = Some children ->
    In n children -> type n = "code_block" ->
    exists a, attrs n = Some a /\ lookup "language" a = Some VNone.
Proof.
  apply (code_block_language_none (py "Code:: python | print(1)")).
  vm_compute. reflexivity.
Defined.

(** C4, as amended: for every text that is not empty, every run of
    [parse_inline_formatting] has a text that is not empty. *)
Theorem runs_nonempty_on_nonempty_text (text : pystr) :
  text <> [] ->
  Forall (fun elem => get_text elem <> []) (parse_inline_formatting text).
Proof.
  intros Hne. apply Forall_map with (f := get_text) (P := fun t => t <> []).
  rewrite formatter_texts. unfold expected_run_texts.
  destruct (filter nonblank _) as [|t l] eqn:E.
  - now constructor.
  - rewrite <- E. apply Forall_forall. intros x Hx.
    apply filter_In in Hx as [_ Hx]. now apply nonblank_nonempty.
Qed.

Lemma runs_nonempty_on_nonempty_text_witness :
  Forall (fun elem => get_text elem <> []) (parse_inline_formatting (py "** ")).
Proof.
  apply runs_nonempty_on_nonempty_text. discriminate.
Defined.

(** C4, as stated, fails: the empty text comes back as one run whose text
    is empty. *)
Lemma empty_text_gives_empty_run :
  ~ Forall (fun elem => get_text elem <> []) (parse_inline_formatting (py "")).
Proof.
  intros H. vm_compute in H. inversion H as [|x l Hx _]; subst. now apply Hx.
Qed.

(** C3: on ["a **b** c"] the code does not return the three runs of the
    claim: the italic pattern matches the two pairs of asterisks, the
    cursor goes back behind the bold span, and [b] is returned a second
    time as a plain run. *)
Theorem bold_example_repeats_bold_text :
  parse_inline_formatting (py "a **b** c")
  = [ text_node (py "a ");
      marked_text (py "b") [{| mark_type := "strong"; mark_attrs := None |}];
      text_node (py "b");
      text_node (py " c") ].
Proof. vm_compute. reflexivity. Qed.

(** C5: ["Text:: |  | Text:: x"] and ["Text:: x"] compile to the same
    document, with one paragraph holding [x]; a tagged block whose body is
    empty after trimming leaves the content as it was. *)
Theorem empty_blocks_contribute_nothing :
  parse_markup_to_json (py "Text:: |  | Text:: x")
  = parse_markup_to_json (py "Text:: x") /\
  parse_markup_to_json (py "Text:: x")
  = Ok (container "doc" [container "paragraph" [text_node (py "x")]]) /\
  forall st block tag,
    tagged block = Some (tag, []) -> block_step st block = Ok st.
Proof.
  split; [vm_compute; reflexivity|]. split; [vm_compute; reflexivity|].
  intros [content counter] block tag Ht. unfold tagged in Ht.
  destruct (Str.partition (py "::") block) as [[a b]|] eqn:Hp; [|discriminate].
  injection Ht as _ Hb. unfold block_step.
  destruct (Str.contains (py "::") block) eqn:Hc;
    [|rewrite (partition_contains _ _ Hc) in Hp; discriminate].
  unfold Str.split1. rewrite Hp. cbn [negb Str.unpack2 bind].
  rewrite Hb. reflexivity.
Qed.

Lemma empty_blocks_contribute_nothing_witness :
  block_step ([leaf "horizontal_rule"], 1%Z) (py "Text::  ")
  = Ok ([leaf "horizontal_rule"], 1%Z).
Proof.
  apply (proj2 (proj2 empty_blocks_contribute_nothing)) with (tag := py "text").
  vm_compute. reflexivity.
Defined.

(** C8: ["[x](http://y)"] gives one run with the text [x] and one link
    mark with href [http://y], target [_blank], rel
    [noopener noreferrer nofollow] and class [None]. *)
Theorem link_example_attributes :
  parse_inline_formatting (py "[x](http://y)")
  = [ {| type := "text"; attrs := None; text := Some (py "x");
         marks := Some [ {| mark_type := "link";
                            mark_attrs :=
                              Some [ ("href", VStr (py "http://y"));
                                     ("target", VStr (py "_blank"));
                                     ("rel", VStr (py "noopener noreferrer nofollow"));
                                     ("class", VNone) ] |} ];
         content := None |} ].
Proof. vm_compute. reflexivity. Qed.

(** C10: the two copies of the compiler return the same document, or
    raise the same exception, on every markup, and the two copies of the
    formatter return the same runs on every text. *)
Theorem copies_agree :
  (forall markup_text,
      Drafts.parse_markup_to_json markup_text
      = DraftCreate.parse_markup_to_json markup_text) /\
  (forall text,
      Drafts.parse_inline_formatting text = DraftCreate.parse_inline_formatting text).
Proof. split; intros; reflexivity. Qed.

(** * Further properties of the formatter *)

Module RunFacts.
Import Re StrFacts ReFacts Drafts FormatFacts.

(** A pattern that begins with a literal finds nothing in a text without
    that character. *)
Lemma scan_without_first (c : char) (r : regex) (t : pystr) :
  ~ In c t -> forall pos skip, scan (Chr c :: r) t pos skip = [].
Proof.
  induction t as [|x t IH]; intros Hn pos skip; cbn [scan]; [reflexivity|].
  assert (Ht : ~ In c t) by (intros H; apply Hn; now right).
  destruct skip; [|now apply IH].
  cbn [run]. destruct (N.eqb_spec x c) as [->|_].
  - exfalso. apply Hn. now left.
  - now apply IH.
Qed.

Lemma marker_free_spec (text : pystr) (c : char) :
  marker_free text = true ->
  In c [ch "*"; ch "~"; ch "`"; ch "["] -> ~ In c text.
Proof.
  unfold marker_free. rewrite forallb_forall. intros Hf Hc Hin.
  apply Hf in Hin. apply negb_true_iff in Hin.
  assert (existsb (N.eqb c) [ch "*"; ch "~"; ch "`"; ch "["] = true).
  { apply existsb_exists. exists c. split; [assumption | apply N.eqb_refl]. }
  congruence.
Qed.

Lemma find_matches_marker_free (text : pystr) :
  marker_free text = true -> find_matches text = [].
Proof.
  intros Hf. unfold find_matches, patterns, finditer, Lit. cbn [flat_map].
  rewrite !scan_without_first; [reflexivity|..];
    apply (marker_free_spec _ _ Hf); cbn; auto 6.
Qed.

(** The entries of [matches] carry the format types of the patterns. *)
Lemma find_matches_types (text : pystr) :
  Forall (fun x : entry =>
            In (snd (fst x)) ["strong"; "em"; "strikethrough"; "code"; "link"])
         (find_matches text).
Proof.
  apply Forall_forall. intros x Hx. unfold find_matches in Hx.
  apply in_flat_map in Hx as ([pattern format_type] & Hp & Hx).
  apply in_map_iff in Hx as (m & <- & _). cbn [fst snd].
  unfold patterns in Hp. cbn [In] in Hp.
  destruct Hp as [E|[E|[E|[E|[E|[]]]]]]; injection E as _ <-; cbn; auto 6.
Qed.

Lemma match_step_runs (text : pystr) (elements : list node) (pos : nat) (x : entry) :
  In (snd (fst x)) ["strong"; "em"; "strikethrough"; "code"; "link"] ->
  Forall text_run elements ->
  Forall text_run (fst (match_step text (elements, pos) x)).
Proof.
  destruct x as [[[start end_] format_type] m]. cbn [fst snd]. intros Hty He.
  unfold match_step. cbn [fst].
  assert (Hplain : Forall text_run
                     (if Nat.ltb pos start then
                        if negb (Str.is_empty (Str.slice text pos start))
                        then elements ++ [text_node (Str.slice text pos start)]
                        else elements
                      else elements)).
  { destruct (Nat.ltb pos start); [|assumption].
    destruct (negb _); [|assumption].
    apply Forall_app. split; [assumption|]. constructor; [|constructor].
    unfold text_run, text_node. cbn. eauto 10. }
  destruct (String.eqb_spec format_type "link") as [->|Hl];
    (apply Forall_app; split; [assumption|]); (constructor; [|constructor]);
    unfold text_run, marked_text; cbn; repeat split; eauto.
  - right. eexists. split; [reflexivity|]. right. unfold link_mark. cbn. eauto.
  - right. eexists. split; [reflexivity|]. left. cbn [mark_type mark_attrs].
    split; [|reflexivity]. cbn [In] in *. intuition congruence.
Qed.

End RunFacts.

Import RunFacts.

(** X1: a text without asterisk, tilde, backquote or opening bracket
    comes back as one plain run holding the whole text, be it empty or
    blank. *)
Theorem plain_text_is_one_run (text : pystr) :
  marker_free text = true ->
  parse_inline_formatting text = [text_node text].
Proof.
  intros Hf. unfold parse_inline_formatting.
  rewrite (find_matches_marker_free _ Hf). cbn [sort_matches fold_left].
  destruct text as [|c t]; [reflexivity|].
  cbn [List.length Nat.ltb Nat.leb Str.slice_from skipn Str.is_empty negb app filter].
  destruct (has_text (text_node (c :: t))); reflexivity.
Qed.

Lemma plain_text_is_one_run_witness :
  parse_inline_formatting (py "no markers (here), 2 > 1")
  = [text_node (py "no markers (here), 2 > 1")].
Proof. apply plain_text_is_one_run. vm_compute. reflexivity. Defined.

(** X2: every run of the formatter is a text node with no mark or with
    exactly one mark, bare [strong], [em], [strikethrough] or [code], or a
    link with its href, target, rel and class: no run is formatted
    twice. *)
Theorem runs_have_at_most_one_mark (text : pystr) :
  Forall text_run (parse_inline_formatting text).
Proof.
  assert (Hplain : forall t, text_run (text_node t))
    by (intros t; unfold text_run, text_node; cbn; eauto 10).
  unfold parse_inline_formatting.
  assert (Hw : forall ms elements pos,
             Forall (fun x : entry =>
                       In (snd (fst x)) ["strong"; "em"; "strikethrough"; "code"; "link"]) ms ->
             Forall text_run elements ->
             Forall text_run (fst (fold_left (match_step text) ms (elements, pos)))).
  { induction ms as [|x ms IH]; intros elements pos Hms He; cbn [fold_left]; [assumption|].
    inversion Hms as [|? ? Hx Hms']; subst.
    pose proof (match_step_runs text elements pos x Hx He) as H1.
    destruct (match_step text (elements, pos) x) as [elements1 pos1]. now apply IH. }
  specialize (Hw (sort_matches (find_matches text)) [] 0).
  destruct (fold_left _ _ _) as [elements pos]. cbn [fst] in Hw.
  assert (He : Forall text_run elements).
  { apply Hw; [|constructor]. apply Forall_forall. intros x Hx.
    apply sort_matches_In in Hx.
    pose proof (find_matches_types text) as H. rewrite Forall_forall in H. auto. }
  cbv zeta.
  set (els := if Nat.ltb pos (List.length text) then _ else _).
  assert (Hels : Forall text_run els).
  { subst els. destruct (Nat.ltb _ _); [|assumption].
    destruct (negb _); [|assumption].
    apply Forall_app. split; [assumption|]. constructor; [apply Hplain | constructor]. }
  assert (Hels' : Forall text_run (match els with [] => [text_node text] | _ :: _ => els end)).
  { destruct els; [constructor; [apply Hplain | constructor] | assumption]. }
  apply (incl_Forall (incl_filter has_text _)) in Hels'.
  destruct (filter has_text _); [constructor; [apply Hplain | constructor] | assumption].
Qed.

(** * Further properties of the block compiler *)

Module SchemaFacts.
Import Re StrFacts ReFacts FootnoteFacts Drafts BlockFacts CompilerFacts CounterFacts.

(** A property of the nodes each block adds holds of the whole content. *)
Lemma run_blocks_Forall (P : node -> Prop) (blocks : list pystr) :
  (forall b counter,
      In b blocks -> when_ok (fun nodes _ => Forall P nodes) (block_nodes counter b)) ->
  forall content counter content' counter',
    Forall P content ->
    run_blocks blocks (content, counter) = Ok (content', counter') ->
    Forall P content'.
Proof.
  induction blocks as [|b blocks IH]; intros Hb content counter content' counter' Hc;
    cbn [run_blocks].
  - now intros [= <- <-].
  - rewrite block_step_append.
    pose proof (Hb b counter (or_introl eq_refl)) as Hn.
    destruct (block_nodes counter b) as [[nodes counter1]|]; [|discriminate].
    cbn [append_to bind when_ok] in *.
    apply IH; [intros; apply Hb; now right|].
    apply Forall_app. now split.
Qed.

Lemma heading_level_range (block_type : pystr) :
  existsb (is_tag block_type) ["h1"; "h2"; "h3"; "h4"; "h5"; "h6"] = true ->
  exists c level,
    Str.index block_type 1 = Ok c /\ Str.int [c] = Ok level /\ (1 <= level <= 6)%Z.
Proof.
  cbn [existsb]. rewrite !orb_true_iff. unfold is_tag. rewrite !eqb_eq.
  intros [->|[->|[->|[->|[->|[->|H]]]]]]; try discriminate H;
    eexists _, _; (split; [reflexivity|]); (split; [reflexivity|]);
    vm_compute; split; discriminate.
Qed.

Lemma in_block_schema (x : string * option (list string)) :
  existsb (fun y => String.eqb (fst x) (fst y)
                    && match snd x, snd y with
                       | None, None => true
                       | Some k, Some k' =>
                           if list_eq_dec string_dec k k' then true else false
                       | _, _ => false
                       end) block_schema = true ->
  In x block_schema.
Proof.
  rewrite existsb_exists. intros ([ty ks] & Hin & E). destruct x as [ty' ks'].
  cbn [fst snd] in E. apply andb_true_iff in E as [E1 E2].
  apply String.eqb_eq in E1. subst ty'.
  destruct ks' as [k'|], ks as [k|]; try discriminate.
  - destruct (list_eq_dec string_dec k' k); [now subst | discriminate].
  - assumption.
Qed.

Ltac other_type := intros H; discriminate H.

Ltac shaped :=
  cbn;
  repeat (apply Forall_nil
          || (apply Forall_cons;
              [ split;
                [ apply in_block_schema; reflexivity
                | first [ other_type
                        | intros _; eexists; split;
                          [reflexivity | vm_compute; split; discriminate] ] ]
              | ])).

Ltac next_tag :=
  lazymatch goal with
  | |- when_ok _ (if ?c then _ else _) =>
      let H := fresh "Htag" in destruct c eqn:H; [try (solve [shaped])|]
  end.

(** What a block adds follows the schema. *)
Lemma block_nodes_schema (counter : Z) (block : pystr) :
  when_ok (fun nodes _ => Forall follows_schema nodes) (block_nodes counter block).
Proof.
  unfold block_nodes, block_step.
  destruct (Str.contains (py "::") block) eqn:Hc; cbn [negb]; [|shaped].
  destruct (unpack2_split1 _ _ Hc) as (a & b & Hp & ->). cbn [bind].
  repeat next_tag.
  - (* h1 to h6 *)
    match goal with H : existsb _ _ = true |- _ =>
      destruct (heading_level_range _ H) as (c & level & Hi & Hl & Hr) end.
    rewrite Hi. cbn [bind]. rewrite Hl. cbn.
    apply Forall_cons; [|apply Forall_nil]. split.
    + apply in_block_schema. reflexivity.
    + intros _. exists level. split; [reflexivity | exact Hr].
  - (* code *)
    match goal with |- when_ok _ (let '(_, _) := ?x in _) => destruct x end. shaped.
  - (* button *)
    destruct (Str.contains (py "->") _); [destruct (Str.unpack2 _) as [[? ?]|]|];
      try exact I; shaped.
  - (* subscribewidget *)
    destruct (Str.contains (py ">>") _); [destruct (Str.unpack2 _) as [[? ?]|]|];
      try exact I; shaped.
  - (* sharewidget *)
    destruct (Str.contains (py ">>") _); [destruct (Str.unpack2 _) as [[? ?]|]|];
      try exact I; shaped.
  - (* footnote *)
    destruct (rmatch_at_start _ _) as [m|]; [|shaped].
    destruct (Str.int _) as [num|]; [|exact I]. shaped.
  - (* unknown tag *)
    shaped.
Qed.

End SchemaFacts.

Import SchemaFacts.

(** X3: in a compiled document the attribute keys of every top-level
    node are the ones of its type, and every heading has an integer level
    from 1 to 6. *)
Theorem document_follows_schema (markup_text : pystr) (doc : node) :
  parse_markup_to_json markup_text = Ok doc ->
  exists children,
    content doc = Some children /\ Forall follows_schema children.
Proof.
  unfold parse_markup_to_json. intros H.
  destruct (run_blocks (split_blocks markup_text) ([], 1%Z)) as [[children counter]|] eqn:E;
    [|discriminate].
  cbn [bind] in H. injection H as <-. exists children. split; [reflexivity|].
  eapply run_blocks_Forall; [| |exact E]; [|constructor].
  intros b c _. apply block_nodes_schema.
Qed.

Lemma document_follows_schema_witness :
  exists children,
    content (container "doc"
               [container_with "heading" [("level", VInt 4)] [text_node (py "x")];
                button (py "u") (py "t")]) = Some children /\
    Forall follows_schema children.
Proof.
  apply (document_follows_schema (py "H4:: x | Button:: t -> u")).
  vm_compute. reflexivity.
Defined.

Module DispatchFacts.
Import Re StrFacts ReFacts FootnoteFacts Drafts BlockFacts CompilerFacts CounterFacts.

(** A block with a tag is read through its first double colon. *)
Lemma tagged_split (block tag body : pystr) :
  tagged block = Some (tag, body) ->
  exists a b,
    Str.contains (py "::") block = true /\
    Str.unpack2 (Str.split1 (py "::") block) = Ok (a, b) /\
    Str.lower (Str.strip a) = tag /\ Str.strip b = body.
Proof.
  unfold tagged. destruct (Str.partition (py "::") block) as [[a b]|] eqn:Hp;
    [|discriminate].
  intros [= <- <-]. exists a, b.
  destruct (Str.contains (py "::") block) eqn:Hc;
    [|rewrite (partition_contains _ _ Hc) in Hp; discriminate].
  unfold Str.split1. rewrite Hp. auto.
Qed.

Lemma untagged_split (block : pystr) :
  tagged block = None -> Str.contains (py "::") block = false.
Proof.
  unfold tagged. destruct (Str.contains (py "::") block) eqn:Hc; [|reflexivity].
  destruct (contains_partition _ _ Hc) as (a & b & ->). discriminate.
Qed.

End DispatchFacts.

Import DispatchFacts.

(** X4: a block whose tag, lowered and trimmed, is none of the tags of
    the dispatch is dropped: the content and the counter stay as they were
    and nothing is raised. *)
Theorem unknown_tag_dropped (st : list node * Z) (block tag body : pystr) :
  tagged block = Some (tag, body) ->
  ~ In tag (map py known_tags) ->
  block_step st block = Ok st.
Proof.
  intros Ht Hn. destruct (tagged_split _ _ _ Ht) as (a & b & Hc & Hu & Ha & Hb).
  assert (Hno : forall X, In X known_tags -> is_tag tag X = false).
  { intros X HX. unfold is_tag. destruct (Str.eqb tag (py X)) eqn:E; [|reflexivity].
    apply eqb_eq in E. exfalso. apply Hn. rewrite E. now apply in_map. }
  destruct st as [content counter]. unfold block_step.
  rewrite Hc, Hu. cbn [negb bind]. rewrite Ha, Hb. cbn [existsb].
  rewrite !Hno by (unfold known_tags; cbn [In]; tauto).
  now destruct (Str.is_empty body).
Qed.

Lemma unknown_tag_dropped_witness :
  block_step ([leaf "horizontal_rule"], 2%Z) (py "Image:: https://example.org/a.png")
  = Ok ([leaf "horizontal_rule"], 2%Z).
Proof.
  apply unknown_tag_dropped
    with (tag := py "image") (body := py "https://example.org/a.png").
  - vm_compute. reflexivity.
  - vm_compute. intuition discriminate.
Defined.

(** X5: the dispatch reads a tagged block only through its tag, lowered
    and trimmed, and its trimmed body: two blocks that agree on both are
    processed alike, whatever the case of the tag and the blanks around
    tag and body. *)
Theorem same_tag_and_body_same_result (st : list node * Z) (block block' : pystr) :
  tagged block <> None ->
  tagged block = tagged block' ->
  block_step st block = block_step st block'.
Proof.
  intros Hsome Heq. destruct (tagged block) as [[tag body]|] eqn:Ht; [|congruence].
  symmetry in Heq.
  destruct (tagged_split _ _ _ Ht) as (a & b & Hc & Hu & Ha & Hb).
  destruct (tagged_split _ _ _ Heq) as (a' & b' & Hc' & Hu' & Ha' & Hb').
  destruct st as [content counter]. unfold block_step.
  rewrite Hc, Hu, Hc', Hu'. cbn [negb bind]. now rewrite Ha, Hb, Ha', Hb'.
Qed.

Lemma same_tag_and_body_same_result_witness :
  block_step ([], 1%Z) (py "  QUOTE ::to be  ") = block_step ([], 1%Z) (py "quote::   to be").
Proof.
  apply same_tag_and_body_same_result.
  - vm_compute. discriminate.
  - vm_compute. reflexivity.
Defined.

(** X6: a button block without an arrow gets the url [#] and its whole
    body as text; with an arrow, text and url are the trimmed parts before
    and after the first arrow, so that a later arrow stays in the url. *)
Theorem button_text_and_url (content : list node) (counter : Z) (block body : pystr) :
  tagged block = Some (py "button", body) ->
  body <> [] ->
  match Str.partition (py "->") body with
  | None =>
      block_step (content, counter) block
      = Ok (content ++ [button (py "#") body], counter)
  | Some (before, after) =>
      block_step (content, counter) block
      = Ok (content ++ [button (Str.strip after) (Str.strip before)], counter)
  end.
Proof.
  intros Ht Hne. destruct (tagged_split _ _ _ Ht) as (a & b & Hc & Hu & Ha & Hb).
  unfold block_step. rewrite Hc, Hu. cbn [negb bind]. rewrite Ha, Hb.
  destruct body as [|c body]; [congruence|]. cbn [Str.is_empty].
  change (if is_tag (py "button") "title" then _ else _)
    with ('(text, url) <-
            (if Str.contains (py "->") (c :: body) then
               '(text, url) <- Str.unpack2 (Str.split1 (py "->") (c :: body)) ;;
               Ok (Str.strip text, Str.strip url)
             else Ok (c :: body, py "#")) ;;
          Ok (content ++ [button url text], counter)).
  destruct (Str.contains (py "->") (c :: body)) eqn:Hb'.
  - destruct (unpack2_split1 _ _ Hb') as (t & u & -> & ->). reflexivity.
  - now rewrite (partition_contains _ _ Hb').
Qed.

Lemma button_text_and_url_witness :
  block_step ([], 1%Z) (py "Button:: Go -> a->b")
  = Ok ([button (py "a->b") (py "Go")], 1%Z).
Proof.
  apply (button_text_and_url [] 1%Z (py "Button:: Go -> a->b") (py "Go -> a->b")).
  - vm_compute. reflexivity.
  - discriminate.
Defined.

Module ListFacts.
Import Re StrFacts ReFacts FootnoteFacts Drafts BlockFacts CompilerFacts CounterFacts.
Import ShapeFacts DispatchFacts.

Lemma skipn_In (A : Type) (n : nat) (l : list A) (x : A) :
  In x (skipn n l) -> In x l.
Proof.
  intros H. rewrite <- (firstn_skipn n l). apply in_or_app. now right.
Qed.

(** The number marker is found only where there is a dot. *)
Lemma number_marker_needs_dot (body : pystr) :
  ~ In (ch ".") body -> finditer number_marker body = [].
Proof.
  intros Hn. pose proof (finditer_shape number_marker body) as Hs.
  destruct (finditer number_marker body) as [|m ms]; [reflexivity|].
  inversion Hs as [|? ? (w & rest & Hw & _ & HM) _]; subst. exfalso.
  cbn [matches_at number_marker Lit] in HM.
  destruct HM as (u & w' & -> & _ & _ & w'' & -> & _).
  apply Hn. apply (skipn_In _ (m_start m)). rewrite Hw.
  rewrite !in_app_iff. left. right. now left.
Qed.

Lemma lstrip_head (c : char) (s : pystr) :
  Str.isspace c = false -> Str.lstrip (c :: s) = c :: s.
Proof. intros H. cbn. now rewrite H. Qed.

Lemma rstrip_head (c : char) (s : pystr) :
  Str.isspace c = false -> exists r, Str.rstrip (c :: s) = c :: r.
Proof.
  intros H. cbn [Str.rstrip]. destruct (Str.rstrip s); [rewrite H|]; eauto.
Qed.

Lemma rstrip_idem (s : pystr) : Str.rstrip (Str.rstrip s) = Str.rstrip s.
Proof.
  induction s as [|c s IH]; [reflexivity|]. cbn [Str.rstrip].
  destruct (Str.rstrip s) as [|d r] eqn:E.
  - destruct (Str.isspace c) eqn:Hc; [reflexivity|]. cbn. now rewrite Hc.
  - change (Str.rstrip (c :: d :: r))
      with (match Str.rstrip (d :: r) with
            | [] => if Str.isspace c then [] else [c]
            | x :: r' => c :: x :: r'
            end).
    now rewrite IH.
Qed.

(** Trimming twice is trimming once. *)
Lemma strip_idem (s : pystr) : Str.strip (Str.strip s) = Str.strip s.
Proof.
  unfold Str.strip.
  assert (Hl : Str.lstrip (Str.rstrip (Str.lstrip s)) = Str.rstrip (Str.lstrip s)).
  { induction s as [|c s IH]; [reflexivity|]. cbn [Str.lstrip].
    destruct (Str.isspace c) eqn:Hc; [exact IH|].
    destruct (rstrip_head c s Hc) as [r ->]. now apply lstrip_head. }
  rewrite Hl. apply rstrip_idem.
Qed.

Lemma split_absent (sep : char) (s : pystr) :
  ~ In sep s -> Str.split sep s = [s].
Proof.
  induction s as [|c s IH]; intros Hn; cbn [Str.split]; [reflexivity|].
  destruct (N.eqb_spec c sep) as [->|_]; [exfalso; apply Hn; now left|].
  rewrite IH; [reflexivity|]. intros H. apply Hn. now right.
Qed.

End ListFacts.

Import ListFacts.

(** X7: a numbered list whose body has no dot has no number marker: the
    block gives an ordered list without items, and the text of the body
    is lost. *)
Theorem numberlist_without_marker_is_empty
        (content : list node) (counter : Z) (block body : pystr) :
  tagged block = Some (py "numberlist", body) ->
  body <> [] ->
  ~ In (ch ".") body ->
  block_step (content, counter) block
  = Ok (content ++ [container_with "ordered_list"
                      [("start", VInt 1); ("order", VInt 1)] []],
        counter).
Proof.
  intros Ht Hne Hdot. destruct (tagged_split _ _ _ Ht) as (a & b & Hc & Hu & Ha & Hb).
  unfold block_step. rewrite Hc, Hu. cbn [negb bind]. rewrite Ha, Hb.
  destruct body as [|c body]; [congruence|]. cbn [Str.is_empty].
  change (if is_tag (py "numberlist") "title" then _ else _)
    with (Ok (content ++ [container_with "ordered_list"
                            [("start", VInt 1); ("order", VInt 1)]
                            (list_items
                               (stripped_nonempty
                                  (tl (Re.split number_marker (c :: body)))))],
              counter) : result (list node * Z)).
  unfold Re.split. now rewrite (number_marker_needs_dot _ Hdot).
Qed.

Lemma numberlist_without_marker_is_empty_witness :
  block_step ([], 1%Z) (py "NumberList:: first, second")
  = Ok ([container_with "ordered_list" [("start", VInt 1); ("order", VInt 1)] []], 1%Z).
Proof.
  apply (numberlist_without_marker_is_empty [] 1%Z _ (py "first, second")).
  - vm_compute. reflexivity.
  - discriminate.
  - vm_compute. intuition discriminate.
Defined.

(** X8: a bullet list whose body has no bullet character keeps its text:
    the block gives a list with one item, the formatted body. *)
Theorem list_without_bullet_is_one_item
        (content : list node) (counter : Z) (block body : pystr) :
  tagged block = Some (py "list", body) ->
  body <> [] ->
  ~ In bullet body ->
  block_step (content, counter) block
  = Ok (content ++ [container "bullet_list"
                      [container "list_item"
                         [container "paragraph" (parse_inline_formatting body)]]],
        counter).
Proof.
  intros Ht Hne Hb0. destruct (tagged_split _ _ _ Ht) as (a & b & Hc & Hu & Ha & Hb).
  unfold block_step. rewrite Hc, Hu. cbn [negb bind]. rewrite Ha, Hb.
  assert (Hs : Str.strip body = body) by (rewrite <- Hb; apply strip_idem).
  destruct body as [|c body]; [congruence|]. cbn [Str.is_empty].
  change (if is_tag (py "list") "title" then _ else _)
    with (Ok (content ++ [container "bullet_list"
                            (list_items
                               (stripped_nonempty (Str.split bullet (c :: body))))],
              counter) : result (list node * Z)).
  rewrite (split_absent _ _ Hb0). unfold stripped_nonempty. cbn [filter].
  rewrite Hs. cbn [Str.is_empty negb map]. now rewrite Hs.
Qed.

Lemma list_without_bullet_is_one_item_witness :
  block_step ([], 1%Z) (py "List:: only one")
  = Ok ([container "bullet_list"
           [container "list_item"
              [container "paragraph" (parse_inline_formatting (py "only one"))]]], 1%Z).
Proof.
  apply (list_without_bullet_is_one_item [] 1%Z _ (py "only one")).
  - vm_compute. reflexivity.
  - discriminate.
  - vm_compute. intuition discriminate.
Defined.

Module ComposeFacts.
Import Re StrFacts ReFacts FootnoteFacts Drafts BlockFacts CompilerFacts CounterFacts.

(** [(a + sep + b).split(sep) == a.split(sep) + b.split(sep)]. *)
Lemma split_app (sep : char) (a b : pystr) :
  Str.split sep (a ++ sep :: b) = Str.split sep a ++ Str.split sep b.
Proof.
  induction a as [|c a IH]; cbn [app Str.split].
  - now rewrite N.eqb_refl.
  - destruct (N.eqb c sep); [now rewrite IH|]. rewrite IH.
    pose proof (split_nonempty sep a) as Hn.
    destruct (Str.split sep a) as [|p ps]; [contradiction|reflexivity].
Qed.

Lemma stripped_nonempty_app (l r : list pystr) :
  stripped_nonempty (l ++ r) = stripped_nonempty l ++ stripped_nonempty r.
Proof. unfold stripped_nonempty. now rewrite filter_app, map_app. Qed.

(** The blocks of two markups joined by a pipe are the blocks of the
    first and then those of the second. *)
Lemma split_blocks_joined (a b : pystr) :
  split_blocks (joined a b) = split_blocks a ++ split_blocks b.
Proof.
  unfold split_blocks, joined, Str.replace. rewrite map_app. cbn [map].
  change (if (ch "|" =? ch ";")%N then ch "," else ch "|") with (ch "|").
  now rewrite split_app, stripped_nonempty_app.
Qed.

Lemma run_blocks_app (l r : list pystr) :
  forall st, run_blocks (l ++ r) st = (st' <- run_blocks l st ;; run_blocks r st').
Proof.
  induction l as [|b l IH]; intros st; cbn [app run_blocks bind]; [reflexivity|].
  destruct (block_step st b) as [st1|e]; cbn [bind]; [apply IH|reflexivity].
Qed.

(** The loop only appends to the content it is given. *)
Lemma run_blocks_append (blocks : list pystr) :
  forall content counter,
    run_blocks blocks (content, counter)
    = append_to content (run_blocks blocks ([], counter)).
Proof.
  induction blocks as [|b blocks IH]; intros content counter; cbn [run_blocks].
  - cbn. now rewrite app_nil_r.
  - rewrite block_step_append, (block_step_append [] counter b).
    destruct (block_nodes counter b) as [[nodes counter1]|e]; cbn [append_to bind app];
      [|reflexivity].
    rewrite IH, (IH nodes).
    destruct (run_blocks blocks ([], counter1)) as [[nodes' counter2]|e];
      cbn [append_to]; [|reflexivity].
    now rewrite app_assoc.
Qed.

(** A string of blanks is trimmed to nothing. *)
Lemma strip_blank (s : pystr) : forallb Str.isspace s = true -> Str.strip s = [].
Proof.
  unfold Str.strip. induction s as [|c s IH]; cbn [forallb Str.lstrip]; [reflexivity|].
  intros H. apply andb_true_iff in H as [-> H]. now apply IH.
Qed.

Lemma split_blank (sep : char) (s : pystr) :
  forallb (fun c => Str.isspace c || (c =? sep)%N) s = true ->
  Forall (fun p => forallb Str.isspace p = true) (Str.split sep s).
Proof.
  induction s as [|c s IH]; cbn [forallb Str.split]; [repeat constructor|].
  intros H. apply andb_true_iff in H as [Hc H]. specialize (IH H).
  destruct (N.eqb c sep); [constructor; [reflexivity|assumption]|].
  rewrite orb_false_r in Hc.
  destruct (Str.split sep s) as [|p ps]; [repeat constructor; cbn; now rewrite Hc|].
  inversion IH; subst. constructor; [cbn; now rewrite Hc|assumption].
Qed.

Lemma stripped_nonempty_blank (parts : list pystr) :
  Forall (fun p => forallb Str.isspace p = true) parts -> stripped_nonempty parts = [].
Proof.
  unfold stripped_nonempty. induction 1 as [|p parts Hp _ IH]; [reflexivity|].
  cbn [filter]. now rewrite (strip_blank _ Hp).
Qed.

Lemma py_inj (s t : string) : py s = py t -> s = t.
Proof.
  unfold py. intros H.
  rewrite <- (string_of_list_ascii_of_string s), <- (string_of_list_ascii_of_string t).
  f_equal. revert H. generalize (list_ascii_of_string s) (list_ascii_of_string t).
  induction l as [|x l IH]; intros [|y l']; cbn; try discriminate; [reflexivity|].
  intros [= Hx Hl]. f_equal; [|now apply IH].
  unfold ch in Hx. now rewrite <- (ascii_N_embedding x), Hx, ascii_N_embedding.
Qed.

Lemma to_int_proper (n : Z) :
  Z.to_int n <> Decimal.Pos Decimal.Nil /\ Z.to_int n <> Decimal.Neg Decimal.Nil.
Proof.
  destruct n as [|p|p]; cbn; split; try discriminate; intros [= H];
    now apply DecimalPos.Unsigned.to_uint_nonnil in H.
Qed.

(** [str] gives different integers different strings. *)
Lemma of_int_inj (n m : Z) : Str.of_int n = Str.of_int m -> n = m.
Proof.
  unfold Str.of_int. intros H. apply py_inj in H.
  destruct (to_int_proper n) as [Hn1 Hn2]. destruct (to_int_proper m) as [Hm1 Hm2].
  pose proof (NilZero.isi _ Hn1 Hn2) as E. rewrite H, (NilZero.isi _ Hm1 Hm2) in E.
  injection E as E. symmetry. now apply DecimalZ.to_int_inj.
Qed.

Lemma equation_of_inj (n m : Z) : equation_of n = equation_of m -> n = m.
Proof.
  unfold equation_of. intros H. apply of_int_inj.
  apply (app_inv_head (py "EQUATION_")). congruence.
Qed.

End ComposeFacts.

Import ComposeFacts.

(** X9: two markups joined by a pipe compile to the children of the
    first followed by the children of the second, when the first has no
    LaTeX block to move the counter. *)
Theorem joined_markups_compile_to_joined_documents
        (a b : pystr) (children_a children_b : list node) :
  parse_markup_to_json a = Ok (container "doc" children_a) ->
  parse_markup_to_json b = Ok (container "doc" children_b) ->
  latex_block_count a = 0 ->
  parse_markup_to_json (joined a b) = Ok (container "doc" (children_a ++ children_b)).
Proof.
  unfold parse_markup_to_json, latex_block_count. intros Ha Hb Hl.
  rewrite split_blocks_joined, run_blocks_app.
  destruct (run_blocks (split_blocks a) ([], 1%Z)) as [[ca counter]|] eqn:Ea;
    [|discriminate].
  cbn [bind] in *. injection Ha as <-.
  apply run_blocks_latex in Ea as [-> _]. rewrite Hl, Z.add_0_r.
  rewrite run_blocks_append.
  destruct (run_blocks (split_blocks b) ([], 1%Z)) as [[cb counter]|]; [|discriminate].
  cbn [bind] in Hb. injection Hb as <-. reflexivity.
Qed.

Lemma joined_markups_compile_to_joined_documents_witness :
  parse_markup_to_json (py "Title:: Hi | Text:: one | LaTeX:: x^2")
  = Ok (container "doc"
          ([heading 1 (py "Hi")]
             ++ [container "paragraph" [text_node (py "one")];
                 leaf_with "latex_block"
                   [("persistentExpression", VStr (py "x^2"));
                    ("id", VStr (py "EQUATION_1"))]])).
Proof.
  apply (joined_markups_compile_to_joined_documents
           (py "Title:: Hi ") (py " Text:: one | LaTeX:: x^2")).
  - vm_compute. reflexivity.
  - vm_compute. reflexivity.
  - vm_compute. reflexivity.
Defined.

(** X10: an exception of a markup is the exception of every markup that
    continues it after a pipe: the first failing block ends the
    compilation, whatever follows. *)
Theorem error_of_prefix_is_error_of_whole (a b : pystr) (e : exn) :
  parse_markup_to_json a = Raise e ->
  parse_markup_to_json (joined a b) = Raise e.
Proof.
  unfold parse_markup_to_json. intros Ha.
  rewrite split_blocks_joined, run_blocks_app.
  destruct (run_blocks (split_blocks a) ([], 1%Z)) as [[ca counter]|e'];
    [discriminate|].
  cbn [bind] in *. exact Ha.
Qed.

Lemma error_of_prefix_is_error_of_whole_witness :
  parse_markup_to_json
    (joined (py "Footnote:: [" ++ repeat (ch "3") 4301 ++ py "]") (py "Title:: late"))
  = Raise ValueError.
Proof.
  apply (error_of_prefix_is_error_of_whole
           (py "Footnote:: [" ++ repeat (ch "3") 4301 ++ py "]")).
  vm_compute. reflexivity.
Defined.

(** X11: a markup of blanks and pipes only has no block and compiles to
    a document without children. *)
Theorem blank_markup_compiles_to_empty_document (markup_text : pystr) :
  blank_markup markup_text = true ->
  parse_markup_to_json markup_text = Ok (container "doc" []).
Proof.
  unfold blank_markup. intros H.
  assert (Hb : split_blocks markup_text = []).
  { unfold split_blocks. apply stripped_nonempty_blank, split_blank.
    unfold Str.replace. rewrite forallb_forall in *. intros c Hc.
    apply in_map_iff in Hc as (c0 & <- & Hc0). specialize (H c0 Hc0).
    destruct (N.eqb_spec c0 (ch ";")) as [->|_]; [discriminate H|exact H]. }
  unfold parse_markup_to_json. now rewrite Hb.
Qed.

Lemma blank_markup_compiles_to_empty_document_witness :
  parse_markup_to_json (py " |  || ") = Ok (container "doc" []).
Proof.
  apply (blank_markup_compiles_to_empty_document (py " |  || ")).
  vm_compute. reflexivity.
Defined.

(** X12: no two LaTeX blocks of a compiled document have the same
    identifier. *)
Theorem equation_ids_distinct (markup_text : pystr) (doc : node) :
  parse_markup_to_json markup_text = Ok doc ->
  exists children, content doc = Some children /\ NoDup (latex_ids children).
Proof.
  unfold parse_markup_to_json. intros H.
  destruct (run_blocks (split_blocks markup_text) ([], 1%Z)) as [[children counter]|] eqn:E;
    [|discriminate].
  cbn [bind] in H. injection H as <-. exists children. split; [reflexivity|].
  apply run_blocks_latex in E as [_ ->]. cbn [latex_ids flat_map app].
  apply Finite.Injective_map_NoDup; [|apply seq_NoDup].
  intros i j Hij. apply equation_of_inj in Hij. lia.
Qed.

Lemma equation_ids_distinct_witness :
  exists children,
    content (container "doc"
               [leaf_with "latex_block"
                  [("persistentExpression", VStr (py "a"));
                   ("id", VStr (py "EQUATION_1"))];
                leaf_with "latex_block"
                  [("persistentExpression", VStr (py "a"));
                   ("id", VStr (py "EQUATION_2"))]]) = Some children /\
    NoDup (latex_ids children).
Proof.
  apply (equation_ids_distinct (py "LaTeX:: a | LaTeX:: a")).
  vm_compute. reflexivity.
Defined.

(** X13: the compiler reads a semicolon as a comma: a markup and the
    same markup with commas for its semicolons compile alike. *)
Theorem semicolons_read_as_commas (markup_text : pystr) :
  parse_markup_to_json (Str.replace (ch ";") (ch ",") markup_text)
  = parse_markup_to_json markup_text.
Proof.
  unfold parse_markup_to_json, split_blocks. f_equal. f_equal. f_equal. f_equal.
  unfold Str.replace. rewrite map_map. apply map_ext. intros c.
  destruct (N.eqb_spec c (ch ";")) as [->|Hc]; [reflexivity|].
  now destruct (N.eqb_spec c (ch ";")).
Qed.

Module NumberedFootnoteFacts.
Import Re StrFacts ReFacts FootnoteFacts Drafts BlockFacts CompilerFacts CounterFacts.
Import DispatchFacts.

Section Quantifiers.
Variable p : char -> bool.
Variable k : pystr -> nat -> outcome.

(** When the continuation matches everywhere, it is given what follows
    the longest run. *)
Lemma greedy_takes_all :
  (forall t pos, k t pos <> None) ->
  forall t pos,
    greedy p k t pos = k (skipn (prefix_run p t) t) (pos + prefix_run p t).
Proof.
  intros Hk t. induction t as [|c t IH]; intros pos; cbn [greedy prefix_run skipn].
  - now rewrite Nat.add_0_r.
  - destruct (p c) eqn:E; cbn [skipn]; [|now rewrite Nat.add_0_r].
    rewrite IH. replace (S pos + prefix_run p t) with (pos + S (prefix_run p t)) by lia.
    destruct (k _ _) eqn:Ek; [reflexivity|]. now apply Hk in Ek.
Qed.

End Quantifiers.

Lemma lstrip_skipn (s : pystr) : Str.lstrip s = skipn (prefix_run Str.isspace s) s.
Proof.
  induction s as [|c s IH]; cbn [Str.lstrip prefix_run skipn]; [reflexivity|].
  now destruct (Str.isspace c).
Qed.

(** What the pattern matches after the closing bracket: the blanks go,
    the second group is the rest up to the first line feed. *)
Lemma after_bracket_run (caps : list nat) (t : pystr) (pos : nat) :
  let a := prefix_run Str.isspace t in
  let b := prefix_run dot (skipn a t) in
  run after_bracket caps t pos = Some (pos + a + b, (caps ++ [pos + a]) ++ [pos + a + b]).
Proof.
  unfold after_bracket. cbn [run].
  rewrite greedy_takes_all.
  - cbn [run]. rewrite greedy_takes_all; [reflexivity|]. intros; discriminate.
  - intros t' pos'. cbn [run]. apply greedy_total. intros; discriminate.
Qed.

Lemma skipn_closing (ds rest : pystr) (c : char) :
  skipn (S (List.length ds)) (ds ++ c :: rest) = rest.
Proof. induction ds as [|x ds IH]; [reflexivity|exact IH]. Qed.

Lemma int_ok_digits (ds : pystr) (num : Z) :
  Str.int ds = Ok num -> ds <> [] /\ forallb Str.isdecimal ds = true.
Proof.
  unfold Str.int. destruct ds as [|c ds]; [discriminate|]. cbn [Str.is_empty orb].
  destruct (forallb Str.isdecimal (c :: ds)); [split; [discriminate|reflexivity]|discriminate].
Qed.

(** The match of the footnote pattern on a body that begins with a
    bracketed number. *)
Lemma footnote_groups (ds rest : pystr) :
  ds <> [] -> forallb Str.isdecimal ds = true ->
  exists m,
    rmatch_at_start footnote_pattern (ch "[" :: ds ++ ch "]" :: rest) = Some m /\
    group (ch "[" :: ds ++ ch "]" :: rest) m 1 = ds /\
    group (ch "[" :: ds ++ ch "]" :: rest) m 2 = first_line (Str.lstrip rest).
Proof.
  intros Hne Hds. destruct ds as [|y ds]; [congruence|]. clear Hne.
  cbn [forallb] in Hds. apply andb_true_iff in Hds as [Hy Hds].
  unfold rmatch_at_start. rewrite footnote_run. cbn [app].
  rewrite N.eqb_refl. unfold digit at 1. rewrite Hy. cbn [andb].
  rewrite (prefix_run_app digit ds rest (ch "]") Hds close_bracket_no_digit).
  rewrite skipn_length_app, after_digits_cons, N.eqb_refl, after_bracket_run.
  eexists. split; [reflexivity|]. split.
  - change (Str.slice (ch "[" :: y :: ds ++ ch "]" :: rest) 1 (2 + List.length ds)
            = y :: ds).
    unfold Str.slice. replace (2 + List.length ds - 1) with (S (List.length ds)) by lia.
    cbn [skipn firstn]. f_equal. apply firstn_length_app.
  - set (a := prefix_run Str.isspace rest).
    set (b := prefix_run dot (skipn a rest)).
    change (Str.slice (ch "[" :: y :: ds ++ ch "]" :: rest)
              (S (2 + List.length ds) + a) (S (2 + List.length ds) + a + b)
            = first_line (Str.lstrip rest)).
    unfold Str.slice, first_line. rewrite lstrip_skipn. fold a. fold b.
    replace (S (2 + List.length ds) + a + b - (S (2 + List.length ds) + a)) with b by lia.
    replace (S (2 + List.length ds) + a) with (a + S (2 + List.length ds)) by lia.
    rewrite <- skipn_skipn.
    change (skipn (S (2 + List.length ds)) (ch "[" :: y :: ds ++ ch "]" :: rest))
      with (skipn (S (List.length ds)) (ds ++ ch "]" :: rest)).
    now rewrite skipn_closing.
Qed.

End NumberedFootnoteFacts.

Import NumberedFootnoteFacts.

(** X14: a footnote block whose body begins with a bracketed number that
    [int] takes gives one footnote node: its number is the value of the
    digits, its text is what follows the closing bracket without the
    leading blanks and up to the first line feed.  The counter named
    [footnote_counter] plays no part and stays as it was. *)
Theorem numbered_footnote_number_and_text
        (content : list node) (counter : Z) (block ds rest : pystr) (num : Z) :
  tagged block = Some (py "footnote", ch "[" :: ds ++ ch "]" :: rest) ->
  Str.int ds = Ok num ->
  block_step (content, counter) block
  = Ok (content ++ [container_with "footnote" [("number", VInt num)]
                      [plain_paragraph (first_line (Str.lstrip rest))]],
        counter).
Proof.
  intros Ht Hnum. destruct (int_ok_digits _ _ Hnum) as [Hne Hds].
  destruct (tagged_split _ _ _ Ht) as (a & b & Hc & Hu & Ha & Hb).
  destruct (footnote_groups ds rest Hne Hds) as (m & Hm & H1 & H2).
  unfold block_step. rewrite Hc, Hu. cbn [negb bind]. rewrite Ha, Hb.
  cbn [Str.is_empty].
  change (if is_tag (py "footnote") "title" then _ else _)
    with (match rmatch_at_start footnote_pattern (ch "[" :: ds ++ ch "]" :: rest) with
          | Some m =>
              num <- Str.int (group (ch "[" :: ds ++ ch "]" :: rest) m 1) ;;
              Ok (content ++ [container_with "footnote" [("number", VInt num)]
                                [plain_paragraph
                                   (group (ch "[" :: ds ++ ch "]" :: rest) m 2)]],
                  counter)
          | None => Ok (content, counter)
          end : result (list node * Z)).
  rewrite Hm, H1, H2, Hnum. reflexivity.
Qed.

Lemma numbered_footnote_number_and_text_witness :
  block_step ([], 1%Z) (py "Footnote:: [12]  see page 3")
  = Ok ([container_with "footnote" [("number", VInt 12)]
           [plain_paragraph (py "see page 3")]], 1%Z).
Proof.
  apply (numbered_footnote_number_and_text [] 1%Z _ (py "12") (py "  see page 3") 12%Z).
  - vm_compute. reflexivity.
  - vm_compute. reflexivity.
Defined.

Module NumeralFacts.
Import Re StrFacts ReFacts FootnoteFacts Drafts BlockFacts CompilerFacts CounterFacts.

Lemma py_String (a : ascii) (s : string) : py (String a s) = ch a :: py s.
Proof. reflexivity. Qed.

Ltac digit_cases d IH :=
  induction d as [|d IH|d IH|d IH|d IH|d IH|d IH|d IH|d IH|d IH|d IH].

Ltac digit_step :=
  unfold int_step;
  match goal with
  | |- context [Str.digit_value ?c] =>
      let v := eval vm_compute in (Str.digit_value c) in
      change (Str.digit_value c) with v
  end; lia.

(** The digits of a numeral read after a positive number. *)
Lemma fold_digits_acc (d : Decimal.uint) :
  forall acc : positive,
    fold_left int_step (py (NilEmpty.string_of_uint d)) (Z.pos acc)
    = Z.pos (Pos.of_uint_acc d acc).
Proof.
  digit_cases d IH; intros acc; cbn [NilEmpty.string_of_uint Pos.of_uint_acc];
    [reflexivity|..]; rewrite py_String; cbn [fold_left];
    rewrite <- IH; f_equal; digit_step.
Qed.

(** The digits of a numeral read from the start. *)
Lemma fold_digits (d : Decimal.uint) :
  fold_left int_step (py (NilEmpty.string_of_uint d)) 0%Z = Z.of_uint d.
Proof.
  unfold Z.of_uint.
  digit_cases d IH; cbn [NilEmpty.string_of_uint Pos.of_uint];
    [reflexivity| |..]; rewrite py_String; cbn [fold_left].
  - exact IH.
  - apply (fold_digits_acc d 1).
  - apply (fold_digits_acc d 2).
  - apply (fold_digits_acc d 3).
  - apply (fold_digits_acc d 4).
  - apply (fold_digits_acc d 5).
  - apply (fold_digits_acc d 6).
  - apply (fold_digits_acc d 7).
  - apply (fold_digits_acc d 8).
  - apply (fold_digits_acc d 9).
Qed.

Lemma numeral_decimal (d : Decimal.uint) :
  forallb Str.isdecimal (py (NilEmpty.string_of_uint d)) = true.
Proof.
  digit_cases d IH; cbn [NilEmpty.string_of_uint]; [reflexivity|..];
    rewrite py_String; cbn [forallb]; rewrite IH; reflexivity.
Qed.

(** [int(str(n)) == n] for a natural number within the digit limit. *)
Lemma int_of_int (n : Z) :
  (0 <= n)%Z ->
  List.length (Str.of_int n) <= Str.int_max_str_digits ->
  Str.int (Str.of_int n) = Ok n.
Proof.
  intros Hn Hlen. unfold Str.of_int in *.
  assert (Hd : exists d, Z.to_int n = Decimal.Pos d /\ d <> Decimal.Nil).
  { destruct n as [|p|p]; [eexists; split; [reflexivity|discriminate]| |lia].
    eexists. split; [reflexivity|]. apply DecimalPos.Unsigned.to_uint_nonnil. }
  destruct Hd as (d & Hd & Hnil).
  pose proof (DecimalZ.of_to n) as Hof. rewrite Hd in *. cbn [Z.of_int] in Hof.
  cbn [NilZero.string_of_int] in *.
  assert (Hs : NilZero.string_of_uint d = NilEmpty.string_of_uint d)
    by (destruct d; [congruence|reflexivity..]).
  rewrite Hs in *. unfold Str.int.
  assert (He : Str.is_empty (py (NilEmpty.string_of_uint d)) = false)
    by (destruct d; [congruence|reflexivity..]).
  rewrite He, numeral_decimal. cbn [orb negb].
  apply Nat.ltb_ge in Hlen. rewrite Hlen.
  change (fun acc c => (10 * acc + Str.digit_value c)%Z) with int_step.
  now rewrite fold_digits, Hof.
Qed.

Lemma numeral_nonempty (n : Z) : Str.of_int n <> [].
Proof.
  unfold Str.of_int. destruct n as [|p|p]; cbn [Z.to_int NilZero.string_of_int];
    [discriminate| |discriminate].
  pose proof (DecimalPos.Unsigned.to_uint_nonnil p) as H.
  destruct (Pos.to_uint p); [congruence|discriminate..].
Qed.

End NumeralFacts.

Import NumeralFacts.

(** X15: a footnote written with the decimal numeral of a natural number
    in its brackets gets that number: the number of the node read back is
    the number written. *)
Theorem footnote_numeral_read_back
        (content : list node) (counter : Z) (block rest : pystr) (n : Z) :
  tagged block = Some (py "footnote", ch "[" :: Str.of_int n ++ ch "]" :: rest) ->
  (0 <= n)%Z ->
  List.length (Str.of_int n) <= Str.int_max_str_digits ->
  exists paragraph,
    block_step (content, counter) block
    = Ok (content ++ [container_with "footnote" [("number", VInt n)] [paragraph]],
          counter).
Proof.
  intros Ht Hn Hlen. pose proof (int_of_int n Hn Hlen) as Hnum.
  destruct (int_ok_digits _ _ Hnum) as [Hne Hds].
  destruct (tagged_split _ _ _ Ht) as (a & b & Hc & Hu & Ha & Hb).
  destruct (footnote_groups _ rest Hne Hds) as (m & Hm & H1 & _).
  unfold block_step. rewrite Hc, Hu. cbn [negb bind]. rewrite Ha, Hb.
  cbn [Str.is_empty].
  change (if is_tag (py "footnote") "title" then _ else _)
    with (match rmatch_at_start footnote_pattern
                  (ch "[" :: Str.of_int n ++ ch "]" :: rest) with
          | Some m =>
              num <- Str.int (group (ch "[" :: Str.of_int n ++ ch "]" :: rest) m 1) ;;
              Ok (content ++ [container_with "footnote" [("number", VInt num)]
                                [plain_paragraph
                                   (group (ch "[" :: Str.of_int n ++ ch "]" :: rest) m 2)]],
                  counter)
          | None => Ok (content, counter)
          end : result (list node * Z)).
  rewrite Hm, H1, Hnum. cbn [bind]. eauto.
Qed.

Lemma footnote_numeral_read_back_witness :
  exists paragraph,
    block_step ([], 1%Z) (py "Footnote:: [2024] the year")
    = Ok ([container_with "footnote" [("number", VInt 2024)] [paragraph]], 1%Z).
Proof.
  apply (footnote_numeral_read_back [] 1%Z _ (py " the year") 2024%Z).
  - vm_compute. reflexivity.
  - lia.
  - vm_compute. lia.
Defined.

(** * The callers of the compiler *)

Module CallerFacts.
Import Drafts CompilerFacts.

(** A markup with an oversized footnote makes the compiler raise
    [ValueError]. *)
Lemma oversized_raises (markup_content : pystr) :
  has_oversized_footnote markup_content = true ->
  parse_markup_to_json markup_content = Raise ValueError.
Proof.
  unfold has_oversized_footnote, parse_markup_to_json. intros H.
  now rewrite (run_blocks_raises _ H).
Qed.

(** The document of the compiler has a content list. *)
Lemma compiled_content (markup_content : pystr) (doc : node) :
  parse_markup_to_json markup_content = Ok doc ->
  exists blocks, doc = container "doc" blocks.
Proof.
  unfold parse_markup_to_json.
  destruct (run_blocks _ _) as [[blocks counter]|]; [|discriminate].
  cbn [bind]. intros [= <-]. eauto.
Qed.

End CallerFacts.

Import CallerFacts.

(** X16: on a markup with an oversized footnote
    [create_markup_draft_enhanced] raises nothing: it returns the failure
    dictionary, with no draft, [success] false, no content block and the
    text of the exception after a fixed prefix, and it leaves the world as
    it was: nothing is printed and the network code is not called. *)
Theorem oversized_footnote_reported_without_request
        (world draft_object error : Type)
        (print : pystr -> world -> world)
        (exception_text : pystr -> exn -> pystr)
        (error_text : error -> pystr)
        (create_draft_with_retry_logic :
           pystr -> pystr -> node -> option pystr -> option dict -> world ->
           call error (option draft_object * bool * pystr) * world)
        (title markup_content subtitle : pystr)
        (publication_url : option pystr) (user_credentials : option dict)
        (w : world) :
  has_oversized_footnote markup_content = true ->
  DraftsApi.create_markup_draft_enhanced
    world draft_object error print exception_text error_text
    create_draft_with_retry_logic
    title markup_content subtitle publication_url user_credentials w
  = ({| draft := None;
        success := false;
        message := py "Error parsing markup or creating draft: "
                     ++ exception_text markup_content ValueError;
        content_blocks := 0 |}, w).
Proof.
  intros H. unfold DraftsApi.create_markup_draft_enhanced.
  now rewrite (oversized_raises _ H).
Qed.

Lemma oversized_footnote_reported_without_request_witness :
  DraftsApi.create_markup_draft_enhanced
    (list pystr) unit unit cons (fun _ _ => py "too many digits") (fun _ => [])
    (fun _ _ _ _ _ w => (Returns (Some tt, true, py "created"), py "request" :: w))
    (py "A title") (py "Footnote:: [" ++ repeat (ch "9") 4301 ++ py "] x") []
    (Some (py "https://example.substack.com")) (Some [])
    []
  = ({| draft := None;
        success := false;
        message := py "Error parsing markup or creating draft: "
                     ++ py "too many digits";
        content_blocks := 0 |}, []).
Proof.
  apply (oversized_footnote_reported_without_request
           (list pystr) unit unit cons (fun _ _ => py "too many digits")).
  vm_compute. reflexivity.
Defined.

(** X17: the two copies of [create_markup_draft] differ on a markup with
    an oversized footnote: the one of [drafts.py] returns [None], the one
    of the examples lets the [ValueError] of the compiler through; neither
    calls the network code. *)
Theorem wrappers_differ_on_oversized_footnote
        (world draft_object error : Type)
        (print : pystr -> world -> world)
        (exception_text : pystr -> exn -> pystr)
        (error_text : error -> pystr)
        (create_draft_with_retry_logic :
           pystr -> pystr -> node -> option pystr -> option dict -> world ->
           call error (option draft_object * bool * pystr) * world)
        (create_draft :
           pystr -> pystr -> node -> world -> call error (option draft_object) * world)
        (title markup_content subtitle : pystr)
        (publication_url : option pystr) (user_credentials : option dict)
        (w : world) :
  has_oversized_footnote markup_content = true ->
  DraftsApi.create_markup_draft
    world draft_object error print exception_text error_text
    create_draft_with_retry_logic
    title markup_content subtitle publication_url user_credentials w
  = (None, w) /\
  DraftCreateApi.create_markup_draft
    world draft_object error create_draft title markup_content subtitle w
  = (Throws (inl ValueError), w).
Proof.
  intros H. unfold DraftsApi.create_markup_draft, DraftsApi.create_markup_draft_enhanced,
    DraftCreateApi.create_markup_draft.
  change (DraftCreate.parse_markup_to_json markup_content)
    with (parse_markup_to_json markup_content).
  rewrite (oversized_raises _ H). split; reflexivity.
Qed.

Lemma wrappers_differ_on_oversized_footnote_witness :
  DraftsApi.create_markup_draft
    (list pystr) unit unit cons (fun _ _ => py "too many digits") (fun _ => [])
    (fun _ _ _ _ _ w => (Returns (Some tt, true, py "created"), py "request" :: w))
    (py "A title") (py "Text:: a | Footnote:: [" ++ repeat (ch "0") 4301 ++ py "]") []
    None None []
  = (None, []) /\
  DraftCreateApi.create_markup_draft
    (list pystr) unit unit
    (fun _ _ _ w => (Returns (Some tt), py "request" :: w))
    (py "A title") (py "Text:: a | Footnote:: [" ++ repeat (ch "0") 4301 ++ py "]") []
    []
  = (Throws (inl ValueError), []).
Proof.
  apply (wrappers_differ_on_oversized_footnote
           (list pystr) unit unit cons (fun _ _ => py "too many digits")).
  vm_compute. reflexivity.
Defined.

(** X18: [create_markup_draft_enhanced] reports success only when the
    markup compiled and the network code, called with the compiled
    document after the line about the number of blocks was printed,
    returned success; the draft, the message and the world are then the
    ones of the network code and [content_blocks] is the number of
    top-level nodes of the document. *)
Theorem success_comes_from_network_code
        (world draft_object error : Type)
        (print : pystr -> world -> world)
        (exception_text : pystr -> exn -> pystr)
        (error_text : error -> pystr)
        (create_draft_with_retry_logic :
           pystr -> pystr -> node -> option pystr -> option dict -> world ->
           call error (option draft_object * bool * pystr) * world)
        (title markup_content subtitle : pystr)
        (publication_url : option pystr) (user_credentials : option dict)
        (w w' : world) (r : report draft_object) :
  DraftsApi.create_markup_draft_enhanced
    world draft_object error print exception_text error_text
    create_draft_with_retry_logic
    title markup_content subtitle publication_url user_credentials w
  = (r, w') ->
  success r = true ->
  exists blocks,
    parse_markup_to_json markup_content = Ok (container "doc" blocks) /\
    create_draft_with_retry_logic
      title subtitle (container "doc" blocks) publication_url user_credentials
      (print (py "Parsed " ++ Str.of_int (Z.of_nat (List.length blocks))
                ++ py " content blocks from markup") w)
    = (Returns (draft r, true, message r), w') /\
    content_blocks r = List.length blocks.
Proof.
  unfold DraftsApi.create_markup_draft_enhanced. intros Hr Hs.
  destruct (parse_markup_to_json markup_content) as [doc|e] eqn:Hp.
  - destruct (compiled_content _ _ Hp) as (blocks & ->). exists blocks.
    cbn [content container] in Hr.
    destruct (create_draft_with_retry_logic _ _ _ _ _ _) as [[[[d s] m]|e] w1] eqn:Hc;
      injection Hr as <- <-; cbn in Hs; [|discriminate].
    subst s. cbn. auto.
  - injection Hr as <- <-. discriminate Hs.
Qed.

Lemma success_comes_from_network_code_witness :
  exists blocks,
    parse_markup_to_json (py "Title:: Hi | Text:: there") = Ok (container "doc" blocks) /\
    (Returns (Some tt, true, py "created"),
     py "request" :: [py "Parsed " ++ Str.of_int (Z.of_nat (List.length blocks))
                        ++ py " content blocks from markup"])
    = (@Returns unit _ (Some tt, true, py "created"),
       [py "request"; py "Parsed 2 content blocks from markup"]) /\
    2 = List.length blocks.
Proof.
  apply (success_comes_from_network_code
           (list pystr) unit unit cons (fun _ _ => []) (fun _ => [])
           (fun _ _ _ _ _ w => (Returns (Some tt, true, py "created"), py "request" :: w))
           (py "A title") (py "Title:: Hi | Text:: there") [] None None []
           [py "request"; py "Parsed 2 content blocks from markup"]
           {| draft := Some tt; success := true; message := py "created";
              content_blocks := 2 |}).
  - vm_compute. reflexivity.
  - reflexivity.
Defined.

(** * The size of the document *)

Module CountFacts.
Import Re StrFacts ReFacts FootnoteFacts Drafts BlockFacts CompilerFacts CounterFacts.

Ltac small := cbn; lia.

Ltac next_tag :=
  lazymatch goal with
  | |- when_ok _ (if ?c then _ else _) =>
      let H := fresh "Htag" in destruct c eqn:H; [try (solve [small])|]
  end.

(** A block adds one node or none. *)
Lemma block_nodes_one (counter : Z) (block : pystr) :
  when_ok (fun nodes _ => List.length nodes <= 1) (block_nodes counter block).
Proof.
  unfold block_nodes, block_step.
  destruct (Str.contains (py "::") block) eqn:Hc; cbn [negb]; [|small].
  destruct (unpack2_split1 _ _ Hc) as (a & b & Hp & ->). cbn [bind].
  repeat next_tag.
  - (* h1 to h6 *)
    destruct (Str.index _ 1) as [c|]; [|exact I]. cbn [bind].
    destruct (Str.int [c]) as [level|]; [|exact I]. small.
  - (* code *)
    match goal with |- when_ok _ (let '(_, _) := ?x in _) => destruct x end. small.
  - (* button *)
    destruct (Str.contains (py "->") _); [destruct (Str.unpack2 _) as [[? ?]|]|];
      try exact I; small.
  - (* subscribewidget *)
    destruct (Str.contains (py ">>") _); [destruct (Str.unpack2 _) as [[? ?]|]|];
      try exact I; small.
  - (* sharewidget *)
    destruct (Str.contains (py ">>") _); [destruct (Str.unpack2 _) as [[? ?]|]|];
      try exact I; small.
  - (* footnote *)
    destruct (rmatch_at_start _ _) as [m|]; [|small].
    destruct (Str.int _) as [num|]; [|exact I]. small.
  - (* unknown tag *)
    small.
Qed.

Lemma run_blocks_length (blocks : list pystr) :
  forall content counter content' counter',
    run_blocks blocks (content, counter) = Ok (content', counter') ->
    List.length content' <= List.length content + List.length blocks.
Proof.
  induction blocks as [|b blocks IH]; intros content counter content' counter';
    cbn [run_blocks].
  - intros [= <- <-]. lia.
  - rewrite block_step_append.
    pose proof (block_nodes_one counter b) as Hn.
    destruct (block_nodes counter b) as [[nodes counter1]|]; [|discriminate].
    cbn [append_to bind when_ok] in *. intros H. apply IH in H.
    rewrite length_app in H. cbn [List.length]. lia.
Qed.

(** [len(s.split(sep)) == s.count(sep) + 1]. *)
Lemma split_length (sep : char) (s : pystr) :
  List.length (Str.split sep s) = S (List.length (filter (N.eqb sep) s)).
Proof.
  induction s as [|c s IH]; cbn [Str.split filter]; [reflexivity|].
  rewrite (N.eqb_sym sep c).
  destruct (N.eqb c sep); cbn [List.length]; [now rewrite IH|].
  pose proof (split_nonempty sep s) as Hn.
  destruct (Str.split sep s) as [|p ps]; [contradiction|exact IH].
Qed.

Lemma replace_pipes (s : pystr) : pipes (Str.replace (ch ";") (ch ",") s) = pipes s.
Proof.
  unfold pipes, Str.replace. induction s as [|c s IH]; cbn [map filter]; [reflexivity|].
  destruct (N.eqb_spec c (ch ";")) as [->|_]; [exact IH|].
  destruct (N.eqb (ch "|") c); cbn [List.length]; now rewrite IH.
Qed.

Lemma split_blocks_length (markup_text : pystr) :
  List.length (split_blocks markup_text) <= S (pipes markup_text).
Proof.
  unfold split_blocks, stripped_nonempty. rewrite length_map.
  etransitivity; [apply filter_length_le|].
  rewrite split_length. fold (pipes (Str.replace (ch ";") (ch ",") markup_text)).
  now rewrite replace_pipes.
Qed.

End CountFacts.

Import CountFacts.

(** X19: every block adds at most one top-level node, so a compiled
    document has at most one top-level node more than the markup has
    pipes. *)
Theorem at_most_one_node_per_block (markup_text : pystr) (doc : node) :
  parse_markup_to_json markup_text = Ok doc ->
  exists children,
    content doc = Some children /\
    List.length children <= S (pipes markup_text).
Proof.
  unfold parse_markup_to_json. intros H.
  destruct (run_blocks (split_blocks markup_text) ([], 1%Z)) as [[children counter]|] eqn:E;
    [|discriminate].
  cbn [bind] in H. injection H as <-. exists children. split; [reflexivity|].
  apply run_blocks_length in E. cbn [List.length Nat.add] in E.
  pose proof (split_blocks_length markup_text). lia.
Qed.

Lemma at_most_one_node_per_block_witness :
  exists children,
    content (container "doc"
               [heading 1 (py "a"); container "paragraph" [text_node (py "b")];
                leaf "horizontal_rule"]) = Some children /\
    List.length children <= 4.
Proof.
  apply (at_most_one_node_per_block (py "Title:: a | b || Rule:: -")).
  vm_compute. reflexivity.
Defined.

(** X20: a block tagged [h1] to [h6], in any case, gives a heading whose
    level is the digit of the tag and whose text is the body as it is:
    the formatter is not applied to a heading. *)
Theorem heading_level_from_tag
        (content : list node) (counter : Z) (block body : pystr) (level : Z) :
  (1 <= level <= 6)%Z ->
  tagged block = Some (py "h" ++ Str.of_int level, body) ->
  body <> [] ->
  block_step (content, counter) block
  = Ok (content ++ [container_with "heading" [("level", VInt level)] [text_node body]],
        counter).
Proof.
  intros Hl Ht Hne. destruct (tagged_split _ _ _ Ht) as (a & b & Hc & Hu & Ha & Hb).
  unfold block_step. rewrite Hc, Hu. cbn [negb bind]. rewrite Ha, Hb.
  destruct body as [|c body]; [congruence|]. cbn [Str.is_empty].
  assert (Hcases : (level = 1 \/ level = 2 \/ level = 3 \/ level = 4 \/ level = 5
                    \/ level = 6)%Z) by lia.
  destruct Hcases as [H|[H|[H|[H|[H|H]]]]]; rewrite H; reflexivity.
Qed.

Lemma heading_level_from_tag_witness :
  block_step ([], 1%Z) (py " H4 :: **not bold**")
  = Ok ([container_with "heading" [("level", VInt 4)] [text_node (py "**not bold**")]],
        1%Z).
Proof.
  apply (heading_level_from_tag [] 1%Z _ (py "**not bold**") 4%Z).
  - lia.
  - vm_compute. reflexivity.
  - discriminate.
Defined.

(** X21: on a text that is not blank the formatter returns no blank run:
    what the filter leaves has text, and the run put in their place when
    it leaves nothing is the text itself. *)
Theorem no_blank_run_of_nonblank_text (text : pystr) :
  nonblank text = true ->
  Forall (fun elem => has_text elem = true) (parse_inline_formatting text).
Proof.
  intros Hn. unfold parse_inline_formatting.
  destruct (fold_left (match_step text) _ _) as [elements current_pos].
  match goal with
  | |- Forall _ match filter has_text ?l with [] => _ | _ => _ end =>
      generalize l; intros kept
  end.
  destruct (filter has_text kept) as [|e es] eqn:E.
  - constructor; [exact Hn | constructor].
  - rewrite <- E. apply Forall_forall. intros x Hx.
    now apply filter_In in Hx as [_ Hx].
Qed.

Lemma no_blank_run_of_nonblank_text_witness :
  Forall (fun elem => has_text elem = true) (parse_inline_formatting (py "** ** a")).
Proof.
  apply (no_blank_run_of_nonblank_text (py "** ** a")). vm_compute. reflexivity.
Defined.

(** * The formatter on composed texts *)

Module ScanFacts.
Import Re StrFacts ReFacts Drafts.

(** The scan passes a stretch without the first character of the
    pattern. *)
Lemma scan_gap (c : char) (r : regex) (g t : pystr) :
  ~ In c g ->
  forall pos,
    scan (Chr c :: r) (g ++ t) pos 0 = scan (Chr c :: r) t (pos + List.length g) 0.
Proof.
  induction g as [|x g IH]; intros Hn pos; cbn [app List.length].
  - now rewrite Nat.add_0_r.
  - cbn [scan run]. destruct (N.eqb_spec x c) as [->|_]; [exfalso; apply Hn; now left|].
    rewrite IH by (intros H; apply Hn; now right). f_equal. lia.
Qed.

(** The scan passes the characters of the match it has found. *)
Lemma scan_skip (r : regex) (a t : pystr) :
  forall pos, scan r (a ++ t) pos (List.length a) = scan r t (pos + List.length a) 0.
Proof.
  induction a as [|x a IH]; intros pos; cbn [app List.length].
  - now rewrite Nat.add_0_r.
  - cbn [scan]. rewrite IH. f_equal. lia.
Qed.

(** A match at the offset of the scan is found, and the scan goes on
    behind it. *)
Lemma scan_hit (r : regex) (s t : pystr) (pos : nat) (caps : list nat) :
  s <> [] ->
  run r [] (s ++ t) pos = Some (pos + List.length s, caps) ->
  scan r (s ++ t) pos 0
  = {| m_start := pos; m_end := pos + List.length s; m_caps := caps |}
      :: scan r t (pos + List.length s) 0.
Proof.
  destruct s as [|x s]; [congruence|]. intros _ H.
  cbn [app] in *. cbn [scan]. rewrite H. f_equal. cbn [List.length].
  replace (pos + S (List.length s) - pos - 1) with (List.length s) by lia.
  rewrite scan_skip. f_equal. lia.
Qed.

Section Quantifiers.
Variable p : char -> bool.
Variable k : pystr -> nat -> outcome.

(** The lazy star passes the characters of its class on which the
    continuation fails. *)
Lemma lazy_through (i t : pystr) :
  forallb p i = true ->
  (forall c u q, In c i -> k (c :: u) q = None) ->
  forall pos, lazy p k (i ++ t) pos = lazy p k t (pos + List.length i).
Proof.
  induction i as [|c i IH]; intros Hp Hk pos; cbn [app List.length].
  - now rewrite Nat.add_0_r.
  - cbn [forallb] in Hp. apply andb_true_iff in Hp as [Hc Hp].
    cbn [lazy]. rewrite (Hk c _ _ (or_introl eq_refl)), Hc.
    rewrite IH; [f_equal; lia | assumption |].
    intros c' u q Hin. apply Hk. now right.
Qed.

(** The lazy star stops where the continuation matches. *)
Lemma lazy_now (t : pystr) (pos : nat) (m : nat * list nat) :
  k t pos = Some m -> lazy p k t pos = Some m.
Proof. intros H. destruct t; cbn [lazy]; now rewrite H. Qed.

End Quantifiers.

Lemma without_spec (x : char) (t : pystr) (c : char) :
  without x t = true -> In c t -> c <> x.
Proof.
  unfold without. rewrite forallb_forall. intros H Hin ->.
  apply H in Hin. now rewrite N.eqb_refl in Hin.
Qed.

Lemma without_class (x : char) (t : pystr) :
  without x t = true -> forallb (fun c => negb (c =? x)%N) t = true.
Proof. exact (fun H => H). Qed.

Lemma marker_free_without (t : pystr) (x : char) :
  marker_free t = true ->
  In x [ch "*"; ch "~"; ch "`"; ch "["] ->
  forall c, In c t -> (c =? x)%N = false.
Proof.
  intros Hf Hx c Hc. apply N.eqb_neq. intros ->.
  exact (RunFacts.marker_free_spec _ _ Hf Hx Hc).
Qed.

End ScanFacts.

Module SpanFacts.
Import Re StrFacts ReFacts Drafts ScanFacts.

Local Abbreviation strong_pattern :=
  [Lit "*"; Lit "*"; GroupOpen; LazyStar dot; GroupClose; Lit "*"; Lit "*"].
Local Abbreviation em_pattern := [Lit "*"; GroupOpen; LazyStar dot; GroupClose; Lit "*"].
Local Abbreviation strike_pattern :=
  [Lit "~"; Lit "~"; GroupOpen; LazyStar dot; GroupClose; Lit "~"; Lit "~"].
Local Abbreviation code_pattern := [Lit "`"; GroupOpen; LazyStar dot; GroupClose; Lit "`"].
Local Abbreviation link_pattern :=
  [Lit "["; GroupOpen; Plus (no "]"); GroupClose; Lit "]";
   Lit "("; GroupOpen; Plus (no ")"); GroupClose; Lit ")"].

Lemma inner_ok (inner : pystr) :
  negb (Str.is_empty inner) && marker_free inner && without 10%N inner = true ->
  inner <> [] /\ marker_free inner = true /\ forallb dot inner = true.
Proof.
  intros H. apply andb_true_iff in H as [H H3]. apply andb_true_iff in H as [H1 H2].
  repeat split; try assumption. destruct inner; [discriminate|discriminate].
Qed.

Ltac arith := repeat (f_equal; try lia).

(** The pattern of the italics matches a span in italics at its
    start. *)
Lemma italic_hit (inner t : pystr) (pos : nat) :
  span_ok (Italic inner) = true ->
  run em_pattern [] (written (Italic inner) ++ t) pos
  = Some (pos + List.length (written (Italic inner)), span_caps (Italic inner) pos).
Proof.
  intros H. apply inner_ok in H as (_ & Hf & Hd).
  change (written (Italic inner)) with (ch "*" :: inner ++ [ch "*"]).
  cbn [app List.length]. rewrite <- app_assoc. cbn [app].
  cbn [run Lit]. rewrite N.eqb_refl. cbn [run].
  rewrite lazy_through; [|assumption|].
  - erewrite lazy_now; [|cbn [run]; rewrite N.eqb_refl; reflexivity].
    rewrite length_app. cbn [List.length app span_caps]. arith.
  - intros c u q Hc. cbn [run].
    now rewrite (marker_free_without _ (ch "*") Hf) by (cbn; auto).
Qed.

Lemma code_hit (inner t : pystr) (pos : nat) :
  span_ok (Code inner) = true ->
  run code_pattern [] (written (Code inner) ++ t) pos
  = Some (pos + List.length (written (Code inner)), span_caps (Code inner) pos).
Proof.
  intros H. apply inner_ok in H as (_ & Hf & Hd).
  change (written (Code inner)) with (ch "`" :: inner ++ [ch "`"]).
  cbn [app List.length]. rewrite <- app_assoc. cbn [app].
  cbn [run Lit]. rewrite N.eqb_refl. cbn [run].
  rewrite lazy_through; [|assumption|].
  - erewrite lazy_now; [|cbn [run]; rewrite N.eqb_refl; reflexivity].
    rewrite length_app. cbn [List.length app span_caps]. arith.
  - intros c u q Hc. cbn [run].
    now rewrite (marker_free_without _ (ch "`") Hf) by (cbn; auto).
Qed.

Lemma strike_hit (inner t : pystr) (pos : nat) :
  span_ok (Strike inner) = true ->
  run strike_pattern [] (written (Strike inner) ++ t) pos
  = Some (pos + List.length (written (Strike inner)), span_caps (Strike inner) pos).
Proof.
  intros H. apply inner_ok in H as (_ & Hf & Hd).
  change (written (Strike inner)) with (ch "~" :: ch "~" :: inner ++ [ch "~"; ch "~"]).
  cbn [app List.length]. rewrite <- app_assoc. cbn [app].
  cbn [run Lit]. rewrite N.eqb_refl. cbn [run].
  rewrite lazy_through; [|assumption|].
  - erewrite lazy_now; [|cbn [run]; rewrite N.eqb_refl; reflexivity].
    rewrite length_app. cbn [List.length app span_caps]. arith.
  - intros c u q Hc. cbn [run].
    now rewrite (marker_free_without _ (ch "~") Hf) by (cbn; auto).
Qed.

Lemma link_ok (label target : pystr) :
  span_ok (Link label target) = true ->
  (label <> [] /\ marker_free label = true /\ forallb (no "]") label = true) /\
  (target <> [] /\ marker_free target = true /\ forallb (no ")") target = true).
Proof.
  cbn [span_ok]. rewrite !andb_true_iff. intros [[[[[H1 H2] H3] H4] H5] H6].
  repeat split; try assumption.
  - destruct label; [discriminate|discriminate].
  - destruct target; [discriminate|discriminate].
Qed.

(** A greedy plus over a text of its class that is followed by a
    character outside it, on which alone the continuation can go on. *)
Lemma plus_through (p : char -> bool) (k : pystr -> nat -> outcome)
      (w t : pystr) (x : char) (pos : nat) :
  w <> [] -> forallb p w = true -> p x = false ->
  (forall c u q, p c = true -> k (c :: u) q = None) ->
  forall r caps,
    k = run r caps ->
    run (Plus p :: r) caps (w ++ x :: t) pos = k (x :: t) (pos + List.length w).
Proof.
  intros Hne Hw Hx Hk r caps ->. destruct w as [|y w]; [congruence|].
  cbn [forallb] in Hw. apply andb_true_iff in Hw as [Hy Hw].
  cbn [app run]. rewrite Hy. rewrite (greedy_longest _ _ Hk).
  rewrite (prefix_run_app p w t x Hw Hx), FootnoteFacts.skipn_length_app.
  cbn [List.length]. f_equal. lia.
Qed.

Lemma run_chr (c : char) (r : regex) (caps : list nat) (t : pystr) (pos : nat) :
  run (Chr c :: r) caps (c :: t) pos = run r caps t (S pos).
Proof. cbn [run]. now rewrite N.eqb_refl. Qed.

Lemma run_open (r : regex) (caps : list nat) (t : pystr) (pos : nat) :
  run (GroupOpen :: r) caps t pos = run r (caps ++ [pos]) t pos.
Proof. reflexivity. Qed.

Lemma run_close (r : regex) (caps : list nat) (t : pystr) (pos : nat) :
  run (GroupClose :: r) caps t pos = run r (caps ++ [pos]) t pos.
Proof. reflexivity. Qed.

Lemma link_hit (label target t : pystr) (pos : nat) :
  span_ok (Link label target) = true ->
  run link_pattern [] (written (Link label target) ++ t) pos
  = Some (pos + List.length (written (Link label target)),
          span_caps (Link label target) pos).
Proof.
  intros H. apply link_ok in H as [(Hl1 & _ & Hl3) (Hu1 & _ & Hu3)].
  change (written (Link label target))
    with (ch "[" :: label ++ ch "]" :: ch "(" :: target ++ [ch ")"]).
  cbn [app List.length]. rewrite <- app_assoc. cbn [app]. rewrite <- app_assoc. cbn [app].
  unfold Lit. rewrite run_chr, run_open.
  erewrite (plus_through (no "]")); [|assumption|assumption|reflexivity| |reflexivity].
  - rewrite run_close, !run_chr, run_open.
    erewrite (plus_through (no ")")); [|assumption|assumption|reflexivity| |reflexivity].
    + rewrite run_close, run_chr. cbn [run].
      rewrite !length_app. cbn [List.length app span_caps]. rewrite !length_app.
      cbn [List.length]. arith.
    + intros c u q Hc. cbn [run]. unfold no in Hc.
      now apply negb_true_iff in Hc as ->.
  - intros c u q Hc. cbn [run]. unfold no in Hc.
    now apply negb_true_iff in Hc as ->.
Qed.

End SpanFacts.

Module FindFacts.
Import Re StrFacts ReFacts Drafts ScanFacts SpanFacts.

Local Abbreviation strong_pattern :=
  [Lit "*"; Lit "*"; GroupOpen; LazyStar dot; GroupClose; Lit "*"; Lit "*"].
Local Abbreviation em_pattern := [Lit "*"; GroupOpen; LazyStar dot; GroupClose; Lit "*"].
Local Abbreviation strike_pattern :=
  [Lit "~"; Lit "~"; GroupOpen; LazyStar dot; GroupClose; Lit "~"; Lit "~"].
Local Abbreviation code_pattern := [Lit "`"; GroupOpen; LazyStar dot; GroupClose; Lit "`"].
Local Abbreviation link_pattern :=
  [Lit "["; GroupOpen; Plus (no "]"); GroupClose; Lit "]";
   Lit "("; GroupOpen; Plus (no ")"); GroupClose; Lit ")"].
Local Abbreviation piece_ok :=
  (fun '(s, plain) => span_ok s && marker_free plain).

Lemma written_nonempty (s : span) : written s <> [].
Proof. destruct s; discriminate. Qed.

(** A marker character occurs in a span only as its delimiter. *)
Lemma marker_in_span (c : char) (s : span) :
  span_ok s = true ->
  In c [ch "*"; ch "~"; ch "`"; ch "["] ->
  In c (written s) ->
  c = match s with
      | Italic _ => ch "*"
      | Strike _ => ch "~"
      | Code _ => ch "`"
      | Link _ _ => ch "["
      end.
Proof.
  intros Hok Hc Hin. destruct s as [inner|inner|inner|label target].
  - apply inner_ok in Hok as (_ & Hf & _).
    change (written (Italic inner)) with ([ch "*"] ++ inner ++ [ch "*"]) in Hin.
    rewrite !in_app_iff in Hin. cbn [In] in Hin.
    destruct Hin as [[<-|[]]|[Hin|[<-|[]]]]; try reflexivity.
    now destruct (RunFacts.marker_free_spec _ _ Hf Hc).
  - apply inner_ok in Hok as (_ & Hf & _).
    change (written (Strike inner)) with ([ch "~"; ch "~"] ++ inner ++ [ch "~"; ch "~"]) in Hin.
    rewrite !in_app_iff in Hin. cbn [In] in Hin.
    destruct Hin as [[<-|[<-|[]]]|[Hin|[<-|[<-|[]]]]]; try reflexivity.
    now destruct (RunFacts.marker_free_spec _ _ Hf Hc).
  - apply inner_ok in Hok as (_ & Hf & _).
    change (written (Code inner)) with ([ch "`"] ++ inner ++ [ch "`"]) in Hin.
    rewrite !in_app_iff in Hin. cbn [In] in Hin.
    destruct Hin as [[<-|[]]|[Hin|[<-|[]]]]; try reflexivity.
    now destruct (RunFacts.marker_free_spec _ _ Hf Hc).
  - apply link_ok in Hok as [(_ & Hl & _) (_ & Hu & _)].
    change (written (Link label target))
      with ([ch "["] ++ label ++ [ch "]"; ch "("] ++ target ++ [ch ")"]) in Hin.
    rewrite !in_app_iff in Hin. cbn [In] in Hin, Hc.
    destruct Hin as [[<-|[]]|[Hin|[[<-|[<-|[]]]|[Hin|[<-|[]]]]]]; try reflexivity.
    + now destruct (RunFacts.marker_free_spec _ _ Hl Hc).
    + exfalso. intuition discriminate.
    + exfalso. intuition discriminate.
    + now destruct (RunFacts.marker_free_spec _ _ Hu Hc).
    + exfalso. intuition discriminate.
Qed.

Lemma piece_ok_cons (s : span) (plain : pystr) (rest : list (span * pystr)) :
  forallb piece_ok ((s, plain) :: rest) = true ->
  span_ok s = true /\ marker_free plain = true /\ forallb piece_ok rest = true.
Proof.
  cbn [forallb]. rewrite !andb_true_iff. tauto.
Qed.

(** The matches of a pattern that begins with a marker and finds the
    spans of one format type, on the spans of a composed text. *)
Lemma scan_kind (c : char) (r : regex) (ty : string) :
  In c [ch "*"; ch "~"; ch "`"; ch "["] ->
  (forall s, span_ok s = true -> kind s <> ty -> ~ In c (written s)) ->
  (forall s t pos,
      span_ok s = true -> kind s = ty ->
      run (Chr c :: r) [] (written s ++ t) pos
      = Some (pos + List.length (written s), span_caps s pos)) ->
  forall rest pos,
    forallb piece_ok rest = true ->
    map (fun m => (m_start m, m_end m, ty, m))
        (scan (Chr c :: r) (written_spans rest) pos 0)
    = filter (of_kind ty) (all_entries pos rest).
Proof.
  intros Hc Hgap Hhit. induction rest as [|[s plain] rest IH]; intros pos Hok;
    [reflexivity|].
  apply piece_ok_cons in Hok as (Hs & Hp & Hrest).
  cbn [all_entries filter]. unfold of_kind at 1. cbn [entry_of fst snd].
  change (written_spans ((s, plain) :: rest))
    with ((written s ++ plain) ++ written_spans rest).
  rewrite <- app_assoc.
  assert (Hplain : ~ In c plain) by exact (RunFacts.marker_free_spec _ _ Hp Hc).
  destruct (String.eqb_spec (kind s) ty) as [Hk|Hk].
  - rewrite (scan_hit _ _ _ _ _ (written_nonempty s) (Hhit s _ pos Hs Hk)).
    cbn [map m_start m_end]. unfold entry_of. rewrite Hk.
    rewrite (scan_gap _ _ _ _ Hplain), (IH _ Hrest). reflexivity.
  - rewrite (scan_gap _ _ _ _ (Hgap s Hs Hk)), (scan_gap _ _ _ _ Hplain).
    apply IH, Hrest.
Qed.

Ltac other_kind :=
  let s := fresh "s" in
  let Hs := fresh "Hs" in
  let Hk := fresh "Hk" in
  let Hin := fresh "Hin" in
  intros s Hs Hk Hin;
  apply (marker_in_span _ _ Hs) in Hin; [|cbn; auto 6];
  destruct s; try discriminate Hin; now apply Hk.

Ltac this_kind hit :=
  let s := fresh "s" in
  let Hs := fresh "Hs" in
  let Hk := fresh "Hk" in
  intros s ? ? Hs Hk; destruct s; try discriminate Hk; now apply hit.

Lemma scan_em (rest : list (span * pystr)) (pos : nat) :
  forallb piece_ok rest = true ->
  map (fun m => (m_start m, m_end m, "em", m))
      (scan em_pattern (written_spans rest) pos 0)
  = filter (of_kind "em") (all_entries pos rest).
Proof.
  apply (scan_kind (ch "*")); [cbn; auto 6 | other_kind | this_kind italic_hit].
Qed.

Lemma scan_strike (rest : list (span * pystr)) (pos : nat) :
  forallb piece_ok rest = true ->
  map (fun m => (m_start m, m_end m, "strikethrough", m))
      (scan strike_pattern (written_spans rest) pos 0)
  = filter (of_kind "strikethrough") (all_entries pos rest).
Proof.
  apply (scan_kind (ch "~")); [cbn; auto 6 | other_kind | this_kind strike_hit].
Qed.

Lemma scan_code (rest : list (span * pystr)) (pos : nat) :
  forallb piece_ok rest = true ->
  map (fun m => (m_start m, m_end m, "code", m))
      (scan code_pattern (written_spans rest) pos 0)
  = filter (of_kind "code") (all_entries pos rest).
Proof.
  apply (scan_kind (ch "`")); [cbn; auto 6 | other_kind | this_kind code_hit].
Qed.

Lemma scan_link (rest : list (span * pystr)) (pos : nat) :
  forallb piece_ok rest = true ->
  map (fun m => (m_start m, m_end m, "link", m))
      (scan link_pattern (written_spans rest) pos 0)
  = filter (of_kind "link") (all_entries pos rest).
Proof.
  apply (scan_kind (ch "[")); [cbn; auto 6 | other_kind | this_kind link_hit].
Qed.

Lemma scan_miss (r : regex) (x : char) (t : pystr) (pos : nat) :
  run r [] (x :: t) pos = None -> scan r (x :: t) pos 0 = scan r t (S pos) 0.
Proof. intros H. cbn [scan]. now rewrite H. Qed.

(** The pattern of the bold spans needs two asterisks. *)
Lemma strong_miss (following : pystr) (pos : nat) :
  (forall u, following <> ch "*" :: u) ->
  run strong_pattern [] (ch "*" :: following) pos = None.
Proof.
  intros H. unfold Lit. rewrite run_chr. destruct following as [|x t]; [reflexivity|].
  cbn [run]. destruct (N.eqb_spec x (ch "*")) as [->|_]; [|reflexivity].
  now destruct (H t).
Qed.

Lemma italics_apart_cons (s : span) (plain : pystr) (rest : list (span * pystr)) :
  italics_apart ((s, plain) :: rest) = true -> italics_apart rest = true.
Proof. cbn [italics_apart]. rewrite andb_true_iff. tauto. Qed.

(** What follows a span in italics does not begin with an asterisk. *)
Lemma after_italic (inner plain : pystr) (rest : list (span * pystr)) :
  marker_free plain = true ->
  italics_apart ((Italic inner, plain) :: rest) = true ->
  forall u, plain ++ written_spans rest <> ch "*" :: u.
Proof.
  intros Hp Ha u E. destruct plain as [|x plain].
  - destruct rest as [|[s plain'] rest]; [discriminate E|].
    cbn [italics_apart is_italic Str.is_empty andb negb] in Ha.
    destruct s; try discriminate Ha; discriminate E.
  - injection E as -> _.
    apply (RunFacts.marker_free_spec _ (ch "*") Hp); cbn; auto.
Qed.

(** The pattern of the bold spans finds nothing in a well composed
    text. *)
Lemma scan_strong (rest : list (span * pystr)) :
  forallb piece_ok rest = true ->
  italics_apart rest = true ->
  forall pos, scan strong_pattern (written_spans rest) pos 0 = [].
Proof.
  induction rest as [|[s plain] rest IH]; intros Hok Ha pos; [reflexivity|].
  pose proof (italics_apart_cons _ _ _ Ha) as Ha'.
  apply piece_ok_cons in Hok as (Hs & Hp & Hrest).
  assert (Hplain : ~ In (ch "*") plain)
    by (apply (RunFacts.marker_free_spec _ _ Hp); cbn; auto).
  change (written_spans ((s, plain) :: rest))
    with ((written s ++ plain) ++ written_spans rest).
  rewrite <- app_assoc.
  destruct (is_italic s) eqn:Hi.
  - destruct s as [inner| | |]; try discriminate Hi.
    pose proof Hs as Hinner. apply inner_ok in Hinner as (Hne & Hf & _).
    assert (Hstar : ~ In (ch "*") inner)
      by (apply (RunFacts.marker_free_spec _ _ Hf); cbn; auto).
    change (written (Italic inner)) with (ch "*" :: inner ++ [ch "*"]).
    cbn [app]. rewrite <- app_assoc. cbn [app].
    rewrite scan_miss.
    + unfold Lit. rewrite (scan_gap _ _ _ _ Hstar).
      change (Chr (ch "*")) with (Lit "*").
      rewrite scan_miss by (apply strong_miss; now apply (after_italic inner)).
      unfold Lit. rewrite (scan_gap _ _ _ _ Hplain). now apply IH.
    + apply strong_miss. intros u E. destruct inner as [|x inner]; [congruence|].
      injection E as -> _. apply Hstar. now left.
  - assert (Hw : ~ In (ch "*") (written s)).
    { intros Hin. apply (marker_in_span _ _ Hs) in Hin; [|cbn; auto].
      destruct s; discriminate. }
    unfold Lit. rewrite (scan_gap _ _ _ _ Hw), (scan_gap _ _ _ _ Hplain).
    now apply IH.
Qed.

Lemma scan_lead (a : ascii) (r : regex) (lead t : pystr) :
  marker_free lead = true ->
  In (ch a) [ch "*"; ch "~"; ch "`"; ch "["] ->
  scan (Lit a :: r) (lead ++ t) 0 0 = scan (Lit a :: r) t (List.length lead) 0.
Proof.
  intros Hf Ha. unfold Lit. apply (scan_gap (ch a)).
  exact (RunFacts.marker_free_spec _ _ Hf Ha).
Qed.

Lemma well_composed_parts (c : composed) :
  well_composed c = true ->
  marker_free (fst c) = true /\ forallb piece_ok (snd c) = true
  /\ italics_apart (snd c) = true.
Proof. unfold well_composed. rewrite !andb_true_iff. tauto. Qed.

(** [matches] before sorting, on a well composed text: the spans in
    italics, then those struck through, then code, then the links. *)
Lemma find_matches_composed (c : composed) :
  well_composed c = true ->
  find_matches (written_text c)
  = filter (of_kind "em") (all_entries (List.length (fst c)) (snd c))
      ++ filter (of_kind "strikethrough") (all_entries (List.length (fst c)) (snd c))
      ++ filter (of_kind "code") (all_entries (List.length (fst c)) (snd c))
      ++ filter (of_kind "link") (all_entries (List.length (fst c)) (snd c)).
Proof.
  intros H. apply well_composed_parts in H as (Hl & Hok & Ha).
  unfold find_matches, patterns, finditer, written_text. cbn [flat_map].
  rewrite !(scan_lead _ _ _ _ Hl) by (cbn; auto 6).
  rewrite (scan_strong _ Hok Ha), (scan_em _ _ Hok), (scan_strike _ _ Hok),
    (scan_code _ _ Hok), (scan_link _ _ Hok).
  cbn [map app]. now rewrite app_nil_r.
Qed.

End FindFacts.

Module SortFacts.
Import Re StrFacts ReFacts Drafts ScanFacts SpanFacts FindFacts.
Import Stdlib.Sorting.Permutation Stdlib.Sorting.Sorted.

Local Abbreviation before := (fun x y : entry => entry_start x <= entry_start y).
Local Abbreviation strictly_before := (fun x y : entry => entry_start x < entry_start y).

Lemma insert_sorted_perm (x : entry) (l : list entry) :
  Permutation (insert_sorted x l) (x :: l).
Proof.
  induction l as [|y l IH]; cbn [insert_sorted]; [apply Permutation_refl|].
  destruct (Nat.ltb _ _); [apply Permutation_refl|].
  etransitivity; [apply perm_skip, IH | apply perm_swap].
Qed.

(** The sort returns the entries it was given. *)
Lemma sort_matches_perm (l : list entry) : Permutation (sort_matches l) l.
Proof.
  unfold sort_matches.
  assert (H : forall acc, Permutation (fold_left (fun acc x => insert_sorted x acc) l acc)
                                      (l ++ acc)).
  { induction l as [|x l IH]; intros acc; cbn [fold_left app]; [apply Permutation_refl|].
    etransitivity; [apply IH|].
    etransitivity; [apply Permutation_app_head, insert_sorted_perm|].
    symmetry. apply Permutation_middle. }
  specialize (H []). now rewrite app_nil_r in H.
Qed.

Lemma insert_sorted_sorted (x : entry) (l : list entry) :
  StronglySorted before l -> StronglySorted before (insert_sorted x l).
Proof.
  induction 1 as [|y l Hl IH Hy]; cbn [insert_sorted].
  - repeat constructor.
  - destruct (Nat.ltb_spec (entry_start x) (entry_start y)) as [Hlt|Hge].
    + constructor; [now constructor|].
      constructor; [lia|]. eapply Forall_impl; [|exact Hy]. cbn. intros; lia.
    + constructor; [exact IH|].
      eapply Permutation_Forall; [symmetry; apply insert_sorted_perm|].
      constructor; assumption.
Qed.

(** The sort returns them by start offset. *)
Lemma sort_matches_sorted (l : list entry) : StronglySorted before (sort_matches l).
Proof.
  unfold sort_matches.
  assert (H : forall acc, StronglySorted before acc ->
                          StronglySorted before
                            (fold_left (fun acc x => insert_sorted x acc) l acc)).
  { induction l as [|x l IH]; intros acc Hacc; cbn [fold_left]; [assumption|].
    apply IH, insert_sorted_sorted, Hacc. }
  apply H. constructor.
Qed.

(** Entries with different start offsets have one order only. *)
Lemma sorted_unique (l1 l2 : list entry) :
  StronglySorted before l1 -> StronglySorted strictly_before l2 ->
  Permutation l1 l2 -> l1 = l2.
Proof.
  intros H1. revert l2. induction H1 as [|a l1 Hl1 IH Ha]; intros l2 H2 Hp.
  - apply Permutation_nil in Hp. now subst.
  - destruct l2 as [|b l2]; [now apply Permutation_sym, Permutation_nil_cons in Hp|].
    inversion H2 as [|? ? Hl2 Hb]; subst.
    assert (E : a = b).
    { assert (Hin_a : In a (b :: l2)) by (eapply Permutation_in; [exact Hp|now left]).
      assert (Hin_b : In b (a :: l1))
        by (eapply Permutation_in; [symmetry; exact Hp|now left]).
      destruct Hin_a as [->|Hin_a]; [reflexivity|].
      destruct Hin_b as [->|Hin_b]; [reflexivity|].
      rewrite Forall_forall in Ha, Hb.
      specialize (Ha _ Hin_b). specialize (Hb _ Hin_a). cbn in Ha, Hb. lia. }
    subst b. f_equal. apply IH; [assumption|].
    eapply Permutation_cons_inv; exact Hp.
Qed.

Lemma all_entries_from (rest : list (span * pystr)) :
  forall pos, Forall (fun x => pos <= entry_start x) (all_entries pos rest).
Proof.
  induction rest as [|[s plain] rest IH]; intros pos; cbn [all_entries]; constructor.
  - unfold entry_start, entry_of. cbn [fst]. lia.
  - eapply Forall_impl; [|apply IH]. intros x Hx. cbn beta in Hx. lia.
Qed.

(** The spans of a composed text start one after the other. *)
Lemma all_entries_sorted (rest : list (span * pystr)) :
  forall pos, StronglySorted strictly_before (all_entries pos rest).
Proof.
  induction rest as [|[s plain] rest IH]; intros pos; cbn [all_entries]; constructor.
  - apply IH.
  - eapply Forall_impl; [|apply all_entries_from]. intros x Hx. cbn beta in *.
    unfold entry_start, entry_of in *. cbn [fst] in *.
    pose proof (written_nonempty s) as Hn.
    destruct (written s); [congruence|]. cbn [List.length] in *. lia.
Qed.

Lemma perm_middle_eq (x : entry) (l1 l2 l l' : list entry) :
  l = l1 ++ l2 -> l' = l1 ++ x :: l2 -> Permutation (x :: l) l'.
Proof. intros -> ->. apply Permutation_middle. Qed.

(** Every span has one of the four format types. *)
Lemma kinds_of_entries (rest : list (span * pystr)) :
  forall pos,
    Permutation
      (filter (of_kind "em") (all_entries pos rest)
         ++ filter (of_kind "strikethrough") (all_entries pos rest)
         ++ filter (of_kind "code") (all_entries pos rest)
         ++ filter (of_kind "link") (all_entries pos rest))
      (all_entries pos rest).
Proof.
  induction rest as [|[s plain] rest IH]; intros pos; [apply Permutation_refl|].
  cbn [all_entries filter]. unfold of_kind at 1 3 5 7. cbn [entry_of fst snd].
  specialize (IH (pos + List.length (written s) + List.length plain)).
  destruct s; cbn [kind String.eqb Ascii.eqb Bool.eqb];
    (etransitivity; [|apply perm_skip, IH]); symmetry;
    match goal with
    | |- Permutation (_ :: ?A ++ ?B ++ ?C ++ ?D) _ =>
        first [ apply (perm_middle_eq _ [] (A ++ B ++ C ++ D)); reflexivity
              | apply (perm_middle_eq _ A (B ++ C ++ D)); reflexivity
              | apply (perm_middle_eq _ (A ++ B) (C ++ D));
                cbn [app]; now rewrite <- ?app_assoc
              | apply (perm_middle_eq _ (A ++ B ++ C) D);
                cbn [app]; now rewrite <- ?app_assoc ]
    end.
Qed.

(** The sorted matches of a well composed text are its spans from left
    to right. *)
Lemma sorted_matches_composed (c : composed) :
  well_composed c = true ->
  sort_matches (find_matches (written_text c))
  = all_entries (List.length (fst c)) (snd c).
Proof.
  intros H. apply sorted_unique.
  - apply sort_matches_sorted.
  - apply all_entries_sorted.
  - etransitivity; [apply sort_matches_perm|].
    rewrite (find_matches_composed _ H). apply kinds_of_entries.
Qed.

End SortFacts.

Module WalkFacts.
Import Re StrFacts ReFacts Drafts FormatFacts ShapeFacts ScanFacts SpanFacts FindFacts.

(** The groups of the match of a span are its shown text and, for a
    link, its target. *)
Lemma span_groups (text pre t : pystr) (s : span) :
  text = pre ++ written s ++ t ->
  (if String.eqb (kind s) "link"
   then marked_text (group text (snd (entry_of s (List.length pre))) 1)
          [link_mark (group text (snd (entry_of s (List.length pre))) 2)]
   else marked_text (group text (snd (entry_of s (List.length pre))) 1)
          [{| mark_type := kind s; mark_attrs := None |}])
  = span_run s.
Proof.
  intros ->. unfold group, entry_of, span_run. cbn [snd m_caps].
  assert (Hskip : forall x, skipn (List.length pre) (pre ++ x) = x)
    by (intros; apply FootnoteFacts.skipn_length_app).
  destruct s as [inner|inner|inner|label target]; cbn [kind String.eqb Ascii.eqb Bool.eqb
    span_caps nth Nat.mul Nat.sub Nat.add shown span_mark].
  - rewrite (slice_of_parts _ (List.length pre) _ _ [ch "*"] inner ([ch "*"] ++ t));
      [reflexivity| |cbn [List.length]; lia|lia].
    rewrite Hskip. change (written (Italic inner)) with ([ch "*"] ++ inner ++ [ch "*"]).
    now rewrite <- !app_assoc.
  - rewrite (slice_of_parts _ (List.length pre) _ _ [ch "~"; ch "~"] inner
               ([ch "~"; ch "~"] ++ t));
      [reflexivity| |cbn [List.length]; lia|lia].
    rewrite Hskip.
    change (written (Strike inner)) with ([ch "~"; ch "~"] ++ inner ++ [ch "~"; ch "~"]).
    now rewrite <- !app_assoc.
  - rewrite (slice_of_parts _ (List.length pre) _ _ [ch "`"] inner ([ch "`"] ++ t));
      [reflexivity| |cbn [List.length]; lia|lia].
    rewrite Hskip. change (written (Code inner)) with ([ch "`"] ++ inner ++ [ch "`"]).
    now rewrite <- !app_assoc.
  - rewrite (slice_of_parts _ (List.length pre) _ _ [ch "["] label
               ([ch "]"; ch "("] ++ target ++ [ch ")"] ++ t));
      [| |cbn [List.length]; lia|lia].
    + rewrite (slice_of_parts _ (List.length pre) _ _ ([ch "["] ++ label ++ [ch "]"; ch "("])
                 target ([ch ")"] ++ t));
        [reflexivity| |rewrite !length_app; cbn [List.length]; lia|lia].
      rewrite Hskip.
      change (written (Link label target))
        with ([ch "["] ++ label ++ [ch "]"; ch "("] ++ target ++ [ch ")"]).
      now rewrite <- !app_assoc.
    + rewrite Hskip.
      change (written (Link label target))
        with ([ch "["] ++ label ++ [ch "]"; ch "("] ++ target ++ [ch ")"]).
      now rewrite <- !app_assoc.
Qed.

Lemma slice_gap (pre g t : pystr) :
  Str.slice (pre ++ g ++ t) (List.length pre) (List.length pre + List.length g) = g.
Proof.
  apply (slice_of_parts _ (List.length pre) _ _ [] g t); cbn [app List.length]; try lia.
  apply FootnoteFacts.skipn_length_app.
Qed.

(** One turn of the loop on the entry of a span: the plain text before
    the span, if any, and the run of the span. *)
Lemma step_span (text pre g t : pystr) (s : span) (elements : list node) :
  text = pre ++ g ++ written s ++ t ->
  match_step text (elements, List.length pre)
             (entry_of s (List.length pre + List.length g))
  = (elements ++ plain_run g ++ [span_run s],
     List.length pre + List.length g + List.length (written s)).
Proof.
  intros Ht.
  assert (Hrun : (if String.eqb (kind s) "link"
                  then marked_text
                         (group text (snd (entry_of s (List.length pre + List.length g))) 1)
                         [link_mark
                            (group text
                               (snd (entry_of s (List.length pre + List.length g))) 2)]
                  else marked_text
                         (group text (snd (entry_of s (List.length pre + List.length g))) 1)
                         [{| mark_type := kind s; mark_attrs := None |}])
                 = span_run s).
  { rewrite <- length_app. apply (span_groups text (pre ++ g) t).
    rewrite Ht. now rewrite <- app_assoc. }
  unfold match_step, entry_of in *. cbn [snd] in Hrun.
  assert (Hgap : (if Nat.ltb (List.length pre) (List.length pre + List.length g)
                  then if negb (Str.is_empty
                                  (Str.slice text (List.length pre)
                                             (List.length pre + List.length g)))
                       then elements ++ [text_node
                                           (Str.slice text (List.length pre)
                                                      (List.length pre + List.length g))]
                       else elements
                  else elements)
                 = elements ++ plain_run g).
  { rewrite Ht, slice_gap. unfold plain_run. destruct g as [|x g].
    - cbn [List.length]. rewrite Nat.add_0_r, Nat.ltb_irrefl. cbn. now rewrite app_nil_r.
    - cbn [Str.is_empty negb].
      destruct (Nat.ltb_spec (List.length pre) (List.length pre + List.length (x :: g)))
        as [_|H]; [reflexivity|]. cbn [List.length] in H. lia. }
  rewrite Hgap. f_equal.
  destruct (String.eqb (kind s) "link"); rewrite <- Hrun; now rewrite <- app_assoc.
Qed.

(** The loop over the entries of the spans and the step for the text
    that remains give the parts of the composed text. *)
Lemma walk_spans (text : pystr) (rest : list (span * pystr)) :
  forall pre g elements pos els cur,
    text = pre ++ g ++ written_spans rest ->
    pos = List.length pre + List.length g ->
    fold_left (match_step text) (all_entries pos rest) (elements, List.length pre)
    = (els, cur) ->
    (if Nat.ltb cur (List.length text)
     then if negb (Str.is_empty (Str.slice_from text cur))
          then els ++ [text_node (Str.slice_from text cur)]
          else els
     else els)
    = elements ++ plain_run g
        ++ flat_map (fun '(s, plain) => span_run s :: plain_run plain) rest.
Proof.
  induction rest as [|[s plain] rest IH]; intros pre g elements pos els cur Ht -> Hf.
  - cbn [all_entries fold_left] in Hf. injection Hf as <- <-.
    cbn [written_spans flat_map] in *. rewrite app_nil_r in *. subst text.
    unfold Str.slice_from. rewrite FootnoteFacts.skipn_length_app, length_app.
    unfold plain_run. destruct g as [|x g].
    + cbn [List.length]. rewrite Nat.add_0_r, Nat.ltb_irrefl. now rewrite app_nil_r.
    + cbn [Str.is_empty negb].
      destruct (Nat.ltb_spec (List.length pre) (List.length pre + List.length (x :: g)))
        as [_|H]; [reflexivity|]. cbn [List.length] in H. lia.
  - cbn [all_entries fold_left] in Hf.
    change (written_spans ((s, plain) :: rest))
      with ((written s ++ plain) ++ written_spans rest) in Ht.
    rewrite <- app_assoc in Ht.
    rewrite (step_span text pre g (plain ++ written_spans rest) s elements Ht) in Hf.
    replace (List.length pre + List.length g + List.length (written s))
      with (List.length (pre ++ g ++ written s)) in Hf
      by (rewrite !length_app; lia).
    rewrite (IH (pre ++ g ++ written s) plain
                (elements ++ plain_run g ++ [span_run s])
                (List.length (pre ++ g ++ written s) + List.length plain) els cur);
      [| |reflexivity|exact Hf].
    + cbn [flat_map]. rewrite <- !app_assoc. reflexivity.
    + rewrite Ht. now rewrite <- !app_assoc.
Qed.

End WalkFacts.

Module ComposedFacts.
Import Re StrFacts ReFacts Drafts FormatFacts ShapeFacts.
Import ScanFacts SpanFacts FindFacts SortFacts WalkFacts.

(** The formatter on a well composed text. *)
Lemma formatter_composed (c : composed) :
  well_composed c = true ->
  parse_inline_formatting (written_text c) = expected_runs c.
Proof.
  intros H. unfold parse_inline_formatting. rewrite (sorted_matches_composed _ H).
  destruct (fold_left _ _ _) as [els cur] eqn:Hf.
  rewrite (walk_spans (written_text c) (snd c) [] (fst c) [] _ els cur eq_refl eq_refl Hf).
  cbn [app]. fold (parts c). unfold expected_runs.
  change has_text with (fun part => nonblank (get_text part)).
  destruct (parts c) as [|part l]; [|now destruct (filter _ (part :: l))].
  cbn [filter get_text text_node text]. now destruct (nonblank (written_text c)).
Qed.

Lemma shown_in_written (s : span) : Subseq (shown s) (written s).
Proof.
  destruct s as [inner|inner|inner|label target]; cbn [shown].
  - apply (Subseq_skip_app [ch "*"]).
    rewrite <- (app_nil_r inner) at 1. apply Subseq_app; [apply Subseq_refl|constructor].
    constructor.
  - apply (Subseq_skip_app [ch "~"; ch "~"]).
    rewrite <- (app_nil_r inner) at 1. apply Subseq_app; [apply Subseq_refl|].
    apply Subseq_nil_l.
  - apply (Subseq_skip_app [ch "`"]).
    rewrite <- (app_nil_r inner) at 1. apply Subseq_app; [apply Subseq_refl|].
    apply Subseq_nil_l.
  - apply (Subseq_skip_app [ch "["]).
    rewrite <- (app_nil_r label) at 1. apply Subseq_app; [apply Subseq_refl|].
    apply Subseq_nil_l.
Qed.

Lemma kept_plain_run (keep : node -> bool) (plain : pystr) :
  Subseq (List.concat (map get_text (filter keep (plain_run plain)))) plain.
Proof.
  unfold plain_run. destruct plain as [|x plain]; [constructor|].
  cbn [Str.is_empty filter]. destruct (keep _); cbn; [|apply Subseq_nil_l].
  rewrite app_nil_r. apply Subseq_refl.
Qed.

(** The texts of the parts that are kept are in the text, in order. *)
Lemma kept_parts_Subseq (keep : node -> bool) (c : composed) :
  Subseq (List.concat (map get_text (filter keep (parts c)))) (written_text c).
Proof.
  unfold parts, written_text. destruct c as [lead rest]. cbn [fst snd].
  rewrite filter_app, map_app, concat_app.
  apply Subseq_app; [apply kept_plain_run|].
  induction rest as [|[s plain] rest IH]; [constructor|].
  cbn [flat_map written_spans]. rewrite filter_app, map_app, concat_app.
  apply Subseq_app; [|exact IH].
  cbn [filter]. destruct (keep (span_run s)); cbn [map List.concat].
  - apply Subseq_app; [apply shown_in_written | apply kept_plain_run].
  - apply Subseq_skip_app, kept_plain_run.
Qed.

Lemma filter_all (A : Type) (f : A -> bool) (l : list A) :
  forallb f l = true -> filter f l = l.
Proof.
  induction l as [|x l IH]; cbn [forallb filter]; [reflexivity|].
  intros H. apply andb_true_iff in H as [-> H]. now rewrite IH.
Qed.

Lemma plain_run_text (plain : pystr) :
  List.concat (map get_text (plain_run plain)) = plain.
Proof.
  unfold plain_run. destruct plain; [reflexivity|]. cbn. now rewrite app_nil_r.
Qed.

(** The texts of the parts make up the text without its delimiters. *)
Lemma parts_text (c : composed) :
  List.concat (map get_text (parts c)) = without_delimiters c.
Proof.
  unfold parts, without_delimiters. destruct c as [lead rest]. cbn [fst snd].
  rewrite map_app, concat_app, plain_run_text. f_equal.
  induction rest as [|[s plain] rest IH]; [reflexivity|].
  cbn [flat_map]. rewrite map_app, concat_app, IH. f_equal.
  cbn [map List.concat]. now rewrite plain_run_text.
Qed.

End ComposedFacts.

Import ComposedFacts.



